(** * Resume.py: the document pipeline and the AI edit applier

    A shallow embedding of the functions of [Resume.py] that build LaTeX
    fragments from a resume profile, render a template, drive [pdflatex]
    and apply AI-suggested edits to a deep copy of the profile; beside
    them, the reading of lines from the terminal and the filling of the
    experience section of a Word document.

    Conventions of the embedding.
    - A Python [str] is a [string]: the UTF-8 bytes of the text.  Every
      character the code inspects is ASCII, and no byte of a multi-byte
      UTF-8 sequence is ASCII, so working on bytes gives what Python gives
      on code points; where the code walks or indexes a text, the bytes
      are grouped into characters ([Py.code_points]).
    - Python values are JSON values: [None], booleans, integers, strings,
      lists and dicts with string keys (profiles and edits come from
      [json.load] or from the interactive prompts).  Floats do not occur in
      that data and are left out.
    - An exception is a value of [exn]; a computation that may raise
      returns a [result].
    - The console reads what it prints as markup, in which a closing tag
      that closes nothing is an error.  What is printed is recorded by
      kind, with the text the code puts into the message; a statement
      that a message is printed is made for a text that holds no opening
      of a closing tag ([Str.markup_free]).
    - A file is a text of bytes under a path; reading in text mode
      decodes it and translates its line ends ([Sys.read_text]).
    - Interpreter resource limits (recursion depth, memory) are not
      modelled. *)

From Stdlib Require Import Ascii ZArith Lia.
From stdpp Require Import base option list strings gmap.

Local Open Scope list_scope.

(** ** Python values, exceptions *)

(** The immutable values: [None], [bool], [int], [str]. *)
Inductive scalar : Type :=
  | SNone
  | SBool (b : bool)
  | SInt (z : Z)
  | SStr (s : string).

(** The exceptions the embedded code can raise.  [NotModelled] is no
    Python exception: it marks the few places, named where they occur,
    at which the code leaves the fragment of Python embedded here. *)
Inductive exn : Type :=
  | KeyError (key : scalar)
  | IndexError
  | TypeError
  | AttributeError
  | ValueError
  | OSError
  | NotModelled.

Inductive result (A : Type) : Type :=
  | Ret (a : A)
  | Raise (e : exn).
Arguments Ret {A} a.
Arguments Raise {A} e.

Definition bind {A B : Type} (m : result A) (k : A -> result B) : result B :=
  match m with
  | Ret a => k a
  | Raise e => Raise e
  end.

Notation "x <- m ;;; k" := (bind m (fun x => k))
  (at level 100, m at next level, right associativity).

(** ** Strings *)

Module Str.

(** The line feed that Python writes as a backslash followed by n. *)
Definition LF : string := String (ascii_of_nat 10) EmptyString.

Fixpoint drop (n : nat) (s : string) : string :=
  match n, s with
  | O, _ => s
  | S n', String _ s' => drop n' s'
  | S _, EmptyString => EmptyString
  end.

(** One scan of [text] from left to right: at each position, [pick]
    names the matched prefix and its replacement, if any; a match is
    replaced and the scan goes on after it, otherwise the character is
    copied.  [skip] counts the characters of the last match that are
    still to be passed over.  An empty match (CPython 3.7 and later)
    emits its replacement and copies the character. *)
Fixpoint scan (pick : string -> option (nat * string)) (skip : nat)
    (text : string) : string :=
  match text with
  | EmptyString =>
      match skip, pick EmptyString with
      | O, Some (_, r) => r
      | _, _ => EmptyString
      end
  | String c rest =>
      match skip with
      | S k => scan pick k rest
      | O =>
          match pick text with
          | Some (S k, r) => r +:+ scan pick k rest
          | Some (O, r) => r +:+ String c (scan pick O rest)
          | None => String c (scan pick O rest)
          end
      end
  end.

(** [text.replace(old, new)] for a non-empty [old]. *)
Definition replace (old new text : string) : string :=
  scan (fun t => if String.prefix old t then Some (String.length old, new) else None)
       O text.

(** [text.join(pieces)] for an empty [text]. *)
Definition join (pieces : list string) : string :=
  foldr String.append EmptyString pieces.

(** [old in text]: [old] occurs in [text]. *)
Fixpoint contains (old text : string) : bool :=
  String.prefix old text ||
  match text with
  | EmptyString => false
  | String _ rest => contains old rest
  end.

(** The carriage return. *)
Definition CR : string := String (ascii_of_nat 13) EmptyString.

(** The text holds no opening of a closing tag of the console's markup.
    The console ([rich]) reads [[name]] in what it prints as a tag and
    raises [MarkupError] for a closing tag [[/name]] that closes nothing;
    a text without [[/] has no closing tag, so printing it inside a
    message of the code raises nothing. *)
Definition markup_free (text : string) : bool := negb (contains "[/" text).

End Str.

(** ** Read-only Python data: JSON trees *)

Module Py.

(** A value that is only read (the profile as the section builders see
    it): a dict is its items in insertion order, keys distinct. *)
#[warnings="-register-all"]
Inductive json : Type :=
  | JAtom (a : scalar)
  | JList (xs : list json)
  | JDict (kvs : list (string * json)).

Definition JStr (s : string) : json := JAtom (SStr s).
Definition JNone : json := JAtom SNone.

(** [bool(a)] for an immutable value. *)
Definition scalar_truthy (a : scalar) : bool :=
  match a with
  | SNone => false
  | SBool b => b
  | SInt z => negb (Z.eqb z 0)
  | SStr s => negb (String.eqb s EmptyString)
  end.

(** [bool(v)]: Python's truth value. *)
Definition truthy (v : json) : bool :=
  match v with
  | JAtom a => scalar_truthy a
  | JList xs => negb (Nat.eqb (List.length xs) 0)
  | JDict kvs => negb (Nat.eqb (List.length kvs) 0)
  end.

(** The first item with key [k]. *)
Fixpoint assoc {V : Type} (k : string) (kvs : list (string * V)) : option V :=
  match kvs with
  | [] => None
  | (k', v) :: kvs' => if String.eqb k' k then Some v else assoc k kvs'
  end.

(** [v.get(k, dflt)]: only a dict has [get]. *)
Definition get (v : json) (k : string) (dflt : json) : result json :=
  match v with
  | JDict kvs => Ret (match assoc k kvs with Some x => x | None => dflt end)
  | _ => Raise AttributeError
  end.

(** A byte that continues a UTF-8 sequence. *)
Definition continuation (c : ascii) : bool :=
  let n := nat_of_ascii c in (128 <=? n)%nat && (n <=? 191)%nat.

(** The characters of a [str], each with the bytes of its UTF-8
    sequence: a byte that continues a sequence belongs to the character
    that the sequence starts. *)
Fixpoint code_points (s : string) : list string :=
  match s with
  | EmptyString => []
  | String c s' =>
      match code_points s' with
      | String c' t :: rest =>
          if continuation c' then String c (String c' t) :: rest
          else String c EmptyString :: String c' t :: rest
      | rest => String c EmptyString :: rest
      end
  end.

Definition chars (s : string) : list json := JStr <$> code_points s.

(** [v[k]] for a string key [k]. *)
Definition getitem (v : json) (k : string) : result json :=
  match v with
  | JDict kvs =>
      match assoc k kvs with
      | Some x => Ret x
      | None => Raise (KeyError (SStr k))
      end
  | _ => Raise TypeError
  end.

(** What [for x in v] visits: the elements of a list, the keys of a
    dict, the characters of a string; nothing else is iterable. *)
Definition iter (v : json) : result (list json) :=
  match v with
  | JList xs => Ret xs
  | JDict kvs => Ret (map (fun kv => JStr (fst kv)) kvs)
  | JAtom (SStr s) => Ret (chars s)
  | JAtom _ => Raise TypeError
  end.

(** A [for] loop that updates one local variable. *)
Fixpoint for_each {A S : Type} (xs : list A) (s : S)
    (body : S -> A -> result S) : result S :=
  match xs with
  | [] => Ret s
  | x :: xs' => s' <- body s x ;;; for_each xs' s' body
  end.

End Py.

(** ** Text sanitizer *)

Module Sanitizer.

(** The dict literal [conv] of [sanitize_for_latex], in source order. *)
Definition conv : list (string * string) :=
  [ ("&", "\&"); ("%", "\%"); ("$", "\$"); ("#", "\#"); ("_", "\_");
    ("{", "\{"); ("}", "\}"); ("~", "\textasciitilde{}");
    ("^", "\textasciicircum{}"); ("\", "\textbackslash{}") ].

(** [conv[k]]. *)
Fixpoint conv_get (d : list (string * string)) (k : string) : result string :=
  match d with
  | [] => Raise (KeyError (SStr k))
  | (k', r) :: d' => if String.eqb k' k then Ret r else conv_get d' k
  end.

(** [sorted(keys, key=len, reverse=True)]: a stable sort, longest first. *)
Fixpoint insert_by_len (k : string) (l : list string) : list string :=
  match l with
  | [] => [k]
  | k' :: l' =>
      if (String.length k' <=? String.length k)%nat then k :: l
      else k' :: insert_by_len k l'
  end.

Definition sorted_by_len_desc (l : list string) : list string :=
  foldr insert_by_len [] l.

(** The compiled pattern: an alternation of literals, tried in order;
    [re.escape] makes each key match itself only. *)
Definition regex_match (alts : list string) (text : string) : option string :=
  List.find (fun k => String.prefix k text) alts.

(** [regex.sub(repl, text)] for an alternation of literals [alts]. *)
Fixpoint regex_sub (alts : list string) (repl : string -> result string)
    (skip : nat) (text : string) : result string :=
  match text with
  | EmptyString =>
      match skip, regex_match alts EmptyString with
      | O, Some k => repl k
      | _, _ => Ret EmptyString
      end
  | String c rest =>
      match skip with
      | S n => regex_sub alts repl n rest
      | O =>
          match regex_match alts text with
          | Some k =>
              r <- repl k ;;;
              match String.length k with
              | S n => out <- regex_sub alts repl n rest ;;; Ret (r +:+ out)
              | O => out <- regex_sub alts repl O rest ;;; Ret (r +:+ String c out)
              end
          | None => out <- regex_sub alts repl O rest ;;; Ret (String c out)
          end
      end
  end.

(** The last two lines of [sanitize_for_latex], for a [str]. *)
Definition sanitize_text (text : string) : result string :=
  regex_sub (sorted_by_len_desc (map fst conv)) (conv_get conv) O text.

(** [sanitize_for_latex(text)]: a falsy [text] gives the empty string;
    [regex.sub] accepts a [str] only. *)
Definition sanitize_for_latex (text : Py.json) : result string :=
  if negb (Py.truthy text) then Ret EmptyString
  else match text with
       | Py.JAtom (SStr s) => sanitize_text s
       | _ => Raise TypeError
       end.

(** [c] is a key of [conv]. *)
Definition reserved (c : ascii) : bool :=
  existsb (String.eqb (String c EmptyString)) (map fst conv).

(** What the table does to one character: its entry, or the character. *)
Definition escape_char (c : ascii) : string :=
  match conv_get conv (String c EmptyString) with
  | Ret r => r
  | Raise _ => String c EmptyString
  end.

Fixpoint escape_all (s : string) : string :=
  match s with
  | EmptyString => EmptyString
  | String c s' => escape_char c +:+ escape_all s'
  end.

(** The texts in which every reserved character belongs to an escape
    sequence: sequences of unreserved characters and whole entries of
    [conv]. *)
Inductive escaped : string -> Prop :=
  | escaped_nil : escaped EmptyString
  | escaped_plain c s : reserved c = false -> escaped s -> escaped (String c s)
  | escaped_seq c s : reserved c = true -> escaped s -> escaped (escape_char c +:+ s).

(** Reading an escaped text back: the entry of [conv] whose escape
    sequence starts the text, if any. *)
Definition unescape_pick (t : string) : option (nat * string) :=
  (fun kv => (String.length (snd kv), fst kv)) <$>
  List.find (fun kv => String.prefix (snd kv) t) conv.

Definition unescape (t : string) : string := Str.scan unescape_pick O t.

(** *** The reserved characters, written out

    The ten reserved characters (ampersand, percent, dollar, hash,
    underscore, the two braces, tilde, caret, backslash), each with its
    escape sequence.  The statement about the sanitizer is made against
    this table, not against [conv]. *)
Definition escape_sequences : list (ascii * string) :=
  [ ("&"%char, "\&"); ("%"%char, "\%"); ("$"%char, "\$"); ("#"%char, "\#");
    ("_"%char, "\_"); ("{"%char, "\{"); ("}"%char, "\}");
    ("~"%char, "\textasciitilde{}"); ("^"%char, "\textasciicircum{}");
    ("\"%char, "\textbackslash{}") ].

(** The escape sequence of [c], when [c] is reserved. *)
Definition escape_sequence (c : ascii) : option string :=
  snd <$> List.find (fun p => Ascii.eqb (fst p) c) escape_sequences.

(** The text with each reserved character replaced by its escape
    sequence and every other character kept. *)
Fixpoint escaped_text (s : string) : string :=
  match s with
  | EmptyString => EmptyString
  | String c s' =>
      match escape_sequence c with
      | Some e => e
      | None => String c EmptyString
      end +:+ escaped_text s'
  end.

(** The texts in which every reserved character belongs to a whole
    escape sequence. *)
Inductive fully_escaped : string -> Prop :=
  | fully_escaped_nil : fully_escaped EmptyString
  | fully_escaped_plain c s :
      escape_sequence c = None -> fully_escaped s -> fully_escaped (String c s)
  | fully_escaped_sequence c e s :
      escape_sequence c = Some e -> fully_escaped s -> fully_escaped (e +:+ s).

(** Reading an escaped text back: each escape sequence gives its
    character, every other character itself. *)
Definition read_back (t : string) : string :=
  Str.scan
    (fun t =>
       (fun p => (String.length (snd p), String (fst p) EmptyString)) <$>
       List.find (fun p => String.prefix (snd p) t) escape_sequences)
    O t.

(** No character of [s] is a key of [conv]. *)
Fixpoint unreserved (s : string) : bool :=
  match s with
  | EmptyString => true
  | String c s' => negb (reserved c) && unreserved s'
  end.

End Sanitizer.

(** ** Section builders *)

Module Builders.
Import Py Sanitizer.

(** [s.replace(old, new)]: a method of [str] only. *)
Definition str_replace (v : json) (old new : string) : result string :=
match v with
| JAtom (SStr s) => Ret (Str.replace old new s)
| _ => Raise AttributeError
end.

Abbreviation LF := Str.LF.

Definition build_summary_section (data : json) : result string :=
  summary <- get data "summary" JNone ;;;
  if negb (truthy summary) then Ret EmptyString
  else
    summary <- getitem data "summary" ;;;
    text <- sanitize_for_latex summary ;;;
    Ret ("\section*{Summary}" +:+ LF +:+ text +:+ "\vspace{10pt}" +:+ LF).

(** The f-string of one experience or education entry: a two-row table. *)
Definition entry_table (a b c d : string) : string :=
  "  \item" +:+ LF +:+
  "    \begin{tabular*}{\textwidth}{@{\extracolsep{\fill}}l r}" +:+ LF +:+
  "      \textbf{\large " +:+ a +:+ "} & {\small " +:+ b +:+ "} \\" +:+ LF +:+
  "      \textit{\small " +:+ c +:+ "} & \textit{\small " +:+ d +:+ "} \\" +:+ LF +:+
  "    \end{tabular*}\vspace{-2pt}" +:+ LF.

(** The body of the inner loop of [build_experience_section]. *)
Definition accomplishment_item (experience_str : string) (acc : json) : result string :=
  sanitized <- sanitize_for_latex acc ;;;
  let sanitized_acc := Str.replace "\textbackslash{}\%" "\%" sanitized in
  Ret (experience_str +:+ "      \item \small{" +:+ sanitized_acc +:+ "}" +:+ LF).

(** The body of the outer loop of [build_experience_section]. *)
Definition experience_entry (experience_str : string) (entry : json) : result string :=
  v <- get entry "title" (JStr "") ;;; title <- sanitize_for_latex v ;;;
  v <- get entry "dates" (JStr "") ;;; dates <- sanitize_for_latex v ;;;
  v <- get entry "company" (JStr "") ;;; company <- sanitize_for_latex v ;;;
  v <- get entry "location" (JStr "") ;;; location <- sanitize_for_latex v ;;;
  let title := Str.replace "\textbackslash{}" "/" title in
  let experience_str := experience_str +:+ entry_table title dates company location in
  accs <- get entry "accomplishments" JNone ;;;
  if truthy accs then
    let experience_str :=
      experience_str +:+
      "    \begin{itemize}[leftmargin=0.2in, topsep=0pt, itemsep=-2pt]" +:+ LF in
    accs <- getitem entry "accomplishments" ;;;
    items <- iter accs ;;;
    experience_str <- for_each items experience_str accomplishment_item ;;;
    Ret (experience_str +:+ "    \end{itemize}" +:+ LF)
  else Ret experience_str.

Definition build_experience_section (data : json) : result string :=
  experience <- get data "experience" JNone ;;;
  if negb (truthy experience) then Ret EmptyString
  else
    let experience_str :=
      "\section*{Professional Experience}" +:+ LF +:+
      "\begin{itemize}[leftmargin=0.15in, label={}]" +:+ LF in
    experience <- getitem data "experience" ;;;
    entries <- iter experience ;;;
    experience_str <- for_each entries experience_str experience_entry ;;;
    Ret (experience_str +:+ "\end{itemize}" +:+ LF +:+ LF).

(** The loop body of [build_education_section]. *)
Definition education_entry (education_str : string) (entry : json) : result string :=
  v <- get entry "institution" (JStr "") ;;; institution <- sanitize_for_latex v ;;;
  v <- get entry "dates" (JStr "") ;;; dates <- sanitize_for_latex v ;;;
  v <- get entry "degree" (JStr "") ;;; degree <- sanitize_for_latex v ;;;
  v <- get entry "location" (JStr "") ;;; location <- sanitize_for_latex v ;;;
  Ret (education_str +:+ entry_table institution dates degree location).

Definition build_education_section (data : json) : result string :=
  education <- get data "education" JNone ;;;
  if negb (truthy education) then Ret EmptyString
  else
    let education_str :=
      "\section*{Education}" +:+ LF +:+
      "\begin{itemize}[leftmargin=0.15in, label={}]" +:+ LF in
    education <- getitem data "education" ;;;
    entries <- iter education ;;;
    education_str <- for_each entries education_str education_entry ;;;
    Ret (education_str +:+ "\end{itemize}" +:+ LF +:+ LF).

(** The nested function [clean_skill] of [build_skills_section]. *)
Definition clean_skill (skill : json) : result string :=
  skill <- str_replace skill "\textbackslash{}\&" " & " ;;;
  sanitize_for_latex (JStr skill).

(** The f-string that opens a column of skills. *)
Definition skills_column (width title : string) : string :=
  "\begin{minipage}[t]{" +:+ width +:+ "\textwidth}" +:+ LF +:+
  "    \begin{itemize}[leftmargin=0.15in, label={}, noitemsep, topsep=0pt]" +:+ LF +:+
  "        \item \textbf{" +:+ title +:+ "}" +:+ LF +:+
  "        \begin{itemize}[leftmargin=0.2in, topsep=2pt, itemsep=-2pt]" +:+ LF.

Definition skill_item (skills_str : string) (skill : json) : result string :=
  cleaned <- clean_skill skill ;;;
  Ret (skills_str +:+ "            \item " +:+ cleaned +:+ LF).

Definition skills_column_end : string :=
  "        \end{itemize}" +:+ LF +:+ "    \end{itemize}" +:+ LF +:+ "\end{minipage}".

Definition build_skills_section (data : json) : result string :=
  skills <- get data "skills" JNone ;;;
  if negb (truthy skills) then Ret EmptyString
  else
    tech <- get skills "technical" JNone ;;;
    prof <- (if truthy tech then Ret JNone else get skills "professional" JNone) ;;;
    if negb (truthy tech) && negb (truthy prof) then Ret EmptyString
    else
      let skills_str := "\section*{Skills}" +:+ LF +:+ "\noindent" +:+ LF in
      tech_skills <- get skills "technical" (JList []) ;;;
      prof_skills <- get skills "professional" (JList []) ;;;
      let tech_col_width :=
        if truthy tech_skills && truthy prof_skills then "0.5" else "1.0" in
      let prof_col_width :=
        if truthy tech_skills && truthy prof_skills then "0.5" else "1.0" in
      skills_str <-
        (if truthy tech_skills then
           let skills_str := skills_str +:+ skills_column tech_col_width "Technical Skills" in
           items <- iter tech_skills ;;;
           skills_str <- for_each items skills_str skill_item ;;;
           let skills_str := skills_str +:+ skills_column_end in
           Ret (if truthy prof_skills then skills_str +:+ "%" +:+ LF else skills_str)
         else Ret skills_str) ;;;
      if truthy prof_skills then
        let skills_str := skills_str +:+ skills_column prof_col_width "Professional Skills" in
        items <- iter prof_skills ;;;
        skills_str <- for_each items skills_str skill_item ;;;
        Ret (skills_str +:+ skills_column_end +:+ LF +:+ LF)
      else Ret skills_str.

Definition language_item (lang_str : string) (lang : json) : result string :=
  text <- sanitize_for_latex lang ;;;
  Ret (lang_str +:+ "    \item " +:+ text +:+ LF).

Definition build_languages_section (data : json) : result string :=
  languages <- get data "languages" JNone ;;;
  if negb (truthy languages) then Ret EmptyString
  else
    let lang_str :=
      "\section*{Languages}" +:+ LF +:+
      "\begin{itemize}[leftmargin=0.15in, topsep=0pt]" +:+ LF in
    languages <- getitem data "languages" ;;;
    items <- iter languages ;;;
    lang_str <- for_each items lang_str language_item ;;;
    Ret (lang_str +:+ "\end{itemize}" +:+ LF).

(** *** Vocabulary of the statements about the experience section *)

(** The experience entries of a profile: none when the key is absent or
    [None]. *)
Definition experience_list (data : json) : option (list json) :=
  match data with
  | JDict kvs =>
      match assoc "experience" kvs with
      | None | Some (JAtom SNone) => Some []
      | Some (JList entries) => Some entries
      | Some _ => None
      end
  | _ => None
  end.

(** What [build_experience_section] writes before and after the entries. *)
Definition experience_header : string :=
  "\section*{Professional Experience}" +:+ LF +:+
  "\begin{itemize}[leftmargin=0.15in, label={}]" +:+ LF.

Definition experience_footer : string := "\end{itemize}" +:+ LF +:+ LF.

(** The inner list of an entry, given the text of each item. *)
Definition accomplishments_block (items : list string) : string :=
  match items with
  | [] => EmptyString
  | _ =>
      "    \begin{itemize}[leftmargin=0.2in, topsep=0pt, itemsep=-2pt]" +:+ LF +:+
      Str.join (map (fun i => "      \item \small{" +:+ i +:+ "}" +:+ LF) items) +:+
      "    \end{itemize}" +:+ LF
  end.

(** *** Vocabulary of the statements about the other sections *)

(** The list under [key], when the profile has one: none when the key
    is absent or [None]. *)
Definition section_list (key : string) (data : json) : option (list json) :=
  match data with
  | JDict kvs =>
      match assoc key kvs with
      | None | Some (JAtom SNone) => Some []
      | Some (JList entries) => Some entries
      | Some _ => None
      end
  | _ => None
  end.

(** The raw fields of an education entry, absent ones being empty. *)
Record education_row : Type := EducationRow {
  institution : string;
  education_dates : string;
  degree : string;
  education_location : string
}.

Definition education_fields (entry : json) (row : education_row) : Prop :=
  get entry "institution" (JStr "") = Ret (JStr (institution row)) /\
  get entry "dates" (JStr "") = Ret (JStr (education_dates row)) /\
  get entry "degree" (JStr "") = Ret (JStr (degree row)) /\
  get entry "location" (JStr "") = Ret (JStr (education_location row)).

Definition education_header : string :=
  "\section*{Education}" +:+ LF +:+
  "\begin{itemize}[leftmargin=0.15in, label={}]" +:+ LF.

Definition languages_header : string :=
  "\section*{Languages}" +:+ LF +:+
  "\begin{itemize}[leftmargin=0.15in, topsep=0pt]" +:+ LF.

(** One column of skills, given the text of each item. *)
Definition skills_block (width title : string) (items : list string) : string :=
  skills_column width title +:+
  Str.join (map (fun i => "            \item " +:+ i +:+ LF) items) +:+
  skills_column_end.

(** The value under [key] is absent or falsy. *)
Definition absent_or_falsy (key : string) (kvs : list (string * json)) : bool :=
  match assoc key kvs with
  | Some v => negb (truthy v)
  | None => true
  end.

(** The section builders, by the key of the profile each one reads. *)
Definition section_builders : list (string * (json -> result string)) :=
  [ ("summary", build_summary_section); ("experience", build_experience_section);
    ("education", build_education_section); ("skills", build_skills_section);
    ("languages", build_languages_section) ].

(** What [clean_skill] returns for the skill [skill]. *)
Definition cleaned_skill (skill : string) : string :=
  escape_all (Str.replace "\textbackslash{}\&" " & " skill).

(** The width of a column of skills, as a share of the text width. *)
Definition column_width (technical professional : list string) : string :=
  match technical, professional with
  | _ :: _, _ :: _ => "0.5"
  | _, _ => "1.0"
  end.

End Builders.

(** ** The file system and the console *)

Module Sys.

(** What the code prints, by kind, with the text the code puts into the
    message (the markup of the messages is not kept, and how the console
    lays a message out is not modelled). *)
Inductive message : Type :=
  | PdflatexNotFound
  | TexWriteError
  | PdfCreated (pdf_path : string)
  | CompilationError (log_path : string)
  | CompilerErrorOutput (stderr : string)
  | TemplateNotFound (template_path : string).

(** Regular files by path, the paths that cannot be written or removed,
    and the console output so far.  Directories and links are not
    modelled: [output] and [templates] exist, and distinct paths in
    normal form name distinct files. *)
Record world : Type := World {
  files : gmap string string;
  locked : gset string;
  console : list message
}.

(** [CONSOLE.print]: the message reaches the console.  The console reads
    what it prints as markup and raises [MarkupError] for a closing tag
    that closes nothing: this is the console for messages whose text
    holds no opening of a closing tag ([Str.markup_free]), and a
    statement about what is printed says so of the text printed. *)
Definition print (m : message) (w : world) : world :=
  World (files w) (locked w) (console w ++ [m]).

Definition set_files (fs : gmap string string) (w : world) : world :=
  World fs (locked w) (console w).

(** [os.path.exists(p)]. *)
Definition path_exists (p : string) (w : world) : bool :=
  bool_decide (is_Some (files w !! p)).

Definition starts_with_slash (p : string) : bool :=
  match p with
  | String "/"%char _ => true
  | _ => false
  end.

Fixpoint ends_with_slash (p : string) : bool :=
  match p with
  | EmptyString => false
  | String c EmptyString => bool_decide (c = "/"%char)
  | String _ p' => ends_with_slash p'
  end.

(** [os.path.join(a, b)] (POSIX). *)
Definition path_join (a b : string) : string :=
  if starts_with_slash b then b
  else if String.eqb a EmptyString || ends_with_slash a then a +:+ b
  else a +:+ "/" +:+ b.

(** [os.path.basename(p)]: what follows the last slash. *)
Fixpoint basename (p : string) : string :=
  match p with
  | EmptyString => EmptyString
  | String c p' =>
      if Str.contains "/" p then basename p' else p
  end.

(** The names between the slashes of a path. *)
Fixpoint components (p : string) : list string :=
  match p with
  | EmptyString => [EmptyString]
  | String c p' =>
      if Ascii.eqb c "/" then EmptyString :: components p'
      else
        match components p' with
        | name :: names => String c name :: names
        | [] => [String c EmptyString]
        end
  end.

(** A path from the working directory in normal form: no name of it is
    empty (so it neither starts nor ends with a slash), [.] or [..].
    Links apart, two such paths name the same file only when they are
    the same text. *)
Definition normal_path (p : string) : bool :=
  forallb (fun name =>
             negb (String.eqb name EmptyString || String.eqb name "." ||
                   String.eqb name ".."))
          (components p).

(** The bytes of [s] are the UTF-8 encoding of a text: [expected] holds
    the ranges of the bytes that the sequence begun has still to come. *)
Fixpoint utf8_valid_from (expected : list (nat * nat)) (s : string) : bool :=
  match s with
  | EmptyString => match expected with [] => true | _ => false end
  | String c s' =>
      let n := nat_of_ascii c in
      let continuation := (128, 191) in
      match expected with
      | (lo, hi) :: expected' =>
          (lo <=? n)%nat && (n <=? hi)%nat && utf8_valid_from expected' s'
      | [] =>
          if (n <=? 127)%nat then utf8_valid_from [] s'
          else if (n <? 194)%nat then false
          else if (n <=? 223)%nat then utf8_valid_from [continuation] s'
          else if (n =? 224)%nat then utf8_valid_from [(160, 191); continuation] s'
          else if (n =? 237)%nat then utf8_valid_from [(128, 159); continuation] s'
          else if (n <=? 239)%nat then utf8_valid_from [continuation; continuation] s'
          else if (n =? 240)%nat then
            utf8_valid_from [(144, 191); continuation; continuation] s'
          else if (n <=? 243)%nat then
            utf8_valid_from [continuation; continuation; continuation] s'
          else if (n =? 244)%nat then
            utf8_valid_from [(128, 143); continuation; continuation] s'
          else false
      end
  end.

Definition utf8_valid (s : string) : bool := utf8_valid_from [] s.

(** What reading in text mode makes of the line ends: a carriage return
    with its line feed, and a carriage return alone, become a line
    feed. *)
Definition universal_newlines (s : string) : string :=
  Str.replace Str.CR Str.LF (Str.replace (Str.CR +:+ Str.LF) Str.LF s).

(** [open(p, 'r', encoding='utf-8').read()] on a file that holds
    [content]: [UnicodeDecodeError] is a [ValueError]. *)
Definition read_text (content : string) : result string :=
  if utf8_valid content then Ret (universal_newlines content) else Raise ValueError.

(** [open(p, "w").write(text)]. *)
Definition write_file (p text : string) (w : world) : result unit * world :=
  if bool_decide (p ∈ locked w) then (Raise OSError, w)
  else (Ret (), set_files (<[p := text]> (files w)) w).

(** [os.remove(p)]. *)
Definition remove (p : string) (w : world) : result unit * world :=
  if bool_decide (p ∈ locked w) then (Raise OSError, w)
  else match files w !! p with
       | Some _ => (Ret (), set_files (delete p (files w)) w)
       | None => (Raise OSError, w)
       end.

(** [shutil.copy(src, dst)]: [SameFileError] and the errors of reading and
    writing are [OSError]s.  Whether two paths name the same file is
    modelled for paths in normal form, which do when they are the same
    text; another spelling of a path leaves the fragment. *)
Definition copy (src dst : string) (w : world) : result unit * world :=
  if negb (normal_path src && normal_path dst) then (Raise NotModelled, w)
  else
    match files w !! src with
    | None => (Raise OSError, w)
    | Some text =>
        if String.eqb src dst then (Raise OSError, w)
        else write_file dst text w
    end.

(** The typesetting tool as the code sees it: whether [shutil.which]
    finds it, and what one run with given arguments does to the files,
    with its exit status and what it writes to standard error. *)
Record toolchain : Type := Toolchain {
  which_pdflatex : bool;
  run_pdflatex : list string -> gmap string string -> Z * string * gmap string string
}.

End Sys.

(** ** Document compiler *)

Module Compiler.
Import Sys.

(** [subprocess.run(cmd_args, check=True, ...)]: [inl stderr] stands for
    [CalledProcessError]. *)
Definition subprocess_run (tc : toolchain) (cmd_args : list string) (w : world)
    : (string + unit) * world :=
  let '(status, stderr, fs) := run_pdflatex tc cmd_args (files w) in
  let w := set_files fs w in
  if Z.eqb status 0 then (inr (), w) else (inl stderr, w).

(** The body of the [finally] clause for one extension. *)
Definition cleanup_ext (output_dir filename_base : string) (w : world) (ext : string) : world :=
  let aux_file := path_join output_dir (filename_base +:+ ext) in
  if path_exists aux_file w then
    (* except OSError: pass *)
    snd (remove aux_file w)
  else w.

(** The [finally] clause. *)
Definition cleanup (output_dir filename_base : string) (w : world) : world :=
  foldl (cleanup_ext output_dir filename_base) w [".aux"; ".log"].

(** The spinner of [CONSOLE.status], shown while the tool runs, leaves no
    line on the console; its text holds [filename_base]. *)
Definition compile_latex_to_pdf (tc : toolchain) (latex_code filename_base : string)
    (w : world) : option string * world :=
  if negb (which_pdflatex tc) then (None, print PdflatexNotFound w)
  else
    let output_dir := "output" in
    let tex_filepath := path_join output_dir (filename_base +:+ ".tex") in
    match write_file tex_filepath latex_code w with
    | (Raise _, w) => (None, print TexWriteError w)
    | (Ret _, w) =>
        let cmd_args :=
          ["pdflatex"; "-interaction=nonstopmode"; "-output-directory"; output_dir;
           tex_filepath] in
        let '(outcome, w) :=
          match subprocess_run tc cmd_args w with
          | (inl stderr, w) => (inl stderr, w)
          | (inr _, w) => subprocess_run tc cmd_args w
          end in
        let '(returned, w) :=
          match outcome with
          | inr _ =>
              let pdf_path := path_join output_dir (filename_base +:+ ".pdf") in
              (Some (filename_base +:+ ".pdf"), print (PdfCreated pdf_path) w)
          | inl stderr =>
              let log_path := path_join output_dir (filename_base +:+ ".log") in
              let w := print (CompilationError log_path) w in
              let w :=
                if negb (String.eqb stderr EmptyString)
                then print (CompilerErrorOutput stderr) w else w in
              (None, w)
          end in
        (returned, cleanup output_dir filename_base w)
    end.

(** *** Vocabulary of the statements about compilation *)

(** The files of one compilation. *)
Definition tex_path (filename_base : string) : string :=
  path_join "output" (filename_base +:+ ".tex").
Definition aux_path (filename_base : string) : string :=
  path_join "output" (filename_base +:+ ".aux").
Definition log_path (filename_base : string) : string :=
  path_join "output" (filename_base +:+ ".log").
Definition pdflatex_args (filename_base : string) : list string :=
  ["pdflatex"; "-interaction=nonstopmode"; "-output-directory"; "output";
   tex_path filename_base].

(** A tool that is installed and fails, after writing its [.aux] and
    [.log] files. *)
Definition failing_pdflatex : toolchain :=
  Toolchain true (fun _ fs =>
    (1%Z, "! Undefined control sequence.",
     <["output/resume_Ada.log" := "This is pdfTeX"]>
       (<["output/resume_Ada.aux" := "\relax"]> fs))).

Definition pdf_path (filename_base : string) : string :=
  path_join "output" (filename_base +:+ ".pdf").

(** A tool that is installed and succeeds: each run writes the [.aux],
    [.log] and [.pdf] files of the document. *)
Definition working_pdflatex : toolchain :=
  Toolchain true (fun _ fs =>
    (0%Z, EmptyString,
     <["output/resume_Ada.pdf" := "%PDF-1.5"]>
       (<["output/resume_Ada.log" := "This is pdfTeX"]>
          (<["output/resume_Ada.aux" := "\relax"]> fs)))).

(** A tool whose first run succeeds and whose second run, which finds
    the [.aux] file of the first, fails. *)
Definition flaky_pdflatex : toolchain :=
  Toolchain true (fun _ fs =>
    match fs !! "output/resume_Ada.aux" with
    | None =>
        (0%Z, EmptyString,
         <["output/resume_Ada.pdf" := "%PDF-1.5"]>
           (<["output/resume_Ada.aux" := "\relax"]> fs))
    | Some _ => (1%Z, "! Emergency stop.", <["output/resume_Ada.log" := "This is pdfTeX"]> fs)
    end).

End Compiler.

(** ** Template renderer *)

Module Renderer.
Import Py Sys.

(** Computations that print, touch files and may raise. *)
Definition io (A : Type) : Type := world -> result A * world.

Definition io_bind {A B : Type} (m : io A) (k : A -> io B) : io B :=
  fun w =>
    match m w with
    | (Ret a, w') => k a w'
    | (Raise e, w') => (Raise e, w')
    end.

Definition io_ret {A : Type} (a : A) : io A := fun w => (Ret a, w).

(** A computation without effects, run in [io]. *)
Definition pure {A : Type} (r : result A) : io A := fun w => (r, w).

Notation "x <~ m ;;; k" := (io_bind m (fun x => k))
  (at level 100, m at next level, right associativity).

Definition ascii_lower (c : ascii) : ascii :=
  let n := nat_of_ascii c in
  if (65 <=? n)%nat && (n <=? 90)%nat then ascii_of_nat (n + 32) else c.

Definition is_ascii (c : ascii) : bool := (nat_of_ascii c <? 128)%nat.

Fixpoint all_chars (p : ascii -> bool) (s : string) : bool :=
  match s with
  | EmptyString => true
  | String c s' => p c && all_chars p s'
  end.

Fixpoint map_chars (f : ascii -> ascii) (s : string) : string :=
  match s with
  | EmptyString => EmptyString
  | String c s' => String (f c) (map_chars f s')
  end.

(** [s.lower()], for ASCII text; other text is outside the fragment. *)
Definition lower (s : string) : result string :=
  if all_chars is_ascii s then Ret (map_chars ascii_lower s) else Raise NotModelled.

(** *** [str.format] with keyword arguments [kw]

    The format string is read from left to right: doubled braces are
    literal braces, [{name}] is replaced by [kw[name]].  A replacement
    field with a conversion ([!]), a format spec ([:]), an attribute
    or an index, or with a non-ASCII name, is outside the
    fragment. *)
Inductive fstate : Type :=
  | FText
  | FOpen
  | FField (name : string)
  | FClose.

Definition field_special (c : ascii) : bool :=
  match c with
  | "."%char | "["%char | "!"%char | ":"%char => true
  | _ => negb (is_ascii c)
  end.

Definition is_digit (c : ascii) : bool :=
  let n := nat_of_ascii c in (48 <=? n)%nat && (n <=? 57)%nat.

Fixpoint decimal (acc : Z) (s : string) : Z :=
  match s with
  | EmptyString => acc
  | String c s' => decimal (10 * acc + Z.of_nat (nat_of_ascii c - 48))%Z s'
  end.

(** [PY_SSIZE_T_MAX] of a 64-bit build. *)
Definition PY_SSIZE_T_MAX : Z := (2 ^ 63 - 1)%Z.

(** The value of the field [name] when [format] has keyword arguments
    only: an empty or numeric name asks for a positional argument. *)
Definition field_value (kw : list (string * string)) (name : string) : result string :=
  if all_chars is_digit name then
    if (PY_SSIZE_T_MAX <? decimal 0 name)%Z then Raise ValueError else Raise IndexError
  else
    match assoc name kw with
    | Some v => Ret v
    | None => Raise (KeyError (SStr name))
    end.

Definition snoc (s : string) (c : ascii) : string := s +:+ String c EmptyString.

Fixpoint format_from (kw : list (string * string)) (st : fstate) (out : string)
    (t : string) : result string :=
  match t with
  | EmptyString =>
      match st with
      | FText => Ret out
      | _ => Raise ValueError
      end
  | String c t' =>
      match st with
      | FText =>
          if bool_decide (c = "{"%char) then format_from kw FOpen out t'
          else if bool_decide (c = "}"%char) then format_from kw FClose out t'
          else format_from kw FText (snoc out c) t'
      | FClose =>
          if bool_decide (c = "}"%char) then format_from kw FText (snoc out c) t'
          else Raise ValueError
      | FOpen =>
          if bool_decide (c = "{"%char) then format_from kw FText (snoc out c) t'
          else if bool_decide (c = "}"%char) then
            v <- field_value kw EmptyString ;;; format_from kw FText (out +:+ v) t'
          else if field_special c then Raise NotModelled
          else format_from kw (FField (String c EmptyString)) out t'
      | FField name =>
          if bool_decide (c = "}"%char) then
            v <- field_value kw name ;;; format_from kw FText (out +:+ v) t'
          else if bool_decide (c = "{"%char) then Raise ValueError
          else if field_special c then Raise NotModelled
          else format_from kw (FField (snoc name c)) out t'
      end
  end.

(** [template.format] applied to the keyword arguments [kw]. *)
Definition format (template : string) (kw : list (string * string)) : result string :=
  format_from kw FText EmptyString template.

(** [os.path.exists(v)]: an [int] would name a file descriptor. *)
Definition os_path_exists (v : json) (w : world) : result bool :=
  match v with
  | JAtom (SStr p) => Ret (path_exists p w)
  | JAtom SNone => Raise TypeError
  | JAtom _ => Raise NotModelled
  | _ => Raise TypeError
  end.

Definition build_photo_block (data : json) : io string :=
  contact <~ pure (get data "contact" (JDict [])) ;;;
  photo_path <~ pure (get contact "photo_path" JNone) ;;;
  if negb (truthy photo_path) then io_ret EmptyString
  else
    found <~ (fun w => (os_path_exists photo_path w, w)) ;;;
    if negb found then io_ret EmptyString
    else
      match photo_path with
      | JAtom (SStr photo_path) =>
          let photo_filename := basename photo_path in
          let dest_path := path_join "output" photo_filename in
          _ <~ copy photo_path dest_path ;;;
          let safe_path := Str.replace "\" "/" photo_filename in
          io_ret ("\includegraphics[width=0.8\textwidth]{" +:+ safe_path +:+ "}")
      | _ => pure (Raise TypeError)
      end.

(** The dict [placeholders] of [generate_resume_latex], its values
    computed in source order. *)
Definition resume_placeholders (data contact : json) : io (list (string * string)) :=
  let field (k : string) : io string :=
    pure (v <- get contact k (JStr "") ;;; Sanitizer.sanitize_for_latex v) in
  linkedin <~ pure (get contact "linkedin" (JStr "")) ;;;
  linkedin_display <~ pure (Builders.str_replace linkedin "https://www." "") ;;;
  let linkedin_display := Str.replace "http://www." "" linkedin_display in
  full_name <~ field "full_name" ;;;
  email <~ field "email" ;;;
  phone <~ field "phone" ;;;
  linkedin <~ field "linkedin" ;;;
  display <~ pure (Sanitizer.sanitize_for_latex (JStr linkedin_display)) ;;;
  summary <~ pure (Builders.build_summary_section data) ;;;
  experience <~ pure (Builders.build_experience_section data) ;;;
  education <~ pure (Builders.build_education_section data) ;;;
  skills <~ pure (Builders.build_skills_section data) ;;;
  languages <~ pure (Builders.build_languages_section data) ;;;
  photo <~ build_photo_block data ;;;
  io_ret
    [ ("FULL_NAME", full_name); ("EMAIL", email); ("PHONE", phone);
      ("LINKEDIN", linkedin); ("LINKEDIN_DISPLAY", display);
      ("SUMMARY_SECTION", summary); ("EXPERIENCE_SECTION", experience);
      ("EDUCATION_SECTION", education); ("SKILLS_SECTION", skills);
      ("LANGUAGES_SECTION", languages); ("PHOTO_BLOCK", photo) ].

(** [generate_resume_latex(data, template_name)]: [None] when the
    template is missing.  The template is formatted as the file holds
    it: this is the function for template files that reading in text
    mode gives as they are stored ([read_text]). *)
Definition generate_resume_latex (data : json) (template_name : string)
    : io (option string) :=
  lowered <~ pure (lower template_name) ;;;
  let template_path :=
    path_join "templates" (Str.replace " " "_" lowered +:+ ".tex") in
  fun w =>
    match files w !! template_path with
    | None => (Ret None, print (TemplateNotFound template_path) w)
    | Some template_string =>
        (contact <~ pure (get data "contact" (JDict [])) ;;;
         placeholders <~ resume_placeholders data contact ;;;
         out <~ pure (format template_string placeholders) ;;;
         io_ret (Some out)) w
    end.

(** The dict [placeholders] of [generate_cover_letter_latex].  The body
    is put in as it is; a body that is not a [str] is outside the
    fragment. *)
Definition cover_letter_placeholders (contact cl_data : json)
    : result (list (string * string)) :=
  let field (d : json) (k dflt : string) : result string :=
    v <- get d k (JStr dflt) ;;; Sanitizer.sanitize_for_latex v in
  full_name <- field contact "full_name" "" ;;;
  email <- field contact "email" "" ;;;
  phone <- field contact "phone" "" ;;;
  linkedin <- field contact "linkedin" "" ;;;
  hiring_manager <- field cl_data "hiring_manager" "Hiring Team" ;;;
  company <- field cl_data "company" "" ;;;
  company_address <- field cl_data "company_address" "" ;;;
  job_title <- field cl_data "job_title" "" ;;;
  body <- get cl_data "body" (JStr "") ;;;
  body <- match body with
          | JAtom (SStr s) => Ret s
          | _ => Raise NotModelled
          end ;;;
  Ret [ ("FULL_NAME", full_name); ("EMAIL", email); ("PHONE", phone);
        ("LINKEDIN", linkedin); ("HIRING_MANAGER", hiring_manager);
        ("COMPANY", company); ("COMPANY_ADDRESS", company_address);
        ("JOB_TITLE", job_title); ("BODY", body) ].

(** [generate_cover_letter_latex(resume_data, cl_data)]: [None] when the
    template is missing (the message is of the kind [TemplateNotFound],
    with other words). *)
Definition generate_cover_letter_latex (resume_data cl_data : json)
    : io (option string) :=
  let template_path := path_join "templates" "cover_letter.tex" in
  fun w =>
    match files w !! template_path with
    | None => (Ret None, print (TemplateNotFound template_path) w)
    | Some content =>
        (template_string <~ pure (read_text content) ;;;
         contact <~ pure (get resume_data "contact" (JDict [])) ;;;
         placeholders <~ pure (cover_letter_placeholders contact cl_data) ;;;
         out <~ pure (format template_string placeholders) ;;;
         io_ret (Some out)) w
    end.

(** *** Vocabulary of the statements about templates *)

(** A field name made of characters that neither end the field nor ask
    for a conversion, a format spec, an attribute or an index, and that
    is not a number. *)
Definition plain_char (c : ascii) : bool :=
  negb (bool_decide (c = "{"%char)) && negb (bool_decide (c = "}"%char)) &&
  negb (field_special c).

Definition plain_name (name : string) : bool :=
  all_chars plain_char name && negb (all_chars is_digit name).


(** A small profile for the examples. *)
Definition sample_profile : json :=
  JDict [("contact", JDict [("full_name", JStr "Ada Lovelace")]);
         ("summary", JStr "Analyst & engineer")].

(** *** Vocabulary of the statements about rendering *)

(** A template read as its pieces: literal text without braces, a
    replacement field, and the doubled braces that stand for one. *)
Inductive piece : Type :=
  | Text (s : string)
  | Field (name : string)
  | OpenBrace
  | CloseBrace.

Definition piece_source (p : piece) : string :=
  match p with
  | Text s => s
  | Field name => "{" +:+ name +:+ "}"
  | OpenBrace => "{{"
  | CloseBrace => "}}"
  end.

(** The template text that the pieces [ps] make up. *)
Definition template_source (ps : list piece) : string :=
  Str.join (map piece_source ps).

Definition brace_free (s : string) : bool :=
  all_chars (fun c => negb (bool_decide (c = "{"%char)) && negb (bool_decide (c = "}"%char))) s.

Definition well_formed (p : piece) : bool :=
  match p with
  | Text s => brace_free s
  | Field name => plain_name name
  | OpenBrace | CloseBrace => true
  end.

(** What the pieces stand for under the mapping [kw]: the value of a
    field is put in as it is. *)
Definition render_piece (kw : list (string * string)) (p : piece) : result string :=
  match p with
  | Text s => Ret s
  | Field name =>
      match assoc name kw with
      | Some v => Ret v
      | None => Raise (KeyError (SStr name))
      end
  | OpenBrace => Ret "{"
  | CloseBrace => Ret "}"
  end.

Fixpoint render (kw : list (string * string)) (ps : list piece) : result string :=
  match ps with
  | [] => Ret EmptyString
  | p :: ps' => a <- render_piece kw p ;;; b <- render kw ps' ;;; Ret (a +:+ b)
  end.

(** The text under [key] in the items [kvs], [dflt] when there is none. *)
Definition text_field (kvs : list (string * json)) (key dflt : string) : option string :=
  match assoc key kvs with
  | None => Some dflt
  | Some (JAtom (SStr s)) => Some s
  | Some _ => None
  end.

(** Where [build_photo_block] copies the photo. *)
Definition photo_dest (photo_path : string) : string :=
  path_join "output" (basename photo_path).

(** The values of the placeholders of a cover letter whose fields are
    texts: each one sanitized, but for the body. *)
Definition cover_letter_mapping (contact cl_data : list (string * json))
    : option (list (string * string)) :=
  full_name ← text_field contact "full_name" "";
  email ← text_field contact "email" "";
  phone ← text_field contact "phone" "";
  linkedin ← text_field contact "linkedin" "";
  hiring_manager ← text_field cl_data "hiring_manager" "Hiring Team";
  company ← text_field cl_data "company" "";
  company_address ← text_field cl_data "company_address" "";
  job_title ← text_field cl_data "job_title" "";
  body ← text_field cl_data "body" "";
  Some [ ("FULL_NAME", Sanitizer.escape_all full_name);
         ("EMAIL", Sanitizer.escape_all email);
         ("PHONE", Sanitizer.escape_all phone);
         ("LINKEDIN", Sanitizer.escape_all linkedin);
         ("HIRING_MANAGER", Sanitizer.escape_all hiring_manager);
         ("COMPANY", Sanitizer.escape_all company);
         ("COMPANY_ADDRESS", Sanitizer.escape_all company_address);
         ("JOB_TITLE", Sanitizer.escape_all job_title);
         ("BODY", body) ].

(** A cover letter for the examples. *)
Definition sample_letter : json :=
  JDict [("company", JStr "Babbage & Sons"); ("job_title", JStr "Analyst");
         ("body", JStr "I admire your R\&D work.")].

End Renderer.

(** ** AI edit applier *)

Module Applier.

(** *** Mutable Python objects

    Lists and dicts are objects in a store, named by their address; a
    value is an immutable scalar or a reference to an object.  Two
    references to one address are two names of the same list or dict:
    a write through one is seen through the other. *)
Abbreviation loc := nat.

Inductive val : Type :=
  | VAtom (a : scalar)
  | VRef (l : loc).

(** A dict is its items in insertion order, keys distinct. *)
Inductive obj : Type :=
  | OList (xs : list val)
  | ODict (kvs : list (string * val)).

(** One suggested edit, as [json.loads] gives it: a dict from keys to
    scalars, which [apply_ai_edits] only reads. *)
Definition edit : Type := list (string * scalar).

(** What [apply_ai_edits] prints. *)
Inductive notice : Type :=
  | UpdatedSummary
  | UpdatedAccomplishment (job : Z)
  | CouldNotApply (e : edit).

Record state : Type := State {
  heap : list obj;
  console : list notice
}.

(** A run ends with a value, with an exception, or is [Stuck]: a
    reference to no object, or a recursion that ran out of fuel.  Neither
    happens on a well-formed store (see [deepcopy_returns]). *)
Inductive outcome (A : Type) : Type :=
  | Ok (a : A) (s : state)
  | Exc (e : exn) (s : state)
  | Stuck.
Arguments Ok {A} a s.
Arguments Exc {A} e s.
Arguments Stuck {A}.

Definition M (A : Type) : Type := state -> outcome A.

Definition ret {A : Type} (a : A) : M A := fun s => Ok a s.

Definition raise {A : Type} (e : exn) : M A := fun s => Exc e s.

Definition stuck {A : Type} : M A := fun _ => Stuck.

Definition mbind {A B : Type} (m : M A) (k : A -> M B) : M B :=
  fun s =>
    match m s with
    | Ok a s' => k a s'
    | Exc e s' => Exc e s'
    | Stuck => Stuck
    end.

Notation "x <~ m ;;; k" := (mbind m (fun x => k))
  (at level 100, m at next level, right associativity).

(** A computation without effects, run in [M]. *)
Definition lift {A : Type} (r : result A) : M A :=
  match r with
  | Ret a => ret a
  | Raise e => raise e
  end.

Definition read (l : loc) : M obj :=
  fun s =>
    match heap s !! l with
    | Some o => Ok o s
    | None => Stuck
    end.

Definition write (l : loc) (o : obj) : M unit :=
  fun s => Ok () (State (<[l := o]> (heap s)) (console s)).

(** A new object gets the next free address. *)
Definition alloc (o : obj) : M loc :=
  fun s => Ok (length (heap s)) (State (heap s ++ [o]) (console s)).

(** The text of the edit holds no closing tag of the console's markup:
    no key and no text value of it has one.  The [could not apply]
    message shows the edit as [repr] writes it, which neither adds nor
    removes a bracket or a slash. *)
Definition markup_safe (e : edit) : bool :=
  forallb (fun kv => Str.markup_free (fst kv) &&
                     match snd kv with
                     | SStr text => Str.markup_free text
                     | _ => true
                     end) e.

(** The notices whose text the console renders without an error: the two
    [updated] notices hold only a number; the [could not apply] notice
    holds the edit, inside the [yellow] tag of the message. *)
Definition printable (n : notice) : bool :=
  match n with
  | CouldNotApply e => markup_safe e
  | _ => true
  end.

(** [CONSOLE.print]: the notice reaches the console.  The console reads
    what it prints as markup, and raises [MarkupError] for a closing tag
    that closes nothing; what it does with an edit that holds the opening
    of a closing tag is not modelled. *)
Definition print (n : notice) : M unit :=
  fun s =>
    if printable n then Ok () (State (heap s) (console s ++ [n]))
    else Exc NotModelled s.

(** [try: m / except (KeyError, IndexError): handler]. *)
Definition try_except {A : Type} (m : M A) (handler : M A) : M A :=
  fun s =>
    match m s with
    | Exc (KeyError _) s' => handler s'
    | Exc IndexError s' => handler s'
    | r => r
    end.

(** A [for] loop over [xs] that updates one local variable. *)
Fixpoint for_each {A S : Type} (xs : list A) (acc : S) (body : S -> A -> M S) : M S :=
  match xs with
  | [] => ret acc
  | x :: xs' => acc' <~ body acc x ;;; for_each xs' acc' body
  end.

(** [d[k] = v] on the items of a dict: an old key keeps its place. *)
Fixpoint dict_set (k : string) (v : val) (kvs : list (string * val)) : list (string * val) :=
  match kvs with
  | [] => [(k, v)]
  | (k', v') :: kvs' =>
      if String.eqb k' k then (k, v) :: kvs' else (k', v') :: dict_set k v kvs'
  end.

(** *** [copy.deepcopy]

    As the [copy] module does it: a scalar is returned as it is; a list
    or dict already in [memo] gives its copy there; otherwise a new empty
    object is allocated and recorded in [memo] before the elements are
    copied into it one by one, so that sharing and cycles are kept. *)
Fixpoint deepcopy (fuel : nat) (x : val) (memo : gmap loc loc) : M (val * gmap loc loc) :=
  match fuel with
  | O => stuck
  | S fuel' =>
      match x with
      | VAtom _ => ret (x, memo)
      | VRef l =>
          match memo !! l with
          | Some y => ret (VRef y, memo)
          | None =>
              o <~ read l ;;;
              match o with
              | OList xs =>
                  y <~ alloc (OList []) ;;;
                  memo <~
                    for_each xs (<[l := y]> memo) (fun memo a =>
                      r <~ deepcopy fuel' a memo ;;;
                      let '(a', memo) := r in
                      o <~ read y ;;;
                      match o with
                      | OList ys => _ <~ write y (OList (ys ++ [a'])) ;;; ret memo
                      | ODict _ => stuck
                      end) ;;;
                  ret (VRef y, memo)
              | ODict kvs =>
                  y <~ alloc (ODict []) ;;;
                  memo <~
                    for_each kvs (<[l := y]> memo) (fun memo kv =>
                      r <~ deepcopy fuel' (snd kv) memo ;;;
                      let '(v', memo) := r in
                      o <~ read y ;;;
                      match o with
                      | ODict items => _ <~ write y (ODict (dict_set (fst kv) v' items)) ;;; ret memo
                      | OList _ => stuck
                      end) ;;;
                  ret (VRef y, memo)
              end
          end
      end
  end.

(** *** The operations [apply_ai_edits] uses *)

(** [edit[k]]. *)
Definition edit_get (e : edit) (k : string) : M scalar :=
  match Py.assoc k e with
  | Some a => ret a
  | None => raise (KeyError (SStr k))
  end.

(** [a == b] on scalars: [bool] is a kind of [int]. *)
Definition scalar_eq (a b : scalar) : bool :=
  match a, b with
  | SNone, SNone => true
  | SBool x, SBool y => Bool.eqb x y
  | SBool x, SInt z | SInt z, SBool x => Z.eqb z (if x then 1 else 0)
  | SInt x, SInt y => Z.eqb x y
  | SStr x, SStr y => String.eqb x y
  | _, _ => false
  end.

(** [v == a]: a list or a dict equals no scalar. *)
Definition val_eq (v : val) (a : scalar) : bool :=
  match v with
  | VAtom b => scalar_eq b a
  | VRef _ => false
  end.

(** The integer an index stands for, if it is one. *)
Definition as_index (k : scalar) : option Z :=
  match k with
  | SInt z => Some z
  | SBool b => Some (if b then 1 else 0)%Z
  | _ => None
  end.

(** The position [k] names in a sequence of length [n]: a negative
    index counts from the end. *)
Definition sequence_index (n : nat) (k : scalar) : result nat :=
  match as_index k with
  | None => Raise TypeError
  | Some i =>
      let j := (if i <? 0 then i + Z.of_nat n else i)%Z in
      if (0 <=? j)%Z && (j <? Z.of_nat n)%Z then Ret (Z.to_nat j) else Raise IndexError
  end.

(** [v[k]]. *)
Definition subscript (v : val) (k : scalar) : M val :=
  match v with
  | VRef l =>
      o <~ read l ;;;
      match o with
      | OList xs =>
          i <~ lift (sequence_index (length xs) k) ;;;
          match xs !! i with
          | Some x => ret x
          | None => raise IndexError
          end
      | ODict kvs =>
          match k with
          | SStr key =>
              match Py.assoc key kvs with
              | Some x => ret x
              | None => raise (KeyError k)
              end
          | _ => raise (KeyError k)
          end
      end
  | VAtom (SStr s) =>
      let characters := Py.code_points s in
      i <~ lift (sequence_index (length characters) k) ;;;
      match characters !! i with
      | Some c => ret (VAtom (SStr c))
      | None => raise IndexError
      end
  | VAtom _ => raise TypeError
  end.

(** [v.get(k, dflt)]: only a dict has [get]. *)
Definition get (v : val) (k : string) (dflt : val) : M val :=
  match v with
  | VRef l =>
      o <~ read l ;;;
      match o with
      | ODict kvs => ret (match Py.assoc k kvs with Some x => x | None => dflt end)
      | OList _ => raise AttributeError
      end
  | VAtom _ => raise AttributeError
  end.

(** [v[k] = x] for a string key [k]. *)
Definition setitem_key (v : val) (k : string) (x : val) : M unit :=
  match v with
  | VRef l =>
      o <~ read l ;;;
      match o with
      | ODict kvs => write l (ODict (dict_set k x kvs))
      | OList _ => raise TypeError
      end
  | VAtom _ => raise TypeError
  end.

(** [a in v]. *)
Definition contains (v : val) (a : scalar) : M bool :=
  match v with
  | VRef l =>
      o <~ read l ;;;
      match o with
      | OList xs => ret (existsb (fun x => val_eq x a) xs)
      | ODict kvs =>
          match a with
          | SStr key => ret (bool_decide (is_Some (Py.assoc key kvs)))
          | _ => ret false
          end
      end
  | VAtom (SStr s) =>
      match a with
      | SStr sub => ret (Str.contains sub s)
      | _ => raise TypeError
      end
  | VAtom _ => raise TypeError
  end.

(** The first position of [xs] that holds a value equal to [a]. *)
Fixpoint first_index (xs : list val) (a : scalar) : option nat :=
  match xs with
  | [] => None
  | x :: xs' => if val_eq x a then Some O else S <$> first_index xs' a
  end.

(** [v[v.index(a)] = x], the target evaluated as Python does: first
    [v.index(a)], then the store.  A [str] has [index] and no item
    assignment; a dict has no [index]. *)
Definition replace_first (v : val) (a : scalar) (x : val) : M unit :=
  match v with
  | VRef l =>
      o <~ read l ;;;
      match o with
      | OList xs =>
          match first_index xs a with
          | Some i => write l (OList (<[i := x]> xs))
          | None => raise ValueError
          end
      | ODict _ => raise AttributeError
      end
  | VAtom (SStr s) =>
      match a with
      | SStr sub => if Str.contains sub s then raise TypeError else raise ValueError
      | _ => raise TypeError
      end
  | VAtom _ => raise AttributeError
  end.

(** [k + 1]. *)
Definition plus_one (k : scalar) : M Z :=
  match as_index k with
  | Some i => ret (i + 1)%Z
  | None => raise TypeError
  end.

(** *** [apply_ai_edits] *)

(** The body of the [try] statement, for one [edit]. *)
Definition apply_edit (editable_resume : val) (edit : edit) : M unit :=
  section <~ edit_get edit "section" ;;;
  if scalar_eq section (SStr "summary") then
    summary <~ get editable_resume "summary" (VAtom (SStr "")) ;;;
    original_text <~ edit_get edit "original_text" ;;;
    if val_eq summary original_text then
      suggested_text <~ edit_get edit "suggested_text" ;;;
      _ <~ setitem_key editable_resume "summary" (VAtom suggested_text) ;;;
      print UpdatedSummary
    else ret ()
  else if scalar_eq section (SStr "experience") then
    experience <~ subscript editable_resume (SStr "experience") ;;;
    entry_index <~ edit_get edit "entry_index" ;;;
    entry <~ subscript experience entry_index ;;;
    accomplishments <~ subscript entry (SStr "accomplishments") ;;;
    original_text <~ edit_get edit "original_text" ;;;
    found <~ contains accomplishments original_text ;;;
    if found then
      suggested_text <~ edit_get edit "suggested_text" ;;;
      original_text <~ edit_get edit "original_text" ;;;
      _ <~ replace_first accomplishments original_text (VAtom suggested_text) ;;;
      entry_index <~ edit_get edit "entry_index" ;;;
      job <~ plus_one entry_index ;;;
      print (UpdatedAccomplishment job)
    else ret ()
  else ret ().

(** The [for] loop: an edit that raises [KeyError] or [IndexError] is
    reported and the loop goes on. *)
Fixpoint apply_edits (editable_resume : val) (edits : list edit) : M unit :=
  match edits with
  | [] => ret ()
  | edit :: rest =>
      _ <~ try_except (apply_edit editable_resume edit) (print (CouldNotApply edit)) ;;;
      apply_edits editable_resume rest
  end.

Definition apply_ai_edits (resume_data : val) (edits : list edit) : M val :=
  fun s =>
    (r <~ deepcopy (S (length (heap s))) resume_data ∅ ;;;
     let editable_resume := fst r in
     _ <~ apply_edits editable_resume edits ;;;
     ret editable_resume) s.

(** *** Vocabulary of the statements about [apply_ai_edits] *)

(** The references of [v] name objects below address [n]. *)
Definition val_ok (n : nat) (v : val) : bool :=
  match v with
  | VAtom _ => true
  | VRef l => (l <? n)%nat
  end.

Definition obj_ok (n : nat) (o : obj) : bool :=
  match o with
  | OList xs => forallb (val_ok n) xs
  | ODict kvs =>
      forallb (fun kv => val_ok n (snd kv)) kvs && bool_decide (NoDup (map fst kvs))
  end.

(** A well-formed store: every reference names an object of the store,
    and the keys of a dict are distinct. *)
Definition heap_wf (h : list obj) : bool := forallb (obj_ok (length h)) h.

(** The copy of [v] under [memo]. *)
Definition rename (memo : gmap loc loc) (v : val) : val :=
  match v with
  | VAtom _ => v
  | VRef l =>
      match memo !! l with
      | Some y => VRef y
      | None => v
      end
  end.

Definition rename_obj (memo : gmap loc loc) (o : obj) : obj :=
  match o with
  | OList xs => OList (map (rename memo) xs)
  | ODict kvs => ODict (map (fun kv => (fst kv, rename memo (snd kv))) kvs)
  end.

(** The JSON tree a value stands for, when it is one: [None] on a
    cycle deeper than [fuel]. *)
Fixpoint reify (fuel : nat) (h : list obj) (v : val) : option Py.json :=
  match v with
  | VAtom a => Some (Py.JAtom a)
  | VRef l =>
      match fuel with
      | O => None
      | S fuel' =>
          match h !! l with
          | Some (OList xs) => Py.JList <$> mapM (reify fuel' h) xs
          | Some (ODict kvs) =>
              Py.JDict <$> mapM (fun kv => pair (fst kv) <$> reify fuel' h (snd kv)) kvs
          | None => None
          end
      end
  end.

Definition covered (m : gmap loc loc) (v : val) : Prop :=
  match v with
  | VAtom _ => True
  | VRef l => is_Some (m !! l)
  end.

Definition obj_covered (m : gmap loc loc) (o : obj) : Prop :=
  match o with
  | OList xs => Forall (covered m) xs
  | ODict kvs => Forall (fun kv => covered m (snd kv)) kvs
  end.

(** Values of the copy: scalars and references to new objects. *)
Definition val_new (n0 n : nat) (v : val) : Prop :=
  match v with
  | VAtom _ => True
  | VRef l => n0 <= l < n
  end.

Definition obj_new (n0 n : nat) (o : obj) : Prop :=
  match o with
  | OList xs => Forall (val_new n0 n) xs
  | ODict kvs => Forall (fun kv => val_new n0 n (snd kv)) kvs
  end.

Section copy_of.
Variable h0 : list obj.
Local Abbreviation N0 := (length h0).

(** What holds of the memo and the store all along a copy of [h0]: the
    old objects are as they were, the memo maps old objects to new ones,
    and new objects refer to new objects only. *)
Record inv (m : gmap loc loc) (h : list obj) : Prop := {
  inv_old : forall l, l < N0 -> h !! l = h0 !! l;
  inv_len : N0 <= length h;
  inv_src : forall l y, m !! l = Some y -> l < N0;
  inv_tgt : forall l y, m !! l = Some y -> N0 <= y < length h;
  inv_new : forall l o, N0 <= l -> h !! l = Some o -> obj_new N0 (length h) o
}.

(** The object at [y] is the finished copy of the object at [l]. *)
Definition copied (m : gmap loc loc) (h : list obj) (l y : loc) : Prop :=
  exists o, h0 !! l = Some o /\ obj_covered m o /\ h !! y = Some (rename_obj m o).

Record post (m : gmap loc loc) (h : list obj) (x x' : val)
    (m' : gmap loc loc) (h' : list obj) : Prop := {
  post_inv : inv m' h';
  post_memo : m ⊆ m';
  post_len : length h <= length h';
  post_keep : forall l, l < length h -> h' !! l = h !! l;
  post_val : x' = rename m' x;
  post_cov : covered m' x;
  post_fresh : forall l y, m' !! l = Some y -> m !! l = None ->
                 length h <= y /\ copied m' h' l y
}.

Definition deepcopy_ok (f : nat) : Prop :=
  forall x m h c,
    val_ok N0 x = true -> inv m h -> N0 < f + size m ->
    exists x' m' h',
      deepcopy f x m (State h c) = Ok (x', m') (State h' c) /\
      post m h x x' m' h'.

End copy_of.

(** [m] started in a store that satisfies [I] does not get stuck and
    ends, with a value that satisfies [P] or with an exception, in a
    store that satisfies [I].  The console plays no part. *)
Definition keeps {A : Type} (I : list obj -> Prop) (m : M A) (P : A -> Prop) : Prop :=
  forall h c, I h ->
    match m (State h c) with
    | Ok a s' => I (heap s') /\ P a
    | Exc _ s' => I (heap s')
    | Stuck => False
    end.

(** During the loop: the invariant of the copy, and no allocation. *)
Definition framed (h0 : list obj) (memo : gmap loc loc) (n : nat) (h : list obj) : Prop :=
  inv h0 memo h /\ length h = n.

(** A value of the copy: a scalar or an object allocated by the call. *)
Definition fresh_from (n : nat) (v : val) : Prop :=
  match v with
  | VAtom _ => True
  | VRef l => n <= l
  end.

(** [v[k]] when [v] is a dict that has the key [k]. *)
Definition field (h : list obj) (v : val) (k : string) : option val :=
  match v with
  | VRef l =>
      match h !! l with
      | Some (ODict kvs) => Py.assoc k kvs
      | _ => None
      end
  | VAtom _ => None
  end.

(** The elements of [v] when [v] is a list. *)
Definition elements (h : list obj) (v : val) : option (list val) :=
  match v with
  | VRef l =>
      match h !! l with
      | Some (OList xs) => Some xs
      | _ => None
      end
  | VAtom _ => None
  end.

(** The summary an edit is compared with: the empty string when the
    profile has none. *)
Definition current_summary (h : list obj) (profile : val) : option val :=
  match profile with
  | VRef l =>
      match h !! l with
      | Some (ODict kvs) =>
          Some (match Py.assoc "summary" kvs with
                | Some x => x
                | None => VAtom (SStr "")
                end)
      | _ => None
      end
  | VAtom _ => None
  end.

Definition is_atom (v : val) : bool :=
  match v with
  | VAtom _ => true
  | VRef _ => false
  end.

(** The accomplishments of an entry are a list of scalars. *)
Definition accomplishments_ok (h : list obj) (v : val) : bool :=
  match elements h v with
  | Some accs => forallb is_atom accs
  | None => false
  end.

(** An experience entry is a dict; its accomplishments, if it has the
    key, are a list of scalars. *)
Definition entry_ok (h : list obj) (v : val) : bool :=
  match v with
  | VRef l =>
      match h !! l with
      | Some (ODict kvs) =>
          match Py.assoc "accomplishments" kvs with
          | Some a => accomplishments_ok h a
          | None => true
          end
      | _ => false
      end
  | VAtom _ => false
  end.

(** A profile as the data model has it, as far as [apply_ai_edits]
    reads it: a dict whose experience, if it has the key, is a list of
    entries. *)
Definition profile_shape (h : list obj) (profile : val) : bool :=
  match profile with
  | VRef l =>
      match h !! l with
      | Some (ODict kvs) =>
          match Py.assoc "experience" kvs with
          | Some experience =>
              match elements h experience with
              | Some entries => forallb (entry_ok h) entries
              | None => false
              end
          | None => true
          end
      | _ => false
      end
  | VAtom _ => false
  end.

(** The number of experience entries of a profile. *)
Definition experience_length (h : list obj) (profile : val) : nat :=
  match field h profile "experience" with
  | Some experience =>
      match elements h experience with
      | Some entries => length entries
      | None => O
      end
  | None => O
  end.

(** The accomplishments of the entry that the index [k] names. *)
Definition targeted_accomplishments (h : list obj) (profile : val) (k : scalar)
    : option (list val) :=
  experience ← field h profile "experience";
  entries ← elements h experience;
  match sequence_index (length entries) k with
  | Ret j =>
      entry ← entries !! j;
      accomplishments ← field h entry "accomplishments";
      elements h accomplishments
  | Raise _ => None
  end.

(** The [original_text] of the edit is the current summary (a summary
    edit) or one of the accomplishments of the entry the edit names (an
    experience edit). *)
Definition matches (h : list obj) (profile : val) (e : edit) : bool :=
  match Py.assoc "section" e, Py.assoc "original_text" e with
  | Some section, Some original_text =>
      if scalar_eq section (SStr "summary") then
        match current_summary h profile with
        | Some summary => val_eq summary original_text
        | None => false
        end
      else if scalar_eq section (SStr "experience") then
        match Py.assoc "entry_index" e with
        | Some k =>
            match targeted_accomplishments h profile k with
            | Some accs => existsb (fun x => val_eq x original_text) accs
            | None => false
            end
        | None => false
        end
      else false
  | _, _ => false
  end.

(** The [entry_index] of an experience edit, if present, is an integer. *)
Definition index_typed (e : edit) : bool :=
  match Py.assoc "section" e, Py.assoc "entry_index" e with
  | Some section, Some k =>
      if scalar_eq section (SStr "experience") then bool_decide (is_Some (as_index k))
      else true
  | _, _ => true
  end.

Definition missing (e : edit) (k : string) : bool :=
  bool_decide (Py.assoc k e = None).

(** The index [i] is out of range for a list of [n] elements. *)
Definition out_of_range (n : nat) (i : Z) : bool :=
  (i <? - Z.of_nat n)%Z || (Z.of_nat n <=? i)%Z.

(** The edits that the specification says are skipped: another section,
    an [entry_index] out of range for the experience list of the
    profile, a missing key. *)
Definition malformed (h : list obj) (profile : val) (e : edit) : bool :=
  match Py.assoc "section" e with
  | None => true
  | Some section =>
      if scalar_eq section (SStr "summary") then
        missing e "original_text" || missing e "suggested_text"
      else if scalar_eq section (SStr "experience") then
        match Py.assoc "entry_index" e with
        | None => true
        | Some k =>
            match as_index k with
            | Some i =>
                out_of_range (experience_length h profile) i ||
                missing e "original_text" || missing e "suggested_text"
            | None => false
            end
        end
      else true
  end.

(** What a caller sees of a run: how it ended and the store, not the
    console. *)
Definition observe {A : Type} (r : outcome A) : option (result A * list obj) :=
  match r with
  | Ok a s => Some (Ret a, heap s)
  | Exc e s => Some (Raise e, heap s)
  | Stuck => None
  end.

(** The run changed nothing and ended well or with an exception that
    the [try] statement catches. *)
Definition quiet (h : list obj) (r : outcome unit) : Prop :=
  match r with
  | Ok _ s' | Exc (KeyError _) s' | Exc IndexError s' => heap s' = h
  | _ => False
  end.

(** An element of a list is as before, or a scalar put in the place of
    a scalar. *)
Definition text_changed (x y : val) : Prop :=
  x = y \/ (is_atom x = true /\ is_atom y = true).

(** A list keeps its length and its references; a dict keeps every key
    but the summary. *)
Definition obj_texts_changed (o o' : obj) : Prop :=
  match o, o' with
  | OList xs, OList ys => Forall2 text_changed xs ys
  | ODict kvs, ODict kvs' =>
      forall k, k <> "summary" -> Py.assoc k kvs' = Py.assoc k kvs
  | _, _ => False
  end.

Definition texts_changed (h h' : list obj) : Prop :=
  length h' = length h /\
  forall l o, h !! l = Some o -> exists o', h' !! l = Some o' /\ obj_texts_changed o o'.

(** Whatever [m] does, it changes texts only. *)
Definition evolves {A : Type} (m : M A) : Prop :=
  forall h c,
    match m (State h c) with
    | Ok _ s' | Exc _ s' => texts_changed h (heap s')
    | Stuck => True
    end.

(** A computation that leaves the store as it is. *)
Definition reads {A : Type} (m : M A) : Prop :=
  forall h c,
    match m (State h c) with
    | Ok _ s' | Exc _ s' => heap s' = h
    | Stuck => True
    end.

(** The console does not influence [m]. *)
Definition blind {A : Type} (m : M A) : Prop :=
  forall h c c', observe (m (State h c)) = observe (m (State h c')).

(** *** A sample profile and sample edits *)

(** A profile with a summary and one job with two accomplishments. *)
Definition sample_heap : list obj :=
  [ODict [("summary", VAtom (SStr "Old summary")); ("experience", VRef 1)];
   OList [VRef 2];
   ODict [("title", VAtom (SStr "Engineer")); ("accomplishments", VRef 3)];
   OList [VAtom (SStr "Built X"); VAtom (SStr "Led Y")]].

Definition sample_resume : val := VRef 0.

Definition summary_edit : edit :=
  [("section", SStr "summary"); ("original_text", SStr "Old summary");
   ("suggested_text", SStr "New summary")].

Definition stale_edit : edit :=
  [("section", SStr "summary"); ("original_text", SStr "Different text");
   ("suggested_text", SStr "New summary")].

Definition last_entry_edit : edit :=
  [("section", SStr "experience"); ("entry_index", SInt (-1));
   ("original_text", SStr "Led Y"); ("suggested_text", SStr "Led a team of five")].

Definition skills_edit : edit :=
  [("section", SStr "skills"); ("original_text", SStr "Python");
   ("suggested_text", SStr "Rust")].

Definition unknown_accomplishment_edit : edit :=
  [("section", SStr "experience"); ("entry_index", SInt 0);
   ("original_text", SStr "Shipped Z"); ("suggested_text", SStr "Shipped Z early")].

Definition out_of_range_edit : edit :=
  [("section", SStr "experience"); ("entry_index", SInt 3);
   ("original_text", SStr "Led Y"); ("suggested_text", SStr "Led a team of five")].

Definition text_index_edit : edit :=
  [("section", SStr "experience"); ("entry_index", SStr "0");
   ("original_text", SStr "Led Y"); ("suggested_text", SStr "Led a team of five")].

(** An experience edit that has neither text and gives its index as a
    text. *)
Definition keyless_edit : edit :=
  [("section", SStr "experience"); ("entry_index", SStr "0")].

(** An experience edit for a text the profile does not hold, which
    gives its index as a text. *)
Definition unmatched_text_index_edit : edit :=
  [("section", SStr "experience"); ("entry_index", SStr "0");
   ("original_text", SStr "Shipped Z"); ("suggested_text", SStr "Shipped Z early")].

Definition first_entry_edit : edit :=
  [("section", SStr "experience"); ("entry_index", SInt 0);
   ("original_text", SStr "Built X"); ("suggested_text", SStr "Built X in a week")].

End Applier.

(** ** Reading lines from the terminal *)

Module Prompt.

(** What is written to the terminal: the heading of a question, which
    the console renders from the markup that holds [prompt] (how it
    renders it is not modelled), and the prompt of [input]. *)
Inductive output : Type :=
  | Heading (prompt : string)
  | InputPrompt.

(** The terminal: the lines that [input] is still to return (each
    without its line feed), and what has been written to it. *)
Record terminal : Type := Terminal {
  pending : list string;
  written : list output
}.

(** How a read ends: with a value, or with [EOFError] when the input is
    at its end.  [Unrendered] is no outcome of the code: it stands for
    a heading that leaves the fragment. *)
Inductive asked (A : Type) : Type :=
  | Answered (a : A) (t : terminal)
  | EOFError (t : terminal)
  | Unrendered (t : terminal).
Arguments Answered {A} a t.
Arguments EOFError {A} t.
Arguments Unrendered {A} t.

(** The [while True] loop of [get_multiline_input]: each turn calls
    [input("> ")], which writes the prompt and consumes one line. *)
Fixpoint read_until_blank (lines : list string) (pending : list string)
    (written : list output) : asked (list string) :=
  match pending with
  | [] => EOFError (Terminal [] (written ++ [InputPrompt]))
  | line :: rest =>
      if String.eqb line EmptyString
      then Answered lines (Terminal rest (written ++ [InputPrompt]))
      else read_until_blank (lines ++ [line]) rest (written ++ [InputPrompt])
  end.

(** The heading goes through [CONSOLE.print], which reads it as markup
    and raises [MarkupError] for a closing tag that closes nothing; what
    the console does with a prompt that holds the opening of a closing
    tag is not modelled. *)
Definition get_multiline_input (prompt : string) (t : terminal) : asked (list string) :=
  if Str.markup_free prompt then
    read_until_blank [] (pending t) (written t ++ [Heading prompt])
  else Unrendered t.

End Prompt.

(** ** Word documents

    The part of the python-docx interface that [populate_docx_experience]
    uses.  A paragraph is its runs; the body of the document is the
    paragraphs before and after the placeholder paragraph [p], which the
    function removes in the end. *)

Module Docx.
Import Py.

Record run : Type := Run {
  run_text : string;
  bold : bool
}.

Definition paragraph : Type := list run.

(** The paragraphs around [p]. *)
Record body : Type := Body {
  preceding : list paragraph;
  following : list paragraph
}.

(** [p.insert_paragraph_before(text)]: a new paragraph directly before
    [p], so after the paragraphs inserted earlier; it has one run, that
    holds [text], unless [text] is empty.  The position of the new
    paragraph stands for the object returned. *)
Definition insert_paragraph_before (text : string) (b : body) : nat * body :=
  let new : paragraph := if String.eqb text EmptyString then [] else [Run text false] in
  (length (preceding b), Body (preceding b ++ [new]) (following b)).

(** [if para.runs: para.runs[0].bold = True] for the paragraph at [i]. *)
Definition embolden_first_run (i : nat) (b : body) : body :=
  match preceding b !! i with
  | Some (r :: rs) => Body (<[i := Run (run_text r) true :: rs]> (preceding b)) (following b)
  | _ => b
  end.

(** A value in an f-string: a [str] is put in as it is; the text of
    other values is outside the fragment. *)
Definition format_value (v : json) : result string :=
  match v with
  | JAtom (SStr s) => Ret s
  | _ => Raise NotModelled
  end.

(** The bullet of the source, as the bytes the file holds. *)
Definition bullet : string :=
  String (ascii_of_nat 195) (String (ascii_of_nat 162) (String (ascii_of_nat 226)
    (String (ascii_of_nat 130) (String (ascii_of_nat 172) (String (ascii_of_nat 194)
      (String (ascii_of_nat 162) " ")))))).

(** The body of the inner loop. *)
Definition insert_accomplishment (b : body) (acc : json) : result body :=
  text <- format_value acc ;;;
  Ret (snd (insert_paragraph_before (bullet +:+ text) b)).

(** The body of the outer loop. *)
Definition insert_entry (b : body) (entry : json) : result body :=
  let b := snd (insert_paragraph_before EmptyString b) in
  accs <- get entry "accomplishments" (JList []) ;;;
  accs <- iter accs ;;;
  b <- for_each (rev accs) b insert_accomplishment ;;;
  v <- get entry "title" (JStr "") ;;; title <- format_value v ;;;
  v <- get entry "company" (JStr "") ;;; company <- format_value v ;;;
  v <- get entry "dates" (JStr "") ;;; dates <- format_value v ;;;
  let '(title_paragraph, b) :=
    insert_paragraph_before (title +:+ ", " +:+ company +:+ " (" +:+ dates +:+ ")") b in
  Ret (embolden_first_run title_paragraph b).

(** [populate_docx_experience(p, experience_data)]: the paragraphs of
    the document when the call returns, [p] removed. *)
Definition populate_docx_experience (b : body) (experience_data : json)
    : result (list paragraph) :=
  entries <- iter experience_data ;;;
  b <- for_each (rev entries) b insert_entry ;;;
  Ret (preceding b ++ following b).

(** *** Vocabulary of the statements about Word documents *)

(** The raw fields of an experience entry, absent ones being empty. *)
Record experience_row : Type := ExperienceRow {
  title : string;
  company : string;
  dates : string;
  accomplishments : list string
}.

Definition experience_fields (entry : json) (row : experience_row) : Prop :=
  get entry "title" (JStr "") = Ret (JStr (title row)) /\
  get entry "company" (JStr "") = Ret (JStr (company row)) /\
  get entry "dates" (JStr "") = Ret (JStr (dates row)) /\
  get entry "accomplishments" (JList []) = Ret (JList (map JStr (accomplishments row))).

(** An entry as it is meant to be read: the title line in bold, a
    bullet per accomplishment, a blank paragraph. *)
Definition entry_paragraphs (row : experience_row) : list paragraph :=
  [Run (title row +:+ ", " +:+ company row +:+ " (" +:+ dates row +:+ ")") true] ::
  map (fun a => [Run (bullet +:+ a) false]) (accomplishments row) ++ [[]].

End Docx.

(** * Properties *)

(** ** Strings *)

Module StrFacts.

Lemma append_cons (c : ascii) (s t : string) :
  String c s +:+ t = String c (s +:+ t).
Proof. reflexivity. Qed.

Lemma append_empty_l (s : string) : EmptyString +:+ s = s.
Proof. reflexivity. Qed.

Lemma append_empty_r (s : string) : s +:+ EmptyString = s.
Proof. induction s as [|c s IH]; [done|]. by rewrite append_cons, IH. Qed.

Lemma append_assoc (s t u : string) : (s +:+ t) +:+ u = s +:+ (t +:+ u).
Proof. induction s as [|c s IH]; [done|]. by rewrite !append_cons, IH. Qed.

Lemma prefix_empty (s : string) : String.prefix EmptyString s = true.
Proof. by destruct s. Qed.

Lemma prefix_cons (a b : ascii) (s t : string) :
  String.prefix (String a s) (String b t) = bool_decide (a = b) && String.prefix s t.
Proof.
  simpl. destruct (ascii_dec a b) as [->|Hne].
  - by rewrite bool_decide_eq_true_2.
  - by rewrite bool_decide_eq_false_2.
Qed.

Lemma prefix_app (s t : string) : String.prefix s (s +:+ t) = true.
Proof.
  induction s as [|c s IH]; [apply prefix_empty|].
  rewrite append_cons, prefix_cons, IH. by rewrite bool_decide_eq_true_2.
Qed.

(** The scan passes over the rest of a match. *)
Lemma scan_skip pick (a rest : string) :
  Str.scan pick (String.length a) (a +:+ rest) = Str.scan pick O rest.
Proof. induction a as [|c a IH]; [done|]. by rewrite append_cons. Qed.

Lemma contains_nil (old : string) :
  Str.contains old EmptyString = String.prefix old EmptyString.
Proof. simpl. apply orb_false_r. Qed.

Lemma contains_cons (old : string) (c : ascii) (text : string) :
  Str.contains old (String c text) =
  String.prefix old (String c text) || Str.contains old text.
Proof. reflexivity. Qed.

(** A text in which [old] does not occur is left as it is. *)
Lemma replace_absent (old new text : string) :
  Str.contains old text = false -> Str.replace old new text = text.
Proof.
  unfold Str.replace. induction text as [|c text IH].
  - rewrite contains_nil. intros H. cbn [Str.scan]. by rewrite H.
  - rewrite contains_cons. intros [H1 H2]%orb_false_elim.
    cbn [Str.scan]. rewrite H1. f_equal. by apply IH.
Qed.

(** Where a text does not occur, no longer text starting with it does. *)
Lemma contains_app_absent (p q text : string) :
  Str.contains p text = false -> Str.contains (p +:+ q) text = false.
Proof.
  assert (Hpre : forall t, String.prefix p t = false -> String.prefix (p +:+ q) t = false).
  { induction p as [|c p IH]; intros t; [by rewrite prefix_empty|].
    rewrite append_cons. destruct t as [|d t]; [done|].
    rewrite !prefix_cons. intros [H|H]%andb_false_iff.
    - by rewrite H.
    - by rewrite (IH _ H), andb_false_r. }
  induction text as [|c text IH].
  - rewrite !contains_nil. apply Hpre.
  - rewrite !contains_cons. intros [H1 H2]%orb_false_elim.
    by rewrite (Hpre _ H1), (IH H2).
Qed.

End StrFacts.

(** ** Text sanitizer *)

Module SanitizerFacts.
Import StrFacts Py Sanitizer.

Ltac each_char c := destruct c as [[] [] [] [] [] [] [] []].

Lemma alternatives : sorted_by_len_desc (map fst conv) = map fst conv.
Proof. reflexivity. Qed.

Lemma regex_match_char (c : ascii) (rest : string) :
  regex_match (sorted_by_len_desc (map fst conv)) (String c rest) =
  if reserved c then Some (String c EmptyString) else None.
Proof.
  rewrite alternatives. unfold regex_match. cbn [map fst conv List.find].
  rewrite !prefix_cons, !prefix_empty.
  each_char c; reflexivity.
Qed.

Lemma conv_get_reserved (c : ascii) :
  reserved c = true -> conv_get conv (String c EmptyString) = Ret (escape_char c).
Proof. each_char c; intros H; try discriminate H; reflexivity. Qed.

Lemma escape_char_plain (c : ascii) :
  reserved c = false -> escape_char c = String c EmptyString.
Proof. each_char c; intros H; try discriminate H; reflexivity. Qed.

Lemma sanitize_text_escape_all (s : string) :
  sanitize_text s = Ret (escape_all s).
Proof.
  unfold sanitize_text. induction s as [|c s IH]; [reflexivity|].
  cbn [regex_sub]. rewrite regex_match_char.
  destruct (reserved c) eqn:Hc.
  - rewrite (conv_get_reserved _ Hc). cbn [bind String.length]. by rewrite IH.
  - rewrite IH. cbn [bind escape_all]. by rewrite (escape_char_plain _ Hc).
Qed.

Lemma escape_all_escaped (s : string) : escaped (escape_all s).
Proof.
  induction s as [|c s IH]; [constructor|]. cbn [escape_all].
  destruct (reserved c) eqn:Hc.
  - by apply escaped_seq.
  - rewrite (escape_char_plain _ Hc). by apply escaped_plain.
Qed.

Lemma unescape_pick_plain (c : ascii) (rest : string) :
  reserved c = false -> unescape_pick (String c rest) = None.
Proof.
  unfold unescape_pick. cbn [conv List.find snd fst].
  rewrite !prefix_cons.
  each_char c; intros H; try discriminate H; reflexivity.
Qed.

Ltac eval_escape_char :=
  repeat match goal with
  | |- context [escape_char ?a] =>
      let r := eval vm_compute in (escape_char a) in change (escape_char a) with r
  end.

Lemma unescape_pick_seq (c : ascii) (rest : string) :
  reserved c = true ->
  unescape_pick (escape_char c +:+ rest) =
  Some (String.length (escape_char c), String c EmptyString).
Proof.
  unfold unescape_pick. cbn [conv List.find snd fst].
  each_char c; intros H; try discriminate H; eval_escape_char;
    rewrite ?append_cons, ?append_empty_l, ?prefix_cons, ?prefix_empty;
    reflexivity.
Qed.

Lemma escape_char_nonempty (c : ascii) : escape_char c <> EmptyString.
Proof. each_char c; discriminate. Qed.

Lemma unescape_escape_all (s : string) : unescape (escape_all s) = s.
Proof.
  unfold unescape. induction s as [|c s IH]; [reflexivity|].
  cbn [escape_all]. destruct (reserved c) eqn:Hc.
  - pose proof (unescape_pick_seq c (escape_all s) Hc) as Hp.
    destruct (escape_char c) as [|a r] eqn:Er; [by apply escape_char_nonempty in Er|].
    rewrite append_cons in Hp |- *. cbn [Str.scan]. rewrite Hp.
    cbn [String.length]. by rewrite scan_skip, IH.
  - rewrite (escape_char_plain _ Hc), append_cons, append_empty_l.
    cbn [Str.scan]. by rewrite (unescape_pick_plain _ _ Hc), IH.
Qed.

(** No backslash in the input, no [\textbackslash{}] in the output. *)
Lemma escape_all_no_textbackslash (s : string) :
  Str.contains "\" s = false ->
  Str.contains "\textbackslash{}" (escape_all s) = false.
Proof.
  induction s as [|c s IH]; [reflexivity|].
  rewrite contains_cons, prefix_cons, prefix_empty, andb_true_r.
  intros [Hc Hs]%orb_false_elim. specialize (IH Hs).
  cbn [escape_all].
  each_char c; try discriminate Hc; eval_escape_char;
    rewrite ?append_cons, ?append_empty_l, ?contains_cons, ?prefix_cons;
    rewrite IH; reflexivity.
Qed.

Lemma sanitize_for_latex_escape_all (s : string) :
  sanitize_for_latex (JStr s) = Ret (escape_all s).
Proof.
  unfold sanitize_for_latex, JStr. cbn [truthy scalar_truthy].
  destruct s as [|c s]; [reflexivity|]. cbn [String.eqb negb].
  apply sanitize_text_escape_all.
Qed.

Lemma escape_char_sequence (c : ascii) :
  escape_char c =
  match escape_sequence c with
  | Some e => e
  | None => String c EmptyString
  end.
Proof. each_char c; reflexivity. Qed.

Lemma reserved_sequence (c : ascii) :
  reserved c = bool_decide (is_Some (escape_sequence c)).
Proof. each_char c; reflexivity. Qed.

Lemma escape_all_escaped_text (s : string) : escape_all s = escaped_text s.
Proof.
  induction s as [|c s IH]; [reflexivity|].
  cbn [escape_all escaped_text]. by rewrite escape_char_sequence, IH.
Qed.

Lemma escaped_fully_escaped (t : string) : escaped t -> fully_escaped t.
Proof.
  induction 1 as [|c s Hc _ IH|c s Hc _ IH].
  - constructor.
  - apply fully_escaped_plain; [|done]. rewrite reserved_sequence in Hc.
    apply bool_decide_eq_false in Hc. destruct (escape_sequence c); [|done].
    exfalso. apply Hc. eauto.
  - rewrite reserved_sequence in Hc. apply bool_decide_eq_true in Hc as [e He].
    rewrite escape_char_sequence, He. by apply (fully_escaped_sequence c).
Qed.

Lemma unescape_pick_sequences (u : string) :
  unescape_pick u =
  (fun p : ascii * string => (String.length (snd p), String (fst p) EmptyString)) <$>
  List.find (fun p => String.prefix (snd p) u) escape_sequences.
Proof.
  unfold unescape_pick. cbn [conv escape_sequences List.find snd fst].
  repeat (destruct (String.prefix _ u); [reflexivity|]). reflexivity.
Qed.

Lemma scan_ext (pick pick' : string -> option (nat * string)) (n : nat) (t : string) :
  (forall u, pick u = pick' u) -> Str.scan pick n t = Str.scan pick' n t.
Proof.
  intros Hpick. revert n. induction t as [|c t IH]; intros n; cbn [Str.scan].
  - by rewrite Hpick.
  - destruct n as [|n]; [|apply IH]. rewrite Hpick.
    destruct (pick' _) as [[[|k] r]|]; by rewrite IH.
Qed.

Lemma unescape_read_back (t : string) : unescape t = read_back t.
Proof. apply scan_ext, unescape_pick_sequences. Qed.

(** C5.  For every input string, [sanitize_for_latex] returns the text
    in which each of the ten reserved characters (ampersand, percent,
    dollar, hash, underscore, the two braces, tilde, caret, backslash)
    is replaced by its escape sequence, as [escape_sequences] writes them
    out, and every other character is kept, in one pass
    ([escaped_text]); in the output every reserved character belongs to
    a whole escape sequence ([fully_escaped]), and reading the escape
    sequences back gives the input again ([read_back]): no sequence was
    escaped a second time. *)
Theorem sanitize_for_latex_single_pass (s : string) :
  exists out,
    sanitize_for_latex (JStr s) = Ret out /\
    out = escaped_text s /\ fully_escaped out /\ read_back out = s.
Proof.
  exists (escape_all s). split; [apply sanitize_for_latex_escape_all|].
  split; [apply escape_all_escaped_text|].
  split; [apply escaped_fully_escaped, escape_all_escaped|].
  rewrite <- unescape_read_back. apply unescape_escape_all.
Qed.

(** The example of the specification: each of the two reserved
    characters is replaced once. *)
Example sanitize_percent_ampersand :
  sanitize_for_latex (JStr "50% & more") = Ret "50\% \& more".
Proof. reflexivity. Qed.

Lemma escape_all_app (s t : string) :
  escape_all (s +:+ t) = escape_all s +:+ escape_all t.
Proof.
  induction s as [|c s IH]; [reflexivity|].
  rewrite append_cons. cbn [escape_all]. by rewrite IH, append_assoc.
Qed.

Lemma length_append (s t : string) :
  String.length (s +:+ t) = String.length s + String.length t.
Proof. induction s as [|c s IH]; [done|]. rewrite append_cons. cbn. by rewrite IH. Qed.

Lemma escape_char_length (c : ascii) :
  if reserved c then 2 <= String.length (escape_char c)
  else escape_char c = String c EmptyString.
Proof. each_char c; vm_compute; first [reflexivity | lia]. Qed.

Lemma escape_all_length (s : string) :
  String.length s <= String.length (escape_all s) /\
  (unreserved s = false -> String.length s < String.length (escape_all s)).
Proof.
  induction s as [|c s [IH1 IH2]]; [done|].
  cbn [escape_all unreserved]. rewrite length_append. cbn [String.length].
  pose proof (escape_char_length c) as Hc. destruct (reserved c); cbn [negb andb].
  - split; [lia|]. intros _. lia.
  - rewrite Hc. cbn [String.length]. split; [lia|]. intros H. specialize (IH2 H). lia.
Qed.

Lemma escape_all_unreserved (s : string) : unreserved s = true -> escape_all s = s.
Proof.
  induction s as [|c s IH]; [done|]. cbn [unreserved escape_all].
  intros [Hc Hs]%andb_prop. apply negb_true_iff in Hc.
  by rewrite (escape_char_plain _ Hc), IH.
Qed.

Lemma unreserved_app (s t : string) :
  unreserved (s +:+ t) = unreserved s && unreserved t.
Proof.
  induction s as [|c s IH]; [done|]. rewrite append_cons. cbn [unreserved].
  by rewrite IH, andb_assoc.
Qed.

Lemma escape_char_reserved (c : ascii) :
  reserved c = true -> unreserved (escape_char c) = false.
Proof. each_char c; intros H; try discriminate H; reflexivity. Qed.

Lemma escape_all_reserved (s : string) :
  unreserved s = false -> unreserved (escape_all s) = false.
Proof.
  induction s as [|c s IH]; [done|]. cbn [unreserved escape_all].
  rewrite unreserved_app. destruct (reserved c) eqn:Hc; cbn [negb andb].
  - intros _. by rewrite (escape_char_reserved _ Hc).
  - intros H. by rewrite (IH H), andb_false_r.
Qed.

(** X1.  Sanitizing a text made of two pieces gives the sanitized pieces,
    one after the other. *)
Theorem sanitize_for_latex_app (s t : string) :
  sanitize_for_latex (JStr (s +:+ t)) =
  (a <- sanitize_for_latex (JStr s) ;;;
   b <- sanitize_for_latex (JStr t) ;;; Ret (a +:+ b)).
Proof.
  rewrite !sanitize_for_latex_escape_all. cbn [bind]. by rewrite escape_all_app.
Qed.

(** X2.  Two texts have the same sanitized form only when they are the
    same text. *)
Theorem sanitize_for_latex_injective (s t : string) :
  sanitize_for_latex (JStr s) = sanitize_for_latex (JStr t) <-> s = t.
Proof.
  split; [|by intros ->].
  rewrite !sanitize_for_latex_escape_all. intros [= H].
  by rewrite <- (unescape_escape_all s), <- (unescape_escape_all t), H.
Qed.

(** X3.  The sanitizer returns its input unchanged exactly when the input
    has no reserved character, and sanitizing its own output changes it
    again exactly when the input had one. *)
Theorem sanitize_for_latex_twice (s : string) :
  exists once twice,
    sanitize_for_latex (JStr s) = Ret once /\
    sanitize_for_latex (JStr once) = Ret twice /\
    (once = s <-> unreserved s = true) /\
    (twice = once <-> unreserved s = true).
Proof.
  exists (escape_all s), (escape_all (escape_all s)).
  rewrite !sanitize_for_latex_escape_all. split; [done|]. split; [done|].
  assert (Hfix : forall u, escape_all u = u <-> unreserved u = true).
  { intros u. split; [|apply escape_all_unreserved].
    intros H. destruct (unreserved u) eqn:Hu; [done|].
    destruct (escape_all_length u) as [_ Hlt]. specialize (Hlt Hu). rewrite H in Hlt. lia. }
  split; [apply Hfix|]. rewrite Hfix. split.
  - intros H. destruct (unreserved s) eqn:Hs; [done|].
    by rewrite (escape_all_reserved _ Hs) in H.
  - intros H. by rewrite (escape_all_unreserved _ H).
Qed.

End SanitizerFacts.

(** ** Section builders *)

Module BuildersFacts.
Import StrFacts Py Sanitizer Builders SanitizerFacts.

(** A loop whose body appends to the accumulator appends the pieces in order. *)
Lemma for_each_appends {A : Type} (body : string -> A -> result string)
    (xs : list A) (pieces : list string) (s : string) :
  (forall s x, body s x = (b <- body EmptyString x ;;; Ret (s +:+ b))) ->
  Forall2 (fun x b => body EmptyString x = Ret b) xs pieces ->
  for_each xs s body = Ret (s +:+ Str.join pieces).
Proof.
  intros Happ H. revert s. induction H as [|x b xs bs Hx _ IH]; intros s.
  - cbn. by rewrite append_empty_r.
  - cbn [for_each]. rewrite Happ, Hx. cbn [bind]. rewrite IH.
    cbn. by rewrite append_assoc.
Qed.

(** If the loop returns, every element was rendered. *)
Lemma for_each_pieces {A : Type} (body : string -> A -> result string)
    (xs : list A) (s out : string) :
  (forall s x, body s x = (b <- body EmptyString x ;;; Ret (s +:+ b))) ->
  for_each xs s body = Ret out ->
  exists pieces, Forall2 (fun x b => body EmptyString x = Ret b) xs pieces.
Proof.
  intros Happ. revert s. induction xs as [|x xs IH]; intros s H.
  - exists []. constructor.
  - cbn [for_each] in H. rewrite Happ in H.
    destruct (body EmptyString x) as [b|] eqn:Hb; [|discriminate].
    cbn [bind] in H. apply IH in H as [bs Hbs]. exists (b :: bs). by constructor.
Qed.

Ltac case_bind :=
  match goal with
  | |- context [bind ?m _] =>
      let E := fresh "E" in destruct m eqn:E; cbn [bind]; try reflexivity
  end.

Lemma accomplishment_item_appends (s : string) (acc : json) :
  accomplishment_item s acc =
  (b <- accomplishment_item EmptyString acc ;;; Ret (s +:+ b)).
Proof.
  unfold accomplishment_item. case_bind.
Qed.

(** A loop whose body appends can be started from a longer text. *)
Lemma for_each_prefix {A : Type} (body : string -> A -> result string)
    (xs : list A) (s t : string) :
  (forall s x, body s x = (b <- body EmptyString x ;;; Ret (s +:+ b))) ->
  for_each xs (s +:+ t) body = (r <- for_each xs t body ;;; Ret (s +:+ r)).
Proof.
  intros Happ. revert t. induction xs as [|x xs IH]; intros t; [reflexivity|].
  cbn [for_each]. rewrite (Happ (s +:+ t)), (Happ t).
  destruct (body EmptyString x) as [b|]; cbn [bind]; [|reflexivity].
  by rewrite append_assoc, IH.
Qed.

Lemma experience_entry_appends (s : string) (entry : json) :
  experience_entry s entry =
  (b <- experience_entry EmptyString entry ;;; Ret (s +:+ b)).
Proof.
  unfold experience_entry. do 9 case_bind. rewrite append_empty_l.
  destruct (truthy _); cbn [bind]; [|reflexivity].
  do 2 case_bind.
  rewrite !append_assoc.
  rewrite (for_each_prefix _ _ s _ accomplishment_item_appends).
  destruct (for_each a9 _ accomplishment_item); cbn [bind]; [|reflexivity].
  by rewrite !append_assoc.
Qed.

Ltac bind_ret :=
  match goal with
  | |- context [bind ?m _] => destruct m eqn:?; cbn [bind]; [|discriminate]
  end.

(** Every rendered entry starts with its table. *)
Lemma experience_entry_table (entry : json) (b : string) :
  experience_entry EmptyString entry = Ret b ->
  exists title dates company location rest,
    b = entry_table title dates company location +:+ rest.
Proof.
  unfold experience_entry. do 9 bind_ret. rewrite append_empty_l.
  destruct (truthy _).
  - do 2 bind_ret.
    rewrite <- (append_empty_r LF) at 1.
    rewrite <- !append_assoc.
    rewrite (for_each_prefix _ _ _ _ accomplishment_item_appends).
    destruct (for_each _ _ accomplishment_item) as [r|]; cbn [bind]; [|discriminate].
    intros [= <-]. rewrite !append_assoc. eauto 6.
  - intros [= <-]. eexists _, _, _, _, EmptyString. by rewrite append_empty_r.
Qed.

Lemma experience_entry_starts_item (entry : json) (b : string) :
  experience_entry EmptyString entry = Ret b ->
  String.prefix ("  \item" +:+ LF) b = true.
Proof.
  intros (t & d & c & l & rest & ->)%experience_entry_table.
  unfold entry_table. rewrite !append_assoc, <- (append_assoc "  \item" LF).
  apply prefix_app.
Qed.

(** C7.  For a profile whose experience list is empty or absent,
    [build_experience_section] returns the empty string; for a non-empty
    list it returns the header, then one block per entry in the order of
    the list (the block is what the loop body renders for that entry, and
    starts a new item), then the footer. *)
Theorem build_experience_section_blocks (data : json) (entries : list json)
    (blocks : list string) :
  experience_list data = Some entries ->
  Forall2 (fun e b => experience_entry EmptyString e = Ret b) entries blocks ->
  build_experience_section data =
    Ret (match entries with
         | [] => EmptyString
         | _ => experience_header +:+ Str.join blocks +:+ experience_footer
         end)
  /\ length blocks = length entries
  /\ Forall (fun b => String.prefix ("  \item" +:+ LF) b = true) blocks.
Proof.
  intros Hl Hb. split; [|split].
  - destruct data as [| |kvs]; try discriminate Hl.
    unfold experience_list in Hl. unfold build_experience_section, get, getitem.
    destruct (assoc "experience" kvs) as [[[]|es|]|] eqn:Ha; try discriminate Hl;
      injection Hl as <-; cbn [bind truthy negb scalar_truthy]; [by inversion Hb| |by inversion Hb].
    destruct es as [|e es]; [by inversion Hb|].
    cbn [truthy length Nat.eqb negb bind iter].
    rewrite (for_each_appends _ _ blocks _ experience_entry_appends Hb).
    cbn [bind]. unfold experience_header, experience_footer.
    by rewrite !append_assoc.
  - symmetry. eapply Forall2_length, Hb.
  - clear Hl. induction Hb as [|e b es bs He _ IH]; [constructor|].
    constructor; [by eapply experience_entry_starts_item|done].
Qed.

(** The items of the inner list, one accomplishment after the other. *)
Lemma accomplishment_items (accs : list string) :
  Forall2 (fun x b => accomplishment_item EmptyString x = Ret b)
    (map JStr accs)
    (map (fun i => "      \item \small{" +:+ i +:+ "}" +:+ LF)
       (map (fun a => Str.replace "\textbackslash{}\%" "\%" (escape_all a)) accs)).
Proof.
  induction accs as [|a accs IH]; [constructor|].
  cbn [map]. constructor; [|done].
  unfold accomplishment_item. rewrite sanitize_for_latex_escape_all.
  cbn [bind]. by rewrite append_empty_l.
Qed.

(** C8, as amended.  For an experience entry whose fields are strings,
    the dates, company and location are embedded as [sanitize_for_latex]
    returns them ([escape_all], by [sanitize_for_latex_escape_all]); the
    title is embedded as the sanitizer's output with every
    [\textbackslash{}] replaced by a slash, and each accomplishment as the
    sanitizer's output with every [\textbackslash{}\%] replaced by [\%].
    Both are the sanitizer's output itself when the raw value has no
    backslash. *)
Theorem experience_entry_fields (entry : json) (title dates company location : string)
    (accs : list string) (s : string) :
  get entry "title" (JStr "") = Ret (JStr title) ->
  get entry "dates" (JStr "") = Ret (JStr dates) ->
  get entry "company" (JStr "") = Ret (JStr company) ->
  get entry "location" (JStr "") = Ret (JStr location) ->
  get entry "accomplishments" JNone = Ret (JList (map JStr accs)) ->
  experience_entry s entry =
    Ret (s +:+
         entry_table (Str.replace "\textbackslash{}" "/" (escape_all title))
           (escape_all dates) (escape_all company) (escape_all location) +:+
         accomplishments_block
           (map (fun a => Str.replace "\textbackslash{}\%" "\%" (escape_all a)) accs))
  /\ (Str.contains "\" title = false ->
      Str.replace "\textbackslash{}" "/" (escape_all title) = escape_all title)
  /\ (forall a, Str.contains "\" a = false ->
      Str.replace "\textbackslash{}\%" "\%" (escape_all a) = escape_all a).
Proof.
  intros Ht Hd Hc Hl Ha. split; [|split].
  - unfold experience_entry. rewrite Ht, Hd, Hc, Hl, Ha.
    repeat (cbn [bind]; rewrite ?sanitize_for_latex_escape_all).
    destruct entry as [| |kvs]; try discriminate Ha.
    unfold getitem. unfold get in Ha.
    destruct (assoc "accomplishments" kvs) as [v|]; [|discriminate Ha].
    injection Ha as ->.
    destruct accs as [|a accs].
    + cbn [map truthy length Nat.eqb negb accomplishments_block].
      by rewrite !append_empty_r.
    + cbn [truthy length Nat.eqb negb bind iter].
      rewrite (for_each_appends _ _ _ _ accomplishment_item_appends
                 (accomplishment_items (a :: accs))).
      cbn [bind]. unfold accomplishments_block. cbn [map].
      by rewrite !append_assoc.
  - intros H. apply replace_absent. by apply escape_all_no_textbackslash.
  - intros a H. apply replace_absent.
    apply (contains_app_absent "\textbackslash{}" "\%").
    by apply escape_all_no_textbackslash.
Qed.

Lemma experience_entry_fields_witness :
  experience_entry EmptyString
    (JDict [("title", JStr "Engineer"); ("company", JStr "Acme & Co");
            ("accomplishments", JList [JStr "Built X"; JStr "Led Y"])]) =
  Ret (entry_table "Engineer" "" "Acme \& Co" "" +:+
       accomplishments_block ["Built X"; "Led Y"]).
Proof.
  apply (experience_entry_fields
           (JDict [("title", JStr "Engineer"); ("company", JStr "Acme & Co");
                   ("accomplishments", JList [JStr "Built X"; JStr "Led Y"])])
           "Engineer" "" "Acme & Co" "" ["Built X"; "Led Y"] EmptyString);
    reflexivity.
Defined.

(** C8 as stated fails: a backslash in a title is embedded as a slash,
    which is not what [sanitize_for_latex] returns for that title. *)
Lemma title_backslash_rewritten :
  exists block,
    experience_entry EmptyString
      (JDict [("title", JStr "R\D"); ("accomplishments", JList [])]) = Ret block /\
    block = entry_table "R/D" "" "" "" /\
    sanitize_for_latex (JStr "R\D") = Ret "R\textbackslash{}D" /\
    String.eqb block (entry_table "R\textbackslash{}D" "" "" "") = false.
Proof. eexists. repeat split. Qed.

Lemma build_experience_section_blocks_witness :
  build_experience_section
    (JDict [("experience",
             JList [JDict [("title", JStr "Engineer")];
                    JDict [("title", JStr "Intern")]])]) =
  Ret (experience_header +:+
       Str.join [entry_table "Engineer" "" "" ""; entry_table "Intern" "" "" ""] +:+
       experience_footer).
Proof.
  refine (proj1 (build_experience_section_blocks
           (JDict [("experience",
                    JList [JDict [("title", JStr "Engineer")];
                           JDict [("title", JStr "Intern")]])])
           [JDict [("title", JStr "Engineer")]; JDict [("title", JStr "Intern")]]
           [entry_table "Engineer" "" "" ""; entry_table "Intern" "" "" ""] _ _)).
  - reflexivity.
  - repeat constructor.
Defined.

Lemma education_entry_appends (s : string) (entry : json) :
  education_entry s entry =
  (b <- education_entry EmptyString entry ;;; Ret (s +:+ b)).
Proof. unfold education_entry. do 8 case_bind. Qed.

Lemma education_entry_row (entry : json) (row : education_row) :
  education_fields entry row ->
  education_entry EmptyString entry =
  Ret (entry_table (escape_all (institution row)) (escape_all (education_dates row))
         (escape_all (degree row)) (escape_all (education_location row))).
Proof.
  intros (Hi & Hd & Hg & Hl). unfold education_entry. rewrite Hi, Hd, Hg, Hl.
  repeat (cbn [bind]; rewrite ?sanitize_for_latex_escape_all). by rewrite append_empty_l.
Qed.

(** X4.  [build_education_section] returns the empty string when the
    education list is absent or empty; otherwise the header, one table per
    entry in the order of the list, each holding the four fields as the
    sanitizer returns them, and the footer. *)
Theorem build_education_section_rows (data : json) (entries : list json)
    (rows : list education_row) :
  section_list "education" data = Some entries ->
  Forall2 education_fields entries rows ->
  build_education_section data =
    Ret (match entries with
         | [] => EmptyString
         | _ =>
             education_header +:+
             Str.join (map (fun row =>
               entry_table (escape_all (institution row)) (escape_all (education_dates row))
                 (escape_all (degree row)) (escape_all (education_location row))) rows) +:+
             "\end{itemize}" +:+ LF +:+ LF
         end).
Proof.
  intros Hl Hrows.
  destruct data as [| |kvs]; try discriminate Hl.
  unfold section_list in Hl. unfold build_education_section, get, getitem.
  destruct (assoc "education" kvs) as [[[]|es|]|] eqn:Ha; try discriminate Hl;
    injection Hl as <-; cbn [bind truthy negb scalar_truthy]; [done| |done].
  destruct es as [|e es]; [done|].
  cbn [truthy length Nat.eqb negb bind iter].
  erewrite (for_each_appends _ _ _ _ education_entry_appends).
  - cbn [bind]. unfold education_header. by rewrite !append_assoc.
  - clear Ha. induction Hrows as [|x r xs rs Hx _ IH]; [constructor|].
    cbn [map]. constructor; [by apply education_entry_row|done].
Qed.

Lemma build_education_section_rows_witness :
  build_education_section
    (JDict [("education",
             JList [JDict [("institution", JStr "MIT"); ("dates", JStr "2019 -- 2023");
                           ("degree", JStr "B.Sc. Math & CS"); ("location", JStr "Cambridge")];
                    JDict [("institution", JStr "ETH")]])]) =
  Ret (education_header +:+
       Str.join (map (fun row =>
         entry_table (escape_all (institution row)) (escape_all (education_dates row))
           (escape_all (degree row)) (escape_all (education_location row)))
         [EducationRow "MIT" "2019 -- 2023" "B.Sc. Math & CS" "Cambridge";
          EducationRow "ETH" "" "" ""]) +:+
       "\end{itemize}" +:+ LF +:+ LF).
Proof.
  apply (build_education_section_rows
           (JDict [("education",
             JList [JDict [("institution", JStr "MIT"); ("dates", JStr "2019 -- 2023");
                           ("degree", JStr "B.Sc. Math & CS"); ("location", JStr "Cambridge")];
                    JDict [("institution", JStr "ETH")]])])
           [JDict [("institution", JStr "MIT"); ("dates", JStr "2019 -- 2023");
                   ("degree", JStr "B.Sc. Math & CS"); ("location", JStr "Cambridge")];
            JDict [("institution", JStr "ETH")]]
           [EducationRow "MIT" "2019 -- 2023" "B.Sc. Math & CS" "Cambridge";
            EducationRow "ETH" "" "" ""]).
  - reflexivity.
  - repeat constructor.
Defined.

Lemma language_item_appends (s : string) (lang : json) :
  language_item s lang = (b <- language_item EmptyString lang ;;; Ret (s +:+ b)).
Proof. unfold language_item. case_bind. Qed.

Lemma language_items (ls : list string) :
  Forall2 (fun x b => language_item EmptyString x = Ret b) (map JStr ls)
    (map (fun l => "    \item " +:+ escape_all l +:+ LF) ls).
Proof.
  induction ls as [|l ls IH]; [constructor|]. cbn [map]. constructor; [|done].
  unfold language_item. rewrite sanitize_for_latex_escape_all. cbn [bind].
  by rewrite append_empty_l.
Qed.

(** X5.  [build_languages_section] returns the empty string when the list
    of languages is absent or empty; otherwise the header, one item per
    language in the order of the list, holding the language as the
    sanitizer returns it, and the end of the list. *)
Theorem build_languages_section_items (data : json) (languages : list string) :
  section_list "languages" data = Some (map JStr languages) ->
  build_languages_section data =
    Ret (match languages with
         | [] => EmptyString
         | _ =>
             languages_header +:+
             Str.join (map (fun l => "    \item " +:+ escape_all l +:+ LF) languages) +:+
             "\end{itemize}" +:+ LF
         end).
Proof.
  intros Hl.
  destruct data as [| |kvs]; try discriminate Hl.
  unfold section_list in Hl. unfold build_languages_section, get, getitem.
  destruct (assoc "languages" kvs) as [[[]|es|]|] eqn:Ha; try discriminate Hl;
    injection Hl as Hl; cbn [bind truthy negb scalar_truthy].
  - by destruct languages.
  - subst es. destruct languages as [|l ls]; [done|].
    cbn [map truthy length Nat.eqb negb bind iter].
    rewrite (for_each_appends _ _ _ _ language_item_appends (language_items (l :: ls))).
    cbn [bind]. unfold languages_header. by rewrite !append_assoc.
  - by destruct languages.
Qed.

Lemma build_languages_section_items_witness :
  build_languages_section (JDict [("languages", JList (map JStr ["English: Native"; "C# & F#"]))]) =
  Ret (languages_header +:+
       Str.join (map (fun l => "    \item " +:+ escape_all l +:+ LF)
                   ["English: Native"; "C# & F#"]) +:+
       "\end{itemize}" +:+ LF).
Proof.
  apply (build_languages_section_items
           (JDict [("languages", JList (map JStr ["English: Native"; "C# & F#"]))])
           ["English: Native"; "C# & F#"]).
  reflexivity.
Defined.

Lemma skill_item_appends (s : string) (skill : json) :
  skill_item s skill = (b <- skill_item EmptyString skill ;;; Ret (s +:+ b)).
Proof. unfold skill_item. case_bind. Qed.

Lemma skill_items (xs : list string) :
  Forall2 (fun x b => skill_item EmptyString x = Ret b) (map JStr xs)
    (map (fun i => "            \item " +:+ i +:+ LF)
       (map cleaned_skill xs)).
Proof.
  induction xs as [|x xs IH]; [constructor|]. cbn [map]. constructor; [|done].
  unfold skill_item, clean_skill, str_replace, JStr. cbn [bind].
  fold (JStr (Str.replace "\textbackslash{}\&" " & " x)).
  rewrite sanitize_for_latex_escape_all. cbn [bind]. by rewrite append_empty_l.
Qed.

Lemma truthy_strings (xs : list string) :
  truthy (JList (map JStr xs)) = negb (bool_decide (xs = [])).
Proof. by destruct xs. Qed.

(** X6.  [build_skills_section] for a profile whose skills hold a list of
    technical and a list of professional skills: nothing when both lists
    are empty; otherwise the heading, then a column for each non-empty
    list, as wide as the text when it is the only one and half as wide
    when there are two, the two separated by a comment sign.  Each skill
    is sanitized after [\textbackslash{}\&] has been replaced in it. *)
Theorem build_skills_section_columns (data : json) (kvs : list (string * json))
    (technical professional : list string) :
  get data "skills" JNone = Ret (JDict kvs) ->
  assoc "technical" kvs = Some (JList (map JStr technical)) ->
  assoc "professional" kvs = Some (JList (map JStr professional)) ->
  build_skills_section data =
    Ret (match technical, professional with
         | [], [] => EmptyString
         | _, _ =>
             "\section*{Skills}" +:+ LF +:+ "\noindent" +:+ LF +:+
             match technical with
             | [] => EmptyString
             | _ =>
                 skills_block (column_width technical professional) "Technical Skills"
                   (map cleaned_skill technical) +:+
                 match professional with
                 | [] => EmptyString
                 | _ => "%" +:+ LF
                 end
             end +:+
             match professional with
             | [] => EmptyString
             | _ =>
                 skills_block (column_width technical professional) "Professional Skills"
                   (map cleaned_skill professional) +:+ LF +:+ LF
             end
         end).
Proof.
  intros Hs Ht Hp. unfold build_skills_section. rewrite Hs.
  cbn [bind]. unfold get. rewrite Ht, Hp.
  assert (Hkvs : truthy (JDict kvs) = true) by (destruct kvs; [discriminate Ht|done]).
  rewrite Hkvs. cbn [negb bind].
  destruct technical as [|t ts], professional as [|p ps];
    cbn [map truthy length Nat.eqb negb andb bind iter]; try reflexivity.
  - rewrite (for_each_appends _ _ _ _ skill_item_appends (skill_items (p :: ps))).
    cbn [bind]. unfold skills_block, column_width.
    by rewrite !append_assoc.
  - rewrite (for_each_appends _ _ _ _ skill_item_appends (skill_items (t :: ts))).
    cbn [bind]. unfold skills_block, column_width.
    by rewrite !append_assoc, ?append_empty_r.
  - rewrite (for_each_appends _ _ _ _ skill_item_appends (skill_items (t :: ts))).
    cbn [bind].
    rewrite (for_each_appends _ _ _ _ skill_item_appends (skill_items (p :: ps))).
    cbn [bind]. unfold skills_block, column_width.
    by rewrite !append_assoc.
Qed.

Lemma build_skills_section_columns_witness :
  build_skills_section
    (JDict [("skills", JDict [("technical", JList (map JStr ["Python"; "C#"]));
                              ("professional", JList (map JStr ["R&D"]))])]) =
  Ret ("\section*{Skills}" +:+ LF +:+ "\noindent" +:+ LF +:+
       (skills_block (column_width ["Python"; "C#"] ["R&D"]) "Technical Skills"
          (map cleaned_skill ["Python"; "C#"]) +:+ "%" +:+ LF) +:+
       skills_block (column_width ["Python"; "C#"] ["R&D"]) "Professional Skills"
         (map cleaned_skill ["R&D"]) +:+ LF +:+ LF).
Proof.
  apply (build_skills_section_columns
           (JDict [("skills", JDict [("technical", JList (map JStr ["Python"; "C#"]));
                                     ("professional", JList (map JStr ["R&D"]))])])
           [("technical", JList (map JStr ["Python"; "C#"]));
            ("professional", JList (map JStr ["R&D"]))]
           ["Python"; "C#"] ["R&D"]); reflexivity.
Defined.

(** A skill that holds the text [\textbackslash{}\&] is rendered with an
    escaped ampersand between spaces. *)
Example clean_skill_ampersand :
  clean_skill (JStr "R\textbackslash{}\&D") = Ret "R \& D".
Proof. reflexivity. Qed.

(** X7.  A builder returns the empty string when the profile has no value
    under its key, or a falsy one ([None], an empty string, list or
    dict). *)
Theorem section_builders_omit (key : string) (build : json -> result string)
    (kvs : list (string * json)) :
  (key, build) ∈ section_builders ->
  absent_or_falsy key kvs = true ->
  build (JDict kvs) = Ret EmptyString.
Proof.
  unfold section_builders, absent_or_falsy.
  rewrite !elem_of_cons, elem_of_nil.
  intros [H|[H|[H|[H|[H|[]]]]]] Ha; injection H as -> ->.
  - unfold build_summary_section, get. destruct (assoc "summary" kvs); cbn [bind]; [|done].
    by rewrite Ha.
  - unfold build_experience_section, get. destruct (assoc "experience" kvs); cbn [bind]; [|done].
    by rewrite Ha.
  - unfold build_education_section, get. destruct (assoc "education" kvs); cbn [bind]; [|done].
    by rewrite Ha.
  - unfold build_skills_section, get at 1. destruct (assoc "skills" kvs); cbn [bind]; [|done].
    by rewrite Ha.
  - unfold build_languages_section, get. destruct (assoc "languages" kvs); cbn [bind]; [|done].
    by rewrite Ha.
Qed.

Lemma section_builders_omit_witness :
  build_education_section (JDict [("summary", JStr "Analyst"); ("education", JList [])]) =
  Ret EmptyString.
Proof.
  apply (section_builders_omit "education" build_education_section
           [("summary", JStr "Analyst"); ("education", JList [])]).
  - unfold section_builders. rewrite !elem_of_cons. auto.
  - reflexivity.
Defined.

End BuildersFacts.

(** ** Document compiler *)

Module CompilerFacts.
Import StrFacts Sys Compiler.

Lemma append_inv_head (a s t : string) : a +:+ s = a +:+ t -> s = t.
Proof. induction a as [|c a IH]; [done|]. rewrite !append_cons. intros [= H]. auto. Qed.

Lemma starts_with_slash_app (b ext : string) :
  starts_with_slash ext = false ->
  starts_with_slash (b +:+ ext) = starts_with_slash b.
Proof. destruct b as [|c b]; [|done]. intros H. by rewrite append_empty_l, H. Qed.

(** Files of one base name with different extensions are different files. *)
Lemma path_join_ext_ne (a b ext1 ext2 : string) :
  starts_with_slash ext1 = false -> starts_with_slash ext2 = false ->
  ext1 <> ext2 -> path_join a (b +:+ ext1) <> path_join a (b +:+ ext2).
Proof.
  intros H1 H2 Hne. unfold path_join.
  rewrite !starts_with_slash_app by done.
  destruct (starts_with_slash b); [|destruct (_ || _)]; intros H;
    repeat (apply append_inv_head in H); done.
Qed.

Lemma cleanup_ext_other base ext p w :
  p <> path_join "output" (base +:+ ext) ->
  files (cleanup_ext "output" base w ext) !! p = files w !! p.
Proof.
  intros Hp. unfold cleanup_ext. destruct (path_exists _ w); [|done].
  unfold remove. case_bool_decide; [done|].
  destruct (files w !! _); [|done]. cbn. by rewrite lookup_delete_ne.
Qed.

Lemma cleanup_ext_locked base ext w :
  locked (cleanup_ext "output" base w ext) = locked w.
Proof.
  unfold cleanup_ext. destruct (path_exists _ w); [|done].
  unfold remove. case_bool_decide; [done|]. by destruct (files w !! _).
Qed.

Lemma cleanup_ext_console base ext w :
  console (cleanup_ext "output" base w ext) = console w.
Proof.
  unfold cleanup_ext. destruct (path_exists _ w); [|done].
  unfold remove. case_bool_decide; [done|]. by destruct (files w !! _).
Qed.

Lemma cleanup_ext_removed base ext w :
  path_join "output" (base +:+ ext) ∉ locked w ->
  files (cleanup_ext "output" base w ext) !! path_join "output" (base +:+ ext) = None.
Proof.
  intros Hl. unfold cleanup_ext, path_exists. case_bool_decide as He.
  - unfold remove. rewrite bool_decide_eq_false_2 by done.
    destruct He as [x ->]. cbn. by rewrite lookup_delete_eq.
  - by apply eq_None_not_Some.
Qed.

(** The [finally] clause removes the [.aux] and the [.log] file and
    nothing else. *)
Lemma cleanup_spec base w :
  (aux_path base ∉ locked w -> files (cleanup "output" base w) !! aux_path base = None) /\
  (log_path base ∉ locked w -> files (cleanup "output" base w) !! log_path base = None) /\
  (forall p, p <> aux_path base -> p <> log_path base ->
     files (cleanup "output" base w) !! p = files w !! p) /\
  console (cleanup "output" base w) = console w.
Proof.
  unfold cleanup, aux_path, log_path. cbn [foldl].
  assert (Hne : path_join "output" (base +:+ ".aux") <> path_join "output" (base +:+ ".log"))
    by (by apply path_join_ext_ne).
  repeat split.
  - intros Hl. rewrite cleanup_ext_other by done. by apply cleanup_ext_removed.
  - intros Hl. apply cleanup_ext_removed. by rewrite cleanup_ext_locked.
  - intros p H1 H2. by rewrite !cleanup_ext_other.
  - by rewrite !cleanup_ext_console.
Qed.




(** X8.  When [pdflatex] is not installed, or the [.tex] file cannot be
    written and the file name, which the message about it shows, holds no
    closing tag of the console's markup, [compile_latex_to_pdf] returns
    [None] after one message: no file is written and the tool is not
    run. *)
Theorem compile_latex_to_pdf_not_started (tc : toolchain) (latex_code filename_base : string)
    (w : world) :
  which_pdflatex tc = false \/
  (tex_path filename_base ∈ locked w /\ Str.markup_free filename_base = true) ->
  compile_latex_to_pdf tc latex_code filename_base w =
    (None, print (if which_pdflatex tc then TexWriteError else PdflatexNotFound) w).
Proof.
  unfold compile_latex_to_pdf. fold (tex_path filename_base).
  destruct (which_pdflatex tc); cbn [negb]; [|done].
  intros [H|[H _]]; [done|]. unfold write_file. by rewrite bool_decide_eq_true_2.
Qed.

Lemma compile_latex_to_pdf_not_started_witness :
  compile_latex_to_pdf failing_pdflatex "\documentclass{article}" "resume_Ada"
    (World ∅ {[ "output/resume_Ada.tex" ]} []) =
  (None, print (if which_pdflatex failing_pdflatex then TexWriteError else PdflatexNotFound)
           (World ∅ {[ "output/resume_Ada.tex" ]} [])).
Proof.
  apply compile_latex_to_pdf_not_started. right. split; [|reflexivity].
  change (tex_path "resume_Ada" ∈ ({[ "output/resume_Ada.tex" ]} : gset string)).
  by apply elem_of_singleton.
Defined.

(** X9.  For a file name that holds no closing tag of the console's
    markup: when both runs of [pdflatex] exit with status 0, the second
    run starting from the files the first one left,
    [compile_latex_to_pdf] returns the name of the PDF file and prints
    its path; the [.aux] and the [.log] file are gone and every other
    file is as the second run left it.  Whether the tool wrote a PDF
    file is not checked. *)
Theorem compile_latex_to_pdf_success (tc : toolchain) (latex_code filename_base : string)
    (w : world) (stderr1 stderr2 : string) (fs1 fs2 : gmap string string) :
  Str.markup_free filename_base = true ->
  which_pdflatex tc = true ->
  tex_path filename_base ∉ locked w ->
  run_pdflatex tc (pdflatex_args filename_base)
    (<[tex_path filename_base := latex_code]> (files w)) = (0%Z, stderr1, fs1) ->
  run_pdflatex tc (pdflatex_args filename_base) fs1 = (0%Z, stderr2, fs2) ->
  exists w',
    compile_latex_to_pdf tc latex_code filename_base w =
      (Some (filename_base +:+ ".pdf"), w') /\
    console w' = console w ++ [PdfCreated (pdf_path filename_base)] /\
    (aux_path filename_base ∉ locked w -> files w' !! aux_path filename_base = None) /\
    (log_path filename_base ∉ locked w -> files w' !! log_path filename_base = None) /\
    (forall p, p <> aux_path filename_base -> p <> log_path filename_base ->
       files w' !! p = fs2 !! p).
Proof.
  intros _ Hw Ht Hrun1 Hrun2.
  unfold compile_latex_to_pdf. rewrite Hw. cbn [negb].
  fold (tex_path filename_base) (pdf_path filename_base).
  unfold write_file. rewrite bool_decide_eq_false_2 by done.
  unfold subprocess_run. cbn [files set_files].
  fold (pdflatex_args filename_base). rewrite Hrun1. cbn [Z.eqb files set_files].
  rewrite Hrun2. cbn [Z.eqb].
  eexists. split; [reflexivity|].
  match goal with |- context [cleanup _ _ ?w0] =>
    destruct (cleanup_spec filename_base w0) as (Haux & Hlog & Hother & Hcon) end.
  split; [by rewrite Hcon|]. split; [|split].
  - intros H. by apply Haux.
  - intros H. by apply Hlog.
  - intros p H1 H2. by rewrite Hother.
Qed.

Lemma compile_latex_to_pdf_success_witness :
  exists w',
    compile_latex_to_pdf working_pdflatex "\documentclass{article}" "resume_Ada"
      (World ∅ ∅ []) = (Some ("resume_Ada" +:+ ".pdf"), w') /\
    console w' = [] ++ [PdfCreated (pdf_path "resume_Ada")] /\
    (aux_path "resume_Ada" ∉ (∅ : gset string) -> files w' !! aux_path "resume_Ada" = None) /\
    (log_path "resume_Ada" ∉ (∅ : gset string) -> files w' !! log_path "resume_Ada" = None) /\
    (forall p, p <> aux_path "resume_Ada" -> p <> log_path "resume_Ada" ->
       files w' !! p =
       snd (run_pdflatex working_pdflatex (pdflatex_args "resume_Ada")
              (snd (run_pdflatex working_pdflatex (pdflatex_args "resume_Ada")
                      (<["output/resume_Ada.tex" := "\documentclass{article}"]> ∅)))) !! p).
Proof.
  apply (compile_latex_to_pdf_success working_pdflatex "\documentclass{article}"
           "resume_Ada" (World ∅ ∅ []) "" ""
           (snd (run_pdflatex working_pdflatex (pdflatex_args "resume_Ada")
                   (<["output/resume_Ada.tex" := "\documentclass{article}"]> ∅)))).
  - reflexivity.
  - reflexivity.
  - apply not_elem_of_empty.
  - reflexivity.
  - reflexivity.
Defined.

(** On that run the [.tex] and the [.pdf] file are what is left. *)
Example successful_compilation_files :
  exists w',
    compile_latex_to_pdf working_pdflatex "\documentclass{article}" "resume_Ada"
      (World ∅ ∅ []) = (Some "resume_Ada.pdf", w') /\
    map_to_list (files w') =
      [("output/resume_Ada.tex", "\documentclass{article}"); ("output/resume_Ada.pdf", "%PDF-1.5")].
Proof. eexists. split; [reflexivity|]. vm_compute. reflexivity. Qed.

(** X10.  For a file name and an error output of the second run that
    hold no closing tag of the console's markup: when the first run of
    [pdflatex] exits with status 0 and the second does not,
    [compile_latex_to_pdf] returns [None] and reports the second run's
    error output; the files the first run wrote, a PDF file among them
    if it wrote one, stay as the second run left them, but for the
    [.aux] and the [.log] file. *)
Theorem compile_latex_to_pdf_second_run_fails (tc : toolchain)
    (latex_code filename_base : string) (w : world) (status : Z)
    (stderr1 stderr2 : string) (fs1 fs2 : gmap string string) :
  Str.markup_free filename_base = true ->
  Str.markup_free stderr2 = true ->
  which_pdflatex tc = true ->
  tex_path filename_base ∉ locked w ->
  run_pdflatex tc (pdflatex_args filename_base)
    (<[tex_path filename_base := latex_code]> (files w)) = (0%Z, stderr1, fs1) ->
  run_pdflatex tc (pdflatex_args filename_base) fs1 = (status, stderr2, fs2) ->
  status <> 0%Z ->
  exists w',
    compile_latex_to_pdf tc latex_code filename_base w = (None, w') /\
    console w' =
      console w ++ CompilationError (log_path filename_base) ::
        (if String.eqb stderr2 EmptyString then [] else [CompilerErrorOutput stderr2]) /\
    (forall p, p <> aux_path filename_base -> p <> log_path filename_base ->
       files w' !! p = fs2 !! p).
Proof.
  intros _ _ Hw Ht Hrun1 Hrun2 Hs.
  unfold compile_latex_to_pdf. rewrite Hw. cbn [negb].
  fold (tex_path filename_base) (log_path filename_base).
  unfold write_file. rewrite bool_decide_eq_false_2 by done.
  unfold subprocess_run. cbn [files set_files].
  fold (pdflatex_args filename_base). rewrite Hrun1. cbn [Z.eqb files set_files].
  rewrite Hrun2. apply Z.eqb_neq in Hs. rewrite Hs.
  eexists. split; [reflexivity|].
  match goal with |- context [cleanup _ _ ?w0] =>
    destruct (cleanup_spec filename_base w0) as (_ & _ & Hother & Hcon) end.
  split.
  - rewrite Hcon. destruct (String.eqb stderr2 EmptyString); cbn; [done|].
    by rewrite <- app_assoc.
  - intros p H1 H2. rewrite Hother by done. by destruct (String.eqb stderr2 EmptyString).
Qed.

Lemma compile_latex_to_pdf_second_run_fails_witness :
  exists w',
    compile_latex_to_pdf flaky_pdflatex "\documentclass{article}" "resume_Ada"
      (World ∅ ∅ []) = (None, w') /\
    console w' =
      [] ++ CompilationError (log_path "resume_Ada") ::
        (if String.eqb "! Emergency stop." EmptyString then []
         else [CompilerErrorOutput "! Emergency stop."]) /\
    (forall p, p <> aux_path "resume_Ada" -> p <> log_path "resume_Ada" ->
       files w' !! p =
       (<["output/resume_Ada.log" := "This is pdfTeX"]>
          (<["output/resume_Ada.pdf" := "%PDF-1.5"]>
             (<["output/resume_Ada.aux" := "\relax"]>
                (<["output/resume_Ada.tex" := "\documentclass{article}"]> ∅)))
          : gmap string string) !! p).
Proof.
  apply (compile_latex_to_pdf_second_run_fails flaky_pdflatex "\documentclass{article}"
           "resume_Ada" (World ∅ ∅ []) 1 "" "! Emergency stop."
           (<["output/resume_Ada.pdf" := "%PDF-1.5"]>
              (<["output/resume_Ada.aux" := "\relax"]>
                 (<["output/resume_Ada.tex" := "\documentclass{article}"]> ∅)))).
  - reflexivity.
  - reflexivity.
  - reflexivity.
  - apply not_elem_of_empty.
  - reflexivity.
  - reflexivity.
  - discriminate.
Defined.

Lemma subprocess_run_other tc args w p :
  (forall args fs, snd (run_pdflatex tc args fs) !! p = fs !! p) ->
  files (snd (subprocess_run tc args w)) !! p = files w !! p /\
  locked (snd (subprocess_run tc args w)) = locked w.
Proof.
  intros Htool. unfold subprocess_run. specialize (Htool args (files w)).
  destruct (run_pdflatex tc args (files w)) as [[status stderr] fs].
  by destruct (Z.eqb status 0).
Qed.

(** X11.  Whatever the tool does and however the call ends,
    [compile_latex_to_pdf] itself touches three files only: a file other
    than the [.tex], [.aux] and [.log] file of the document, which the
    tool leaves alone, is after the call what it was before. *)
Theorem compile_latex_to_pdf_frame (tc : toolchain) (latex_code filename_base : string)
    (w : world) (p : string) :
  p <> tex_path filename_base -> p <> aux_path filename_base ->
  p <> log_path filename_base ->
  (forall args fs, snd (run_pdflatex tc args fs) !! p = fs !! p) ->
  files (snd (compile_latex_to_pdf tc latex_code filename_base w)) !! p = files w !! p.
Proof.
  intros Ht Ha Hl Htool. unfold compile_latex_to_pdf.
  destruct (which_pdflatex tc); cbn [negb]; [|done].
  fold (tex_path filename_base). unfold write_file.
  case_bool_decide; [done|].
  set (w1 := set_files _ w).
  assert (H1 : files w1 !! p = files w !! p) by (cbn; by rewrite lookup_insert_ne).
  destruct (subprocess_run_other tc
              ["pdflatex"; "-interaction=nonstopmode"; "-output-directory"; "output";
               tex_path filename_base] w1 p Htool) as [H2 _].
  destruct (subprocess_run tc _ w1) as [[stderr|[]] w2]; cbn [snd] in H2.
  - match goal with |- context [cleanup _ _ ?w0] =>
      destruct (cleanup_spec filename_base w0) as (_ & _ & Hother & _) end.
    cbn [snd]. rewrite Hother by done.
    destruct (negb _); cbn; congruence.
  - destruct (subprocess_run_other tc
              ["pdflatex"; "-interaction=nonstopmode"; "-output-directory"; "output";
               tex_path filename_base] w2 p Htool) as [H3 _].
    destruct (subprocess_run tc _ w2) as [[stderr|[]] w3]; cbn [snd] in H3.
    + match goal with |- context [cleanup _ _ ?w0] =>
        destruct (cleanup_spec filename_base w0) as (_ & _ & Hother & _) end.
      cbn [snd]. rewrite Hother by done.
      destruct (negb _); cbn; congruence.
    + match goal with |- context [cleanup _ _ ?w0] =>
        destruct (cleanup_spec filename_base w0) as (_ & _ & Hother & _) end.
      cbn [snd]. rewrite Hother by done. cbn. congruence.
Qed.

Lemma compile_latex_to_pdf_frame_witness :
  files (snd (compile_latex_to_pdf working_pdflatex "\documentclass{article}" "cv"
                (World {[ "profiles/ada.json" := "{}" ]} ∅ []))) !! "profiles/ada.json" =
  files (World {[ "profiles/ada.json" := "{}" ]} ∅ []) !! "profiles/ada.json".
Proof.
  apply (compile_latex_to_pdf_frame working_pdflatex "\documentclass{article}" "cv"
           (World {[ "profiles/ada.json" := "{}" ]} ∅ []) "profiles/ada.json").
  - discriminate.
  - discriminate.
  - discriminate.
  - intros args fs. cbn [working_pdflatex run_pdflatex snd].
    by rewrite !lookup_insert_ne.
Defined.

End CompilerFacts.

(** ** Template renderer *)

Module RendererFacts.
Import StrFacts Py Sys Renderer.



(** Inside a replacement field, plain characters extend the name. *)
Lemma format_from_field kw (name post : string) :
  forall acc out,
    all_chars plain_char name = true ->
    format_from kw (FField acc) out (name +:+ "}" +:+ post) =
    (v <- field_value kw (acc +:+ name) ;;; format_from kw FText (out +:+ v) post).
Proof.
  induction name as [|c name IH]; intros acc out H.
  - rewrite append_empty_l, append_empty_r, append_cons. cbn [format_from].
    by rewrite bool_decide_eq_true_2.
  - cbn [all_chars] in H. apply andb_prop in H as [Hc H].
    unfold plain_char in Hc.
    apply andb_prop in Hc as [[H1 H2]%andb_prop H3].
    rewrite append_cons. cbn [format_from].
    apply negb_true_iff in H1; apply negb_true_iff in H2; apply negb_true_iff in H3. rewrite H1, H2, H3.
    rewrite (IH _ _ H). unfold snoc. by rewrite append_assoc.
Qed.








Lemma format_from_text kw (s rest out : string) :
  brace_free s = true ->
  format_from kw FText out (s +:+ rest) = format_from kw FText (out +:+ s) rest.
Proof.
  revert out. induction s as [|c s IH]; intros out H.
  - by rewrite append_empty_l, append_empty_r.
  - cbn [brace_free all_chars] in H. apply andb_prop in H as [[H1 H2]%andb_prop H].
    apply negb_true_iff in H1; apply negb_true_iff in H2.
    rewrite append_cons. cbn [format_from]. rewrite H1, H2.
    rewrite (IH _ H). unfold snoc. by rewrite append_assoc.
Qed.

Lemma format_from_piece kw (p : piece) (rest out : string) :
  well_formed p = true ->
  format_from kw FText out (piece_source p +:+ rest) =
  (a <- render_piece kw p ;;; format_from kw FText (out +:+ a) rest).
Proof.
  destruct p as [s|name| |]; cbn [well_formed piece_source render_piece]; intros H.
  - cbn [bind]. by apply format_from_text.
  - unfold plain_name in H. apply andb_prop in H as [Hn Hd].
    destruct name as [|c name]; [discriminate Hd|].
    cbn [all_chars] in Hn. apply andb_prop in Hn as [Hc Hn].
    unfold plain_char in Hc. apply andb_prop in Hc as [[H1 H2]%andb_prop H3].
    apply negb_true_iff in H1; apply negb_true_iff in H2; apply negb_true_iff in H3.
    rewrite !append_cons, append_empty_l. cbn [format_from].
    rewrite bool_decide_eq_true_2 by done.
    rewrite append_cons. cbn [format_from]. rewrite H1, H2, H3.
    rewrite append_assoc, (format_from_field _ _ _ _ _ Hn).
    rewrite append_cons, append_empty_l.
    unfold field_value. apply negb_true_iff in Hd. rewrite Hd.
    by destruct (assoc _ kw).
  - rewrite !append_cons, append_empty_l. reflexivity.
  - rewrite !append_cons, append_empty_l. reflexivity.
Qed.

Lemma format_from_pieces kw (ps : list piece) (out : string) :
  forallb well_formed ps = true ->
  format_from kw FText out (template_source ps) =
  (r <- render kw ps ;;; Ret (out +:+ r)).
Proof.
  revert out. induction ps as [|p ps IH]; intros out H.
  - cbn. by rewrite append_empty_r.
  - cbn [forallb] in H. apply andb_prop in H as [Hp H].
    unfold template_source. cbn [map Str.join foldr render].
    rewrite (format_from_piece _ _ _ _ Hp).
    destruct (render_piece kw p) as [a|e]; cbn [bind]; [|done].
    fold (Str.join (map piece_source ps)). fold (template_source ps).
    rewrite (IH _ H). destruct (render kw ps); cbn [bind]; [|done].
    by rewrite append_assoc.
Qed.

Lemma format_pieces kw (ps : list piece) :
  forallb well_formed ps = true -> format (template_source ps) kw = render kw ps.
Proof.
  intros H. unfold format. rewrite (format_from_pieces _ _ _ H).
  by destruct (render kw ps).
Qed.

(** X12.  For a template file that reading in text mode gives as it is
    stored (valid UTF-8, no carriage return), made of text without
    braces, replacement fields and doubled braces,
    [generate_resume_latex] returns the text with each
    field replaced by the value of that placeholder, put in as it is (a
    brace in a value is not read as a field), and each doubled brace
    replaced by one brace; it raises [KeyError] for the first field, from
    the left, that is no placeholder. *)
Theorem generate_resume_latex_renders (data : json) (template_name lowered : string)
    (w w' : world) (ps : list piece) (contact : json) (kw : list (string * string)) :
  lower template_name = Ret lowered ->
  files w !! path_join "templates" (Str.replace " " "_" lowered +:+ ".tex") =
    Some (template_source ps) ->
  read_text (template_source ps) = Ret (template_source ps) ->
  forallb well_formed ps = true ->
  get data "contact" (JDict []) = Ret contact ->
  resume_placeholders data contact w = (Ret kw, w') ->
  generate_resume_latex data template_name w =
    (out <- render kw ps ;;; Ret (Some out), w').
Proof.
  intros Hl Hf _ Hwf Hc Hp.
  unfold generate_resume_latex, io_bind, pure at 1. rewrite Hl, Hf.
  unfold pure at 1. rewrite Hc, Hp. unfold pure.
  rewrite (format_pieces _ _ Hwf). by destruct (render kw ps).
Qed.

Lemma generate_resume_latex_renders_witness :
  generate_resume_latex sample_profile "Modern"
    (World {[ "templates/modern.tex" :=
                template_source [Text "\name"; OpenBrace; Field "FULL_NAME"; CloseBrace;
                                 Text " "; Field "SUMMARY_SECTION"] ]} ∅ []) =
  (out <- render
            [ ("FULL_NAME", "Ada Lovelace"); ("EMAIL", ""); ("PHONE", "");
              ("LINKEDIN", ""); ("LINKEDIN_DISPLAY", "");
              ("SUMMARY_SECTION",
               "\section*{Summary}" +:+ Str.LF +:+ "Analyst \& engineer\vspace{10pt}" +:+ Str.LF);
              ("EXPERIENCE_SECTION", ""); ("EDUCATION_SECTION", "");
              ("SKILLS_SECTION", ""); ("LANGUAGES_SECTION", ""); ("PHOTO_BLOCK", "") ]
            [Text "\name"; OpenBrace; Field "FULL_NAME"; CloseBrace;
             Text " "; Field "SUMMARY_SECTION"] ;;;
   Ret (Some out),
   World {[ "templates/modern.tex" :=
              template_source [Text "\name"; OpenBrace; Field "FULL_NAME"; CloseBrace;
                               Text " "; Field "SUMMARY_SECTION"] ]} ∅ []).
Proof.
  eapply (generate_resume_latex_renders sample_profile "Modern" "modern").
  - reflexivity.
  - reflexivity.
  - reflexivity.
  - reflexivity.
  - reflexivity.
  - reflexivity.
Defined.

(** The rendered text of that template. *)
Example modern_template_rendered :
  fst (generate_resume_latex sample_profile "Modern"
         (World {[ "templates/modern.tex" := "\name{{{FULL_NAME}}} {SUMMARY_SECTION}" ]} ∅ [])) =
  Ret (Some ("\name{Ada Lovelace} \section*{Summary}" +:+ Str.LF +:+
             "Analyst \& engineer\vspace{10pt}" +:+ Str.LF)).
Proof. reflexivity. Qed.

(** X13.  When the template file is missing, [generate_resume_latex]
    returns [None] after one message that names the file, whatever the
    profile is: no section is built and no photo is copied. *)
Theorem generate_resume_latex_no_template (data : json) (template_name lowered : string)
    (w : world) :
  lower template_name = Ret lowered ->
  files w !! path_join "templates" (Str.replace " " "_" lowered +:+ ".tex") = None ->
  generate_resume_latex data template_name w =
    (Ret None,
     print (TemplateNotFound
              (path_join "templates" (Str.replace " " "_" lowered +:+ ".tex"))) w).
Proof.
  intros Hl Hf. unfold generate_resume_latex, io_bind, pure. by rewrite Hl, Hf.
Qed.

Lemma generate_resume_latex_no_template_witness :
  generate_resume_latex (JAtom SNone) "Photo Professional"
    (World {[ "templates/modern.tex" := "{FULL_NAME}" ]} ∅ []) =
  (Ret None,
   print (TemplateNotFound
            (path_join "templates" (Str.replace " " "_" "photo professional" +:+ ".tex")))
     (World {[ "templates/modern.tex" := "{FULL_NAME}" ]} ∅ [])).
Proof.
  apply (generate_resume_latex_no_template (JAtom SNone) "Photo Professional"
           "photo professional"); reflexivity.
Defined.

Lemma contains_slash_cons (c : ascii) (p : string) :
  Str.contains "/" (String c p) = Ascii.eqb c "/" || Str.contains "/" p.
Proof.
  cbn [Str.contains String.prefix]. destruct (ascii_dec "/" c) as [<-|Hne].
  - by destruct p.
  - assert (Ascii.eqb c "/" = false) as -> by (apply Ascii.eqb_neq; congruence). done.
Qed.

Lemma components_cons (p : string) : exists name names, components p = name :: names.
Proof.
  induction p as [|c p (name & names & IH)]; cbn [components]; [by eexists _, _|].
  destruct (Ascii.eqb c "/"); [by eexists _, _|]. rewrite IH. by eexists _, _.
Qed.

Lemma components_name (p : string) :
  Str.contains "/" p = false -> components p = [p].
Proof.
  induction p as [|c p IH]; [done|]. rewrite contains_slash_cons.
  intros [Hc Hp]%orb_false_elim. cbn [components]. by rewrite Hc, IH.
Qed.

Lemma basename_name (p : string) : Str.contains "/" (basename p) = false.
Proof.
  induction p as [|c p IH]; [done|]. cbn [basename].
  by destruct (Str.contains "/" (String c p)) eqn:E.
Qed.

Lemma basename_last (p : string) : last (components p) = Some (basename p).
Proof.
  induction p as [|c p IH]; [done|]. cbn [basename components].
  rewrite contains_slash_cons.
  destruct (components_cons p) as (name & names & Hp).
  destruct (Ascii.eqb c "/") eqn:Hc; cbn [orb].
  - by rewrite Hp, last_cons_cons, <- Hp.
  - destruct (Str.contains "/" p) eqn:Hs.
    + rewrite Hp in IH |- *. destruct names as [|name' names].
      * exfalso. cbn in IH. injection IH as ->.
        pose proof (basename_name p) as Hb.
        assert (components p = [basename p]) as Hcs by done.
        (* p has a slash, so it has two components *)
        clear -Hs Hcs. revert Hcs. generalize (basename p). clear -Hs.
        induction p as [|c p IH]; [done|]. intros b. rewrite contains_slash_cons in Hs.
        cbn [components]. destruct (Ascii.eqb c "/") eqn:Hc.
        -- destruct (components_cons p) as (n & ns & ->). intros H. inversion H.
        -- cbn [orb] in Hs. destruct (components_cons p) as (n & ns & E). rewrite E.
           intros [= <- ->]. by eapply IH.
      * by rewrite last_cons_cons in IH |- *.
    + rewrite (components_name p Hs). done.
Qed.

Lemma normal_path_dest (photo_path : string) :
  normal_path photo_path = true -> normal_path (photo_dest photo_path) = true.
Proof.
  unfold normal_path. intros Hn.
  pose proof (basename_last photo_path) as Hl. apply last_Some in Hl as [names Hl].
  rewrite Hl, forallb_app in Hn. apply andb_prop in Hn as [_ Hb].
  cbn [forallb] in Hb. rewrite andb_true_r in Hb.
  unfold photo_dest, path_join.
  assert (starts_with_slash (basename photo_path) = false) as ->.
  { pose proof (basename_name photo_path) as Hs.
    destruct (basename photo_path) as [|c b]; [done|].
    rewrite contains_slash_cons in Hs. apply orb_false_elim in Hs as [Hc _].
    cbn [starts_with_slash]. apply Ascii.eqb_neq in Hc.
    destruct c as [[] [] [] [] [] [] [] []]; try done. }
  replace (String.eqb "output" EmptyString || ends_with_slash "output") with false
    by reflexivity.
  change ("output" +:+ "/" +:+ basename photo_path)
    with (String "o" (String "u" (String "t" (String "p" (String "u" (String "t"
            (String "/" (basename photo_path)))))))).
  cbn [components Ascii.eqb Bool.eqb]. rewrite (components_name _ (basename_name _)).
  cbn [forallb]. by rewrite Hb.
Qed.

(** X14.  [build_photo_block] for a profile whose contact names a photo
    file that exists, by a path in normal form from the working
    directory: the file is copied into [output] under its base name and
    the block includes that base name, with slashes for backslashes;
    every other file is as it was.  When the photo is already that file
    in [output], or the copy cannot be written, the call raises and
    nothing changes. *)
Theorem build_photo_block_copies (data contact : json) (photo_path image : string)
    (w : world) :
  get data "contact" (JDict []) = Ret contact ->
  get contact "photo_path" JNone = Ret (JStr photo_path) ->
  files w !! photo_path = Some image ->
  normal_path photo_path = true ->
  build_photo_block data w =
    if String.eqb photo_path (photo_dest photo_path) ||
       bool_decide (photo_dest photo_path ∈ locked w)
    then (Raise OSError, w)
    else (Ret ("\includegraphics[width=0.8\textwidth]{" +:+
               Str.replace "\" "/" (basename photo_path) +:+ "}"),
          set_files (<[photo_dest photo_path := image]> (files w)) w).
Proof.
  intros Hc Hp Hf Hn.
  unfold build_photo_block, io_bind, pure, io_ret. rewrite Hc, Hp.
  unfold JStr. cbn [truthy scalar_truthy].
  assert (String.eqb photo_path EmptyString = false) as ->.
  { by destruct photo_path. }
  cbn [negb os_path_exists]. unfold path_exists. rewrite Hf.
  rewrite bool_decide_eq_true_2 by eauto. cbn [negb].
  unfold copy. fold (photo_dest photo_path).
  rewrite Hn, (normal_path_dest _ Hn), Hf. cbn [andb negb].
  destruct (String.eqb photo_path (photo_dest photo_path)); [done|]. cbn [orb].
  unfold write_file. by destruct (bool_decide _).
Qed.

Lemma build_photo_block_copies_witness :
  build_photo_block (JDict [("contact", JDict [("photo_path", JStr "photos/ada.jpg")])])
    (World {[ "photos/ada.jpg" := "JFIF" ]} ∅ []) =
  if String.eqb "photos/ada.jpg" (photo_dest "photos/ada.jpg") ||
     bool_decide (photo_dest "photos/ada.jpg" ∈ locked (World {[ "photos/ada.jpg" := "JFIF" ]} ∅ []))
  then (Raise OSError, World {[ "photos/ada.jpg" := "JFIF" ]} ∅ [])
  else (Ret ("\includegraphics[width=0.8\textwidth]{" +:+
             Str.replace "\" "/" (basename "photos/ada.jpg") +:+ "}"),
        set_files (<[photo_dest "photos/ada.jpg" := "JFIF"]>
                     (files (World {[ "photos/ada.jpg" := "JFIF" ]} ∅ [])))
          (World {[ "photos/ada.jpg" := "JFIF" ]} ∅ [])).
Proof.
  apply (build_photo_block_copies
           (JDict [("contact", JDict [("photo_path", JStr "photos/ada.jpg")])])
           (JDict [("photo_path", JStr "photos/ada.jpg")]) "photos/ada.jpg" "JFIF").
  - reflexivity.
  - reflexivity.
  - reflexivity.
  - reflexivity.
Defined.

(** A photo in [photos] is copied to [output]; a photo that is already
    in [output] makes the call raise. *)
Example photo_copied_to_output :
  build_photo_block (JDict [("contact", JDict [("photo_path", JStr "photos/ada.jpg")])])
    (World {[ "photos/ada.jpg" := "JFIF" ]} ∅ []) =
  (Ret "\includegraphics[width=0.8\textwidth]{ada.jpg}",
   World (<["output/ada.jpg" := "JFIF"]> {[ "photos/ada.jpg" := "JFIF" ]}) ∅ []).
Proof. reflexivity. Qed.

Example photo_in_output_raises :
  fst (build_photo_block (JDict [("contact", JDict [("photo_path", JStr "output/ada.jpg")])])
         (World {[ "output/ada.jpg" := "JFIF" ]} ∅ [])) = Raise OSError.
Proof. reflexivity. Qed.

Lemma sanitized_text_field (kvs : list (string * json)) (key dflt text : string) :
  text_field kvs key dflt = Some text ->
  (v <- get (JDict kvs) key (JStr dflt) ;;; Sanitizer.sanitize_for_latex v) =
  Ret (Sanitizer.escape_all text).
Proof.
  unfold text_field, get. destruct (assoc key kvs) as [[[| | |s]| |]|]; try done;
    intros [= ->]; cbn [bind]; apply SanitizerFacts.sanitize_for_latex_escape_all.
Qed.

Lemma cover_letter_placeholders_mapping (contact cl_data : list (string * json))
    (kw : list (string * string)) :
  cover_letter_mapping contact cl_data = Some kw ->
  cover_letter_placeholders (JDict contact) (JDict cl_data) = Ret kw.
Proof.
  unfold cover_letter_mapping. intros Hm.
  unfold cover_letter_placeholders. cbv zeta beta. revert Hm.
  destruct (text_field contact "full_name" "") as [a1|] eqn:E1; [|done].
  destruct (text_field contact "email" "") as [a2|] eqn:E2; [|done].
  destruct (text_field contact "phone" "") as [a3|] eqn:E3; [|done].
  destruct (text_field contact "linkedin" "") as [a4|] eqn:E4; [|done].
  destruct (text_field cl_data "hiring_manager" "Hiring Team") as [a5|] eqn:E5; [|done].
  destruct (text_field cl_data "company" "") as [a6|] eqn:E6; [|done].
  destruct (text_field cl_data "company_address" "") as [a7|] eqn:E7; [|done].
  destruct (text_field cl_data "job_title" "") as [a8|] eqn:E8; [|done].
  destruct (text_field cl_data "body" "") as [a9|] eqn:E9; [|done].
  intros Hm. simpl in Hm. injection Hm as <-.
  rewrite (sanitized_text_field _ _ _ _ E1). cbn [bind].
  rewrite (sanitized_text_field _ _ _ _ E2). cbn [bind].
  rewrite (sanitized_text_field _ _ _ _ E3). cbn [bind].
  rewrite (sanitized_text_field _ _ _ _ E4). cbn [bind].
  rewrite (sanitized_text_field _ _ _ _ E5). cbn [bind].
  rewrite (sanitized_text_field _ _ _ _ E6). cbn [bind].
  rewrite (sanitized_text_field _ _ _ _ E7). cbn [bind].
  rewrite (sanitized_text_field _ _ _ _ E8). cbn [bind].
  unfold text_field in E9. unfold get.
  destruct (assoc "body" cl_data) as [[[| | |s]| |]|]; try done; by injection E9 as ->.
Qed.

(** X15.  [generate_cover_letter_latex] for a template file whose text,
    as reading in text mode gives it, is made of text without braces,
    replacement fields and doubled braces, and a letter whose fields are
    texts: every placeholder but the body stands for the sanitized field
    ([Hiring Team] when the letter names no hiring manager), the body is
    put in as it was given, not sanitized; a field of the template that
    is none of the nine placeholders raises [KeyError].  Nothing is
    printed or written. *)
Theorem generate_cover_letter_latex_renders (resume_data : json)
    (contact cl_data : list (string * json)) (w : world) (content : string)
    (ps : list piece) (kw : list (string * string)) :
  files w !! path_join "templates" "cover_letter.tex" = Some content ->
  read_text content = Ret (template_source ps) ->
  forallb well_formed ps = true ->
  get resume_data "contact" (JDict []) = Ret (JDict contact) ->
  cover_letter_mapping contact cl_data = Some kw ->
  generate_cover_letter_latex resume_data (JDict cl_data) w =
    (out <- render kw ps ;;; Ret (Some out), w).
Proof.
  intros Hf Hread Hwf Hc Hm. unfold generate_cover_letter_latex. rewrite Hf.
  unfold io_bind, pure, io_ret. rewrite Hread, Hc.
  rewrite (cover_letter_placeholders_mapping _ _ _ Hm).
  rewrite (format_pieces _ _ Hwf). by destruct (render kw ps).
Qed.

Lemma generate_cover_letter_latex_renders_witness :
  generate_cover_letter_latex sample_profile
    (JDict [("company", JStr "Babbage & Sons"); ("job_title", JStr "Analyst");
            ("body", JStr "I admire your R\&D work.")])
    (World {[ "templates/cover_letter.tex" :=
                "Dear {HIRING_MANAGER} of {COMPANY}," +:+ Str.CR +:+ Str.LF +:+ "{BODY}" ]}
       ∅ []) =
  (out <- render
            [ ("FULL_NAME", "Ada Lovelace"); ("EMAIL", ""); ("PHONE", ""); ("LINKEDIN", "");
              ("HIRING_MANAGER", "Hiring Team"); ("COMPANY", "Babbage \& Sons");
              ("COMPANY_ADDRESS", ""); ("JOB_TITLE", "Analyst");
              ("BODY", "I admire your R\&D work.") ]
            [Text "Dear "; Field "HIRING_MANAGER"; Text " of ";
             Field "COMPANY"; Text ("," +:+ Str.LF); Field "BODY"] ;;;
   Ret (Some out),
   World {[ "templates/cover_letter.tex" :=
              "Dear {HIRING_MANAGER} of {COMPANY}," +:+ Str.CR +:+ Str.LF +:+ "{BODY}" ]}
     ∅ []).
Proof.
  apply (generate_cover_letter_latex_renders sample_profile
           [("full_name", JStr "Ada Lovelace")]
           [("company", JStr "Babbage & Sons"); ("job_title", JStr "Analyst");
            ("body", JStr "I admire your R\&D work.")]
           (World {[ "templates/cover_letter.tex" :=
                       "Dear {HIRING_MANAGER} of {COMPANY}," +:+ Str.CR +:+ Str.LF +:+ "{BODY}" ]}
              ∅ [])
           ("Dear {HIRING_MANAGER} of {COMPANY}," +:+ Str.CR +:+ Str.LF +:+ "{BODY}")
           [Text "Dear "; Field "HIRING_MANAGER"; Text " of ";
            Field "COMPANY"; Text ("," +:+ Str.LF); Field "BODY"]).
  - reflexivity.
  - reflexivity.
  - reflexivity.
  - reflexivity.
  - reflexivity.
Defined.

(** A template that is not UTF-8 cannot be read. *)
Example cover_letter_template_not_utf8 :
  fst (generate_cover_letter_latex sample_profile sample_letter
         (World {[ "templates/cover_letter.tex" :=
                     "Dear {HIRING_MANAGER}" +:+ String (ascii_of_nat 233) EmptyString ]}
            ∅ [])) =
  Raise ValueError.
Proof. reflexivity. Qed.

(** The letter that this template and these fields give. *)
Example cover_letter_rendered :
  fst (generate_cover_letter_latex sample_profile sample_letter
         (World {[ "templates/cover_letter.tex" := "Dear {HIRING_MANAGER} of {COMPANY}, {BODY}" ]}
            ∅ [])) =
  Ret (Some "Dear Hiring Team of Babbage \& Sons, I admire your R\&D work.").
Proof. reflexivity. Qed.

End RendererFacts.

(** ** Edit applier *)

Module ApplierFacts.
Import Applier.

Lemma heap_wf_lookup h l o :
  heap_wf h = true -> h !! l = Some o -> obj_ok (length h) o = true.
Proof.
  unfold heap_wf. rewrite forallb_forall. intros H Hl.
  apply H, list_elem_of_In, list_elem_of_lookup. eauto.
Qed.

Lemma rename_mono m m' v : m ⊆ m' -> covered m v -> rename m' v = rename m v.
Proof.
  intros Hm. destruct v as [a|l]; [done|]. intros [y Hy]. cbn.
  by rewrite Hy, (lookup_weaken _ _ _ _ Hy Hm).
Qed.

Lemma covered_mono m m' v : m ⊆ m' -> covered m v -> covered m' v.
Proof.
  intros Hm. destruct v as [a|l]; [done|]. intros [y Hy].
  exists y. by eapply lookup_weaken.
Qed.

Lemma rename_obj_mono m m' o :
  m ⊆ m' -> obj_covered m o -> rename_obj m' o = rename_obj m o.
Proof.
  intros Hm. destruct o as [xs|kvs]; cbn; intros Hc; f_equal.
  - induction Hc as [|x xs Hx _ IH]; [done|]. cbn. by rewrite IH, (rename_mono m m').
  - induction Hc as [|[k x] xs Hx _ IH]; [done|]. cbn in *.
    by rewrite IH, (rename_mono m m').
Qed.

Lemma obj_covered_mono m m' o : m ⊆ m' -> obj_covered m o -> obj_covered m' o.
Proof.
  intros Hm. destruct o as [xs|kvs]; cbn; intros H; eapply Forall_impl; [exact H| |exact H|];
    intros; by eapply covered_mono.
Qed.

Lemma mbind_ok {A B} (m : M A) (k : A -> M B) s a s' :
  m s = Ok a s' -> mbind m k s = k a s'.
Proof. unfold mbind. by intros ->. Qed.

Lemma read_ok l o h c : h !! l = Some o -> read l (State h c) = Ok o (State h c).
Proof. unfold read. cbn. by intros ->. Qed.

Lemma val_new_mono n0 n n' v : n <= n' -> val_new n0 n v -> val_new n0 n' v.
Proof. destruct v; cbn; [done|lia]. Qed.

Lemma obj_new_mono n0 n n' o : n <= n' -> obj_new n0 n o -> obj_new n0 n' o.
Proof.
  intros Hn. destruct o; cbn; intros H; eapply Forall_impl; [exact H| |exact H|];
    intros; by eapply val_new_mono.
Qed.

Lemma dict_set_fresh k v kvs :
  k ∉ map fst kvs -> dict_set k v kvs = kvs ++ [(k, v)].
Proof.
  induction kvs as [|[k' v'] kvs IH]; [done|]. cbn [map fst dict_set].
  intros [Hne Hk]%not_elem_of_cons.
  destruct (String.eqb k' k) eqn:E.
  - apply String.eqb_eq in E. congruence.
  - cbn. by rewrite IH.
Qed.

Section deepcopy_spec.
Variable h0 : list obj.
Hypothesis Hwf : heap_wf h0 = true.
Local Abbreviation N0 := (length h0).
Local Abbreviation inv := (Applier.inv h0).
Local Abbreviation inv_old := (Applier.inv_old h0).
Local Abbreviation inv_len := (Applier.inv_len h0).
Local Abbreviation inv_src := (Applier.inv_src h0).
Local Abbreviation inv_tgt := (Applier.inv_tgt h0).
Local Abbreviation inv_new := (Applier.inv_new h0).
Local Abbreviation copied := (Applier.copied h0).
Local Abbreviation post := (Applier.post h0).
Local Abbreviation post_inv := (Applier.post_inv h0).
Local Abbreviation post_memo := (Applier.post_memo h0).
Local Abbreviation post_len := (Applier.post_len h0).
Local Abbreviation post_keep := (Applier.post_keep h0).
Local Abbreviation post_val := (Applier.post_val h0).
Local Abbreviation post_cov := (Applier.post_cov h0).
Local Abbreviation post_fresh := (Applier.post_fresh h0).
Local Abbreviation deepcopy_ok := (Applier.deepcopy_ok h0).

Lemma memo_size m h : inv m h -> size m <= N0.
Proof.
  intros Hi. rewrite <- (size_dom (D := gset loc)).
  rewrite <- (size_set_seq (C := gset nat) 0 N0).
  apply subseteq_size. intros l [y Hy]%elem_of_dom.
  apply elem_of_set_seq. pose proof (inv_src _ _ Hi _ _ Hy). lia.
Qed.

Lemma rename_new m h v : inv m h -> covered m v -> val_new N0 (length h) (rename m v).
Proof.
  intros Hi. destruct v as [a|l]; [done|]. intros [y Hy]. cbn. rewrite Hy. cbn.
  by eapply inv_tgt.
Qed.

Lemma old_obj_ok l o : h0 !! l = Some o -> obj_ok N0 o = true.
Proof. by apply heap_wf_lookup. Qed.

Lemma copied_mono m m' h h' l y :
  m ⊆ m' -> h' !! y = h !! y -> copied m h l y -> copied m' h' l y.
Proof.
  intros Hm Hh (o & Ho & Hc & Hy). exists o. split; [done|]. split.
  - by eapply obj_covered_mono.
  - by rewrite Hh, (rename_obj_mono m m').
Qed.

Lemma copied_lt m h l y : copied m h l y -> y < length h.
Proof. intros (o & _ & _ & Hy). by eapply lookup_lt_Some. Qed.

(** Storing a value of the copy in a new object keeps the invariant. *)
Lemma inv_write m h y o :
  inv m h -> N0 <= y -> obj_new N0 (length h) o -> inv m (<[y := o]> h).
Proof.
  intros Hi Hy Ho. split.
  - intros l Hl. rewrite list_lookup_insert_ne by lia. by apply (inv_old _ _ Hi).
  - rewrite length_insert. by apply (inv_len _ _ Hi).
  - apply (inv_src _ _ Hi).
  - intros l z Hz. rewrite length_insert. by apply (inv_tgt _ _ Hi l).
  - intros l o' Hl. rewrite length_insert.
    destruct (decide (l = y)) as [->|Hne].
    + intros Ho'. assert (y < length h).
      { apply lookup_lt_Some in Ho'. by rewrite length_insert in Ho'. }
      rewrite list_lookup_insert_eq in Ho' by done. by injection Ho' as <-.
    + rewrite list_lookup_insert_ne by done. by apply (inv_new _ _ Hi).
Qed.

Lemma copy_list_loop f y m1 c :
  deepcopy_ok f -> N0 < f + size m1 -> N0 <= y ->
  forall todo done mi hi,
    forallb (val_ok N0) todo = true ->
    inv mi hi -> m1 ⊆ mi -> y < length hi ->
    hi !! y = Some (OList (map (rename mi) done)) ->
    Forall (covered mi) done ->
    exists m' h',
      for_each todo mi (fun memo a =>
        r <~ deepcopy f a memo ;;;
        let '(a', memo) := r in
        o <~ read y ;;;
        match o with
        | OList ys => _ <~ write y (OList (ys ++ [a'])) ;;; ret memo
        | ODict _ => stuck
        end) (State hi c) = Ok m' (State h' c) /\
      inv m' h' /\ mi ⊆ m' /\ length hi <= length h' /\
      (forall l, l < length hi -> l <> y -> h' !! l = hi !! l) /\
      h' !! y = Some (OList (map (rename m') (done ++ todo))) /\
      Forall (covered m') (done ++ todo) /\
      (forall k z, m' !! k = Some z -> mi !! k = None ->
         length hi <= z /\ copied m' h' k z).
Proof.
  intros IH Hfuel Hy0. induction todo as [|a todo IHl]; intros done mi hi Htodo Hi Hm Hy Hobj Hcov.
  - exists mi, hi. rewrite app_nil_r. cbn [for_each].
    split; [done|]. split; [done|]. split; [done|]. split; [done|].
    split; [done|]. split; [done|]. split; [done|].
    intros k z Hk Hk'. congruence.
  - cbn [forallb] in Htodo. apply andb_prop in Htodo as [Ha Htodo].
    destruct (IH a mi hi c Ha Hi) as (a' & m2 & h2 & Hrun & Hp).
    { pose proof (map_subseteq_size _ _ Hm). lia. }
    cbn [for_each]. erewrite mbind_ok; [|erewrite mbind_ok; [|exact Hrun]; cbn beta iota].
    2:{ erewrite mbind_ok; [|apply read_ok; rewrite (post_keep _ _ _ _ _ _ Hp) by done; exact Hobj].
        cbn beta iota. reflexivity. }
    set (h3 := <[y := OList (map (rename mi) done ++ [a'])]> h2).
    assert (Hi3 : inv m2 h3).
    { apply inv_write; [apply (post_inv _ _ _ _ _ _ Hp)|done|].
      cbn. apply Forall_app. split.
      - assert (Hy2 : h2 !! y = Some (OList (map (rename mi) done)))
          by (by rewrite (post_keep _ _ _ _ _ _ Hp)).
        apply (inv_new _ _ (post_inv _ _ _ _ _ _ Hp)) in Hy2; [|done]. exact Hy2.
      - constructor; [|constructor]. rewrite (post_val _ _ _ _ _ _ Hp).
        apply rename_new; [apply (post_inv _ _ _ _ _ _ Hp)|apply (post_cov _ _ _ _ _ _ Hp)]. }
    pose proof (post_memo _ _ _ _ _ _ Hp) as Hm2.
    pose proof (post_len _ _ _ _ _ _ Hp) as Hlen2.
    destruct (IHl (done ++ [a]) m2 h3 Htodo Hi3) as (m' & h' & Hloop & Hi' & Hm' & Hlen' & Hkeep' & Hy' & Hcov' & Hfresh').
    { by etrans. }
    { unfold h3. rewrite length_insert. lia. }
    { unfold h3. rewrite list_lookup_insert_eq by lia. rewrite map_app. cbn [map].
      f_equal. f_equal. f_equal; [|by rewrite (post_val _ _ _ _ _ _ Hp)].
      apply map_ext_Forall. eapply Forall_impl; [exact Hcov|].
      intros v Hv. cbn. symmetry. by apply rename_mono. }
    { apply Forall_app. split.
      - eapply Forall_impl; [exact Hcov|]. intros v. by apply covered_mono.
      - constructor; [apply (post_cov _ _ _ _ _ _ Hp)|constructor]. }
    exists m', h'. unfold h3 in *. rewrite length_insert in Hlen'.
    split; [exact Hloop|]. split; [done|]. split; [by etrans|]. split; [lia|].
    split; [|split; [by rewrite <- app_assoc in Hy'|split; [by rewrite <- app_assoc in Hcov'|]]].
    + intros l Hl Hne. rewrite Hkeep' by (rewrite ?length_insert; lia || done).
      rewrite list_lookup_insert_ne by done. by apply (post_keep _ _ _ _ _ _ Hp).
    + intros k z Hk Hk'. destruct (m2 !! k) as [z'|] eqn:Hk2.
      * assert (z' = z) as -> by (pose proof (lookup_weaken _ _ _ _ Hk2 Hm'); congruence).
        destruct (post_fresh _ _ _ _ _ _ Hp _ _ Hk2 Hk') as [Hz Hc].
        split; [done|]. eapply copied_mono; [exact Hm'| |exact Hc].
        rewrite Hkeep'; [|rewrite length_insert; by eapply copied_lt|lia].
        by rewrite list_lookup_insert_ne by lia.
      * destruct (Hfresh' _ _ Hk Hk2) as [Hz Hc]. rewrite length_insert in Hz.
        split; [lia|done].
Qed.

Lemma copy_dict_loop f y m1 c :
  deepcopy_ok f -> N0 < f + size m1 -> N0 <= y ->
  forall todo done mi hi,
    forallb (fun kv => val_ok N0 (snd kv)) todo = true ->
    NoDup (map fst (done ++ todo)) ->
    inv mi hi -> m1 ⊆ mi -> y < length hi ->
    hi !! y = Some (ODict (map (fun kv => (fst kv, rename mi (snd kv))) done)) ->
    Forall (fun kv => covered mi (snd kv)) done ->
    exists m' h',
      for_each todo mi (fun memo kv =>
        r <~ deepcopy f (snd kv) memo ;;;
        let '(v', memo) := r in
        o <~ read y ;;;
        match o with
        | ODict items => _ <~ write y (ODict (dict_set (fst kv) v' items)) ;;; ret memo
        | OList _ => stuck
        end) (State hi c) = Ok m' (State h' c) /\
      inv m' h' /\ mi ⊆ m' /\ length hi <= length h' /\
      (forall l, l < length hi -> l <> y -> h' !! l = hi !! l) /\
      h' !! y = Some (ODict (map (fun kv => (fst kv, rename m' (snd kv))) (done ++ todo))) /\
      Forall (fun kv => covered m' (snd kv)) (done ++ todo) /\
      (forall k z, m' !! k = Some z -> mi !! k = None ->
         length hi <= z /\ copied m' h' k z).
Proof.
  intros IH Hfuel Hy0.
  induction todo as [|a todo IHl]; intros done mi hi Htodo Hnd Hi Hm Hy Hobj Hcov.
  - exists mi, hi. rewrite app_nil_r. cbn [for_each].
    split; [done|]. split; [done|]. split; [done|]. split; [done|].
    split; [done|]. split; [done|]. split; [done|].
    intros k z Hk Hk'. congruence.
  - cbn [forallb] in Htodo. apply andb_prop in Htodo as [Ha Htodo].
    destruct (IH (snd a) mi hi c Ha Hi) as (a' & m2 & h2 & Hrun & Hp).
    { pose proof (map_subseteq_size _ _ Hm). lia. }
    cbn [for_each]. erewrite mbind_ok; [|erewrite mbind_ok; [|exact Hrun]; cbn beta iota].
    2:{ erewrite mbind_ok; [|apply read_ok; rewrite (post_keep _ _ _ _ _ _ Hp) by done; exact Hobj].
        cbn beta iota. reflexivity. }
    rewrite dict_set_fresh.
    2:{ rewrite map_map. cbn [fst]. rewrite map_app in Hnd. cbn [map] in Hnd.
        apply NoDup_app in Hnd as (_ & Hnd & _). intros Hin. apply (Hnd _ Hin). left. }
    set (h3 := <[y := ODict (map (fun kv => (fst kv, rename mi (snd kv))) done ++ [(fst a, a')])]> h2).
    assert (Hi3 : inv m2 h3).
    { apply inv_write; [apply (post_inv _ _ _ _ _ _ Hp)|done|].
      cbn. apply Forall_app. split.
      - assert (Hy2 : h2 !! y = Some (ODict (map (fun kv => (fst kv, rename mi (snd kv))) done)))
          by (by rewrite (post_keep _ _ _ _ _ _ Hp)).
        apply (inv_new _ _ (post_inv _ _ _ _ _ _ Hp)) in Hy2; [|done]. exact Hy2.
      - constructor; [|constructor]. cbn [snd]. rewrite (post_val _ _ _ _ _ _ Hp).
        apply rename_new; [apply (post_inv _ _ _ _ _ _ Hp)|apply (post_cov _ _ _ _ _ _ Hp)]. }
    pose proof (post_memo _ _ _ _ _ _ Hp) as Hm2.
    pose proof (post_len _ _ _ _ _ _ Hp) as Hlen2.
    destruct (IHl (done ++ [a]) m2 h3 Htodo) as (m' & h' & Hloop & Hi' & Hm' & Hlen' & Hkeep' & Hy' & Hcov' & Hfresh').
    { by rewrite <- app_assoc. }
    { done. }
    { by etrans. }
    { unfold h3. rewrite length_insert. lia. }
    { unfold h3. rewrite list_lookup_insert_eq by lia. rewrite map_app. cbn [map].
      f_equal. f_equal. f_equal; [|by rewrite (post_val _ _ _ _ _ _ Hp)].
      apply map_ext_Forall. eapply Forall_impl; [exact Hcov|].
      intros v Hv. cbn. f_equal. symmetry. by apply rename_mono. }
    { apply Forall_app. split.
      - eapply Forall_impl; [exact Hcov|]. intros v. by apply covered_mono.
      - constructor; [apply (post_cov _ _ _ _ _ _ Hp)|constructor]. }
    exists m', h'. unfold h3 in *. rewrite length_insert in Hlen'.
    split; [exact Hloop|]. split; [done|]. split; [by etrans|]. split; [lia|].
    split; [|split; [by rewrite <- app_assoc in Hy'|split; [by rewrite <- app_assoc in Hcov'|]]].
    + intros l Hl Hne. rewrite Hkeep' by (rewrite ?length_insert; lia || done).
      rewrite list_lookup_insert_ne by done. by apply (post_keep _ _ _ _ _ _ Hp).
    + intros k z Hk Hk'. destruct (m2 !! k) as [z'|] eqn:Hk2.
      * assert (z' = z) as -> by (pose proof (lookup_weaken _ _ _ _ Hk2 Hm'); congruence).
        destruct (post_fresh _ _ _ _ _ _ Hp _ _ Hk2 Hk') as [Hz Hc].
        split; [done|]. eapply copied_mono; [exact Hm'| |exact Hc].
        rewrite Hkeep'; [|rewrite length_insert; by eapply copied_lt|lia].
        by rewrite list_lookup_insert_ne by lia.
      * destruct (Hfresh' _ _ Hk Hk2) as [Hz Hc]. rewrite length_insert in Hz.
        split; [lia|done].
Qed.

Lemma inv_alloc m h l o :
  inv m h -> m !! l = None -> l < N0 -> obj_new N0 (S (length h)) o ->
  inv (<[l := length h]> m) (h ++ [o]).
Proof.
  intros Hi Hl Hl0 Ho. pose proof (inv_len _ _ Hi) as Hlen. split.
  - intros k Hk. rewrite lookup_app_l by lia. by apply (inv_old _ _ Hi).
  - rewrite length_app. cbn. lia.
  - intros k y [[-> <-]|[_ Hk]]%lookup_insert_Some; [done|]. by eapply (inv_src _ _ Hi).
  - intros k y [[-> <-]|[_ Hk]]%lookup_insert_Some; rewrite length_app; cbn; [lia|].
    pose proof (inv_tgt _ _ Hi _ _ Hk). lia.
  - intros k o' Hk. rewrite length_app, Nat.add_1_r.
    destruct (decide (k < length h)) as [Hlt|Hge].
    + rewrite lookup_app_l by done. intros Ho'.
      eapply obj_new_mono; [|by eapply (inv_new _ _ Hi)]. lia.
    + intros Ho'. assert (k = length h) as ->.
      { apply lookup_lt_Some in Ho'. rewrite length_app in Ho'. cbn in Ho'. lia. }
      rewrite list_lookup_middle in Ho' by done. by injection Ho' as <-.
Qed.

(** [deepcopy] returns, with enough fuel for the objects not yet in the
    memo, and what it returns is the copy. *)
Lemma deepcopy_spec fuel : deepcopy_ok fuel.
Proof.
  induction fuel as [|f IH]; intros x m h c Hx Hi Hfuel.
  { pose proof (memo_size _ _ Hi). lia. }
  destruct x as [a|l].
  { exists (VAtom a), m, h. split; [done|]. split; try done.
    intros l y Hl Hl'. congruence. }
  cbn [deepcopy]. destruct (m !! l) as [y|] eqn:Hl.
  { exists (VRef y), m, h. split; [done|]. split; try done.
    - cbn. by rewrite Hl.
    - cbn. by rewrite Hl.
    - intros k z Hk Hk'. congruence. }
  cbn [val_ok] in Hx. apply Nat.ltb_lt in Hx.
  destruct (lookup_lt_is_Some_2 h0 l Hx) as [o Ho].
  pose proof (old_obj_ok _ _ Ho) as Hok.
  erewrite mbind_ok; [|apply read_ok; by rewrite (inv_old _ _ Hi)].
  pose proof (inv_len _ _ Hi) as Hlen.
  assert (Hsz : N0 < f + size (<[l := length h]> m)).
  { rewrite map_size_insert_None by done. lia. }
  destruct o as [xs|kvs].
  - cbn [obj_ok] in Hok.
    erewrite mbind_ok; [|reflexivity]. cbn [heap console].
    destruct (copy_list_loop f (length h) (<[l := length h]> m) c IH Hsz Hlen
                xs [] (<[l := length h]> m) (h ++ [OList []]) Hok)
      as (m' & h' & Hloop & Hi' & Hm' & Hlen' & Hkeep' & Hy' & Hcov' & Hfresh').
    { apply inv_alloc; try done. constructor. }
    { done. }
    { rewrite length_app. cbn. lia. }
    { by rewrite list_lookup_middle. }
    { constructor. }
    erewrite mbind_ok; [|exact Hloop].
    rewrite length_app in Hlen', Hkeep', Hfresh'. cbn [length] in Hlen', Hkeep', Hfresh'.
    assert (Hly : m' !! l = Some (length h)).
    { eapply lookup_weaken; [|exact Hm']. apply lookup_insert_eq. }
    exists (VRef (length h)), m', h'. split; [done|]. split.
    + done.
    + etrans; [|exact Hm']. by apply insert_subseteq.
    + lia.
    + intros k Hk. rewrite Hkeep' by lia. by rewrite lookup_app_l.
    + cbn. by rewrite Hly.
    + cbn. by rewrite Hly.
    + intros k z Hk Hk'. destruct (decide (k = l)) as [->|Hne].
      * assert (z = length h) as -> by congruence. split; [done|].
        exists (OList xs). split; [done|]. split; [done|]. done.
      * destruct (Hfresh' k z Hk) as [Hz Hc]; [by rewrite lookup_insert_ne|].
        split; [lia|done].
  - cbn [obj_ok] in Hok. apply andb_prop in Hok as [Hok Hnd].
    apply bool_decide_eq_true in Hnd.
    erewrite mbind_ok; [|reflexivity]. cbn [heap console].
    destruct (copy_dict_loop f (length h) (<[l := length h]> m) c IH Hsz Hlen
                kvs [] (<[l := length h]> m) (h ++ [ODict []]) Hok)
      as (m' & h' & Hloop & Hi' & Hm' & Hlen' & Hkeep' & Hy' & Hcov' & Hfresh').
    { done. }
    { apply inv_alloc; try done. constructor. }
    { done. }
    { rewrite length_app. cbn. lia. }
    { by rewrite list_lookup_middle. }
    { constructor. }
    erewrite mbind_ok; [|exact Hloop].
    rewrite length_app in Hlen', Hkeep', Hfresh'. cbn [length] in Hlen', Hkeep', Hfresh'.
    assert (Hly : m' !! l = Some (length h)).
    { eapply lookup_weaken; [|exact Hm']. apply lookup_insert_eq. }
    exists (VRef (length h)), m', h'. split; [done|]. split.
    + done.
    + etrans; [|exact Hm']. by apply insert_subseteq.
    + lia.
    + intros k Hk. rewrite Hkeep' by lia. by rewrite lookup_app_l.
    + cbn. by rewrite Hly.
    + cbn. by rewrite Hly.
    + intros k z Hk Hk'. destruct (decide (k = l)) as [->|Hne].
      * assert (z = length h) as -> by congruence. split; [done|].
        exists (ODict kvs). split; [done|]. split; [done|]. done.
      * destruct (Hfresh' k z Hk) as [Hz Hc]; [by rewrite lookup_insert_ne|].
        split; [lia|done].
Qed.

End deepcopy_spec.

Lemma keeps_bind {A B : Type} I (m : M A) P (k : A -> M B) Q :
  keeps I m P -> (forall a, P a -> keeps I (k a) Q) -> keeps I (mbind m k) Q.
Proof.
  intros Hm Hk h c HI. specialize (Hm h c HI). unfold mbind.
  destruct (m (State h c)) as [a [h' c']|e s'|]; [|done|done].
  destruct Hm as [HI' HP]. by apply Hk.
Qed.

Lemma keeps_ret {A : Type} (I : list obj -> Prop) (a : A) (P : A -> Prop) :
  P a -> keeps I (ret a) P.
Proof. by intros H h c HI. Qed.

Lemma keeps_print I n : keeps I (print n) (fun _ => True).
Proof. intros h c HI. unfold print. by destruct (printable n). Qed.

Lemma keeps_edit_get I e k : keeps I (edit_get e k) (fun _ => True).
Proof. intros h c HI. unfold edit_get. by destruct (Py.assoc k e). Qed.

Lemma keeps_plus_one I k : keeps I (plus_one k) (fun _ => True).
Proof. intros h c HI. unfold plus_one. by destruct (as_index k). Qed.

Lemma keeps_try_except I (m handler : M unit) P :
  keeps I m P -> keeps I handler P -> keeps I (try_except m handler) P.
Proof.
  intros Hm Hh h c HI. specialize (Hm h c HI). unfold try_except.
  destruct (m (State h c)) as [a s'|e [h' c']|]; [done| |done].
  destruct e; try done; by apply Hh.
Qed.

(** *** The copy is written, the input is not *)

Section frame.
Variable h0 : list obj.
Variable memo : gmap loc loc.
Variable n : nat.
Local Abbreviation N0 := (length h0).
Local Abbreviation framed := (Applier.framed h0 memo n).

Lemma framed_lookup h l :
  framed h -> N0 <= l < n -> exists o, h !! l = Some o /\ obj_new N0 n o.
Proof.
  intros [Hi <-] Hl. destruct (lookup_lt_is_Some_2 h l) as [o Ho]; [lia|].
  exists o. split; [done|]. eapply inv_new; [done| |done]. lia.
Qed.

Lemma val_new_assoc k kvs x :
  Forall (fun kv => val_new N0 n (snd kv)) kvs -> Py.assoc k kvs = Some x -> val_new N0 n x.
Proof.
  induction 1 as [|[k' v] kvs Hv _ IH]; [done|]. cbn [Py.assoc].
  destruct (String.eqb k' k); [by intros [= <-]|done].
Qed.

Lemma frame_get v k dflt :
  val_new N0 n v -> val_new N0 n dflt -> keeps framed (get v k dflt) (val_new N0 n).
Proof.
  intros Hv Hd h c Hf. destruct v as [a|l]; [done|]. cbn in Hv.
  destruct (framed_lookup _ _ Hf Hv) as (o & Ho & Hnew).
  unfold get. erewrite mbind_ok; [|by apply read_ok].
  destruct o as [xs|kvs]; [done|]. cbn. split; [done|].
  destruct (Py.assoc k kvs) eqn:E; [|done]. by eapply val_new_assoc.
Qed.

Lemma frame_subscript v k :
  val_new N0 n v -> keeps framed (subscript v k) (val_new N0 n).
Proof.
  intros Hv h c Hf. destruct v as [a|l].
  - unfold subscript. destruct a as [| | |s]; try done.
    unfold mbind. destruct (sequence_index _ k); cbn; [|done].
    by destruct (_ !! a).
  - cbn in Hv. destruct (framed_lookup _ _ Hf Hv) as (o & Ho & Hnew).
    unfold subscript. erewrite mbind_ok; [|by apply read_ok].
    destruct o as [xs|kvs].
    + unfold mbind. destruct (sequence_index _ k) as [i|]; cbn; [|done].
      destruct (xs !! i) as [x|] eqn:Hx; cbn; [|done]. split; [done|].
      cbn in Hnew. by eapply Forall_lookup_1.
    + destruct k as [| | |key]; try done.
      destruct (Py.assoc key kvs) eqn:E; cbn; [|done]. split; [done|].
      by eapply val_new_assoc.
Qed.

Lemma frame_contains v a :
  val_new N0 n v -> keeps framed (contains v a) (fun _ => True).
Proof.
  intros Hv h c Hf. destruct v as [b|l].
  - unfold contains. destruct b as [| | |s]; try done. by destruct a.
  - cbn in Hv. destruct (framed_lookup _ _ Hf Hv) as (o & Ho & Hnew).
    unfold contains. erewrite mbind_ok; [|by apply read_ok].
    destruct o as [xs|kvs]; [by cbn|]. destruct a; by cbn.
Qed.

Lemma framed_write h l o :
  framed h -> N0 <= l -> obj_new N0 n o -> framed (<[l := o]> h).
Proof.
  intros [Hi <-] Hl Ho. split; [by apply inv_write|by rewrite length_insert].
Qed.

Lemma obj_new_dict_set k x kvs :
  val_new N0 n x -> obj_new N0 n (ODict kvs) -> obj_new N0 n (ODict (dict_set k x kvs)).
Proof.
  intros Hx. cbn. induction 1 as [|[k' v] kvs Hv Hkvs IH]; cbn.
  - by repeat constructor.
  - destruct (String.eqb k' k); constructor; cbn; done.
Qed.

Lemma frame_setitem_key v k x :
  val_new N0 n v -> val_new N0 n x -> keeps framed (setitem_key v k x) (fun _ => True).
Proof.
  intros Hv Hx h c Hf. destruct v as [b|l]; [done|].
  cbn in Hv. destruct (framed_lookup _ _ Hf Hv) as (o & Ho & Hnew).
  unfold setitem_key. erewrite mbind_ok; [|by apply read_ok].
  destruct o as [xs|kvs]; [done|]. cbn. split; [|done].
  apply framed_write; [done|lia|]. by apply obj_new_dict_set.
Qed.

Lemma frame_replace_first v a x :
  val_new N0 n v -> val_new N0 n x -> keeps framed (replace_first v a x) (fun _ => True).
Proof.
  intros Hv Hx h c Hf. destruct v as [b|l].
  - unfold replace_first. destruct b as [| | |s]; try done.
    destruct a; try done. by destruct (Str.contains _ s).
  - cbn in Hv. destruct (framed_lookup _ _ Hf Hv) as (o & Ho & Hnew).
    unfold replace_first. erewrite mbind_ok; [|by apply read_ok].
    destruct o as [xs|kvs]; [|done].
    destruct (first_index xs a) as [i|]; [|done]. cbn. split; [|done].
    apply framed_write; [done|lia|]. cbn in *.
    destruct (decide (i < length xs)) as [Hi|Hi].
    + apply Forall_insert; done.
    + by rewrite list_insert_ge by lia.
Qed.

Ltac frame_step :=
  first
    [ eapply keeps_bind; [apply keeps_edit_get|intros ? _]
    | eapply keeps_bind; [by apply frame_get|intros ? ?]
    | eapply keeps_bind; [by apply frame_subscript|intros ? ?]
    | eapply keeps_bind; [by apply frame_contains|intros ? _]
    | eapply keeps_bind; [by apply frame_setitem_key|intros ? _]
    | eapply keeps_bind; [by apply frame_replace_first|intros ? _]
    | eapply keeps_bind; [apply keeps_plus_one|intros ? _]
    | apply keeps_print
    | by apply keeps_ret ].

Lemma frame_apply_edit r e :
  val_new N0 n r -> keeps framed (apply_edit r e) (fun _ => True).
Proof.
  intros Hr. unfold apply_edit.
  repeat first
    [ frame_step
    | match goal with |- keeps _ (if ?b then _ else _) _ => destruct b end ].
Qed.

Lemma frame_apply_edits r es :
  val_new N0 n r -> keeps framed (apply_edits r es) (fun _ => True).
Proof.
  intros Hr. induction es as [|e es IH]; [by apply keeps_ret|].
  cbn [apply_edits]. eapply keeps_bind; [|intros ? _; exact IH].
  apply keeps_try_except; [by apply frame_apply_edit|apply keeps_print].
Qed.

End frame.

(** The deep copy that [apply_ai_edits] starts with. *)
Lemma deepcopy_top h c root :
  heap_wf h = true -> val_ok (length h) root = true ->
  exists m h1,
    deepcopy (S (length h)) root ∅ (State h c) = Ok (rename m root, m) (State h1 c) /\
    inv h m h1 /\ covered m root /\
    (forall l y, m !! l = Some y -> copied h m h1 l y).
Proof.
  intros Hwf Hroot.
  destruct (deepcopy_spec h Hwf (S (length h)) root ∅ h c Hroot) as (x' & m & h1 & Hrun & Hp).
  - split; try done.
    + intros l o Hl Ho. apply lookup_lt_Some in Ho. lia.
  - rewrite map_size_empty. lia.
  - exists m, h1. rewrite Hrun, (post_val _ _ _ _ _ _ _ Hp).
    split; [done|]. split; [apply (post_inv _ _ _ _ _ _ _ Hp)|].
    split; [apply (post_cov _ _ _ _ _ _ _ Hp)|].
    intros l y Hl. by apply (post_fresh _ _ _ _ _ _ _ Hp).
Qed.

Lemma mapM_ext_Forall {A B} (f g : A -> option B) (xs : list A) :
  Forall (fun x => f x = g x) xs -> mapM f xs = mapM g xs.
Proof. induction 1 as [|x xs Hx _ IH]; [done|]. cbn. by rewrite Hx, IH. Qed.

Lemma forallb_Forall_true {A} (p : A -> bool) (xs : list A) :
  forallb p xs = true -> Forall (fun x => p x = true) xs.
Proof.
  induction xs as [|x xs IH]; [constructor|]. cbn.
  intros [? ?]%andb_prop. constructor; auto.
Qed.

(** What the old objects stand for does not depend on the new ones. *)
Lemma reify_old h h' n v :
  heap_wf h = true -> (forall l, l < length h -> h' !! l = h !! l) ->
  val_ok (length h) v = true -> reify n h' v = reify n h v.
Proof.
  intros Hwf Hold. revert v. induction n as [|n IH]; intros v Hv; destruct v as [a|l]; try done.
  cbn in Hv. apply Nat.ltb_lt in Hv. cbn [reify]. rewrite (Hold _ Hv).
  destruct (h !! l) as [[xs|kvs]|] eqn:Hl; [| |done];
    pose proof (heap_wf_lookup _ _ _ Hwf Hl) as Hok; cbn in Hok.
  - f_equal. apply mapM_ext_Forall. apply forallb_Forall_true in Hok.
    eapply Forall_impl; [exact Hok|]. intros x Hx. by apply IH.
  - apply andb_prop in Hok as [Hok _]. f_equal. apply mapM_ext_Forall.
    apply forallb_Forall_true in Hok.
    eapply Forall_impl; [exact Hok|]. intros x Hx. cbn beta. by rewrite IH.
Qed.

Lemma take_old (h h' : list obj) :
  length h <= length h' -> (forall l, l < length h -> h' !! l = h !! l) ->
  take (length h) h' = h.
Proof.
  intros Hlen Hold. apply list_eq. intros i.
  destruct (decide (i < length h)) as [Hi|Hi].
  - rewrite lookup_take_lt by done. by apply Hold.
  - rewrite lookup_take_ge by lia. symmetry. apply lookup_ge_None. lia.
Qed.

(** C2. Whatever the edits, and whether the call returns or raises, the
    objects that existed before the call are what they were, so the input
    profile stands for the same tree at every depth; the profile returned
    is a scalar or an object allocated by the call.  The call does not get
    stuck. *)
Theorem apply_ai_edits_input_unchanged (h : list obj) (c : list notice)
    (resume_data : val) (edits : list edit) :
  heap_wf h = true ->
  val_ok (length h) resume_data = true ->
  match apply_ai_edits resume_data edits (State h c) with
  | Ok editable_resume s' =>
      take (length h) (heap s') = h /\
      (forall n, reify n (heap s') resume_data = reify n h resume_data) /\
      fresh_from (length h) editable_resume
  | Exc _ s' =>
      take (length h) (heap s') = h /\
      (forall n, reify n (heap s') resume_data = reify n h resume_data)
  | Stuck => False
  end.
Proof.
  intros Hwf Hroot.
  destruct (deepcopy_top h c resume_data Hwf Hroot) as (m & h1 & Hcopy & Hi & Hcov & _).
  unfold apply_ai_edits. cbn [heap]. erewrite mbind_ok; [|exact Hcopy]. cbn [fst].
  assert (Hnew : val_new (length h) (length h1) (rename m resume_data))
    by (by apply rename_new).
  pose proof (frame_apply_edits h m (length h1) _ edits Hnew h1 c (conj Hi eq_refl)) as Hloop.
  unfold mbind at 1.
  destruct (apply_edits _ edits _) as [[] [h2 c2]|e [h2 c2]|]; [| |done]; cbn in Hloop |- *.
  - destruct Hloop as [[Hi2 Hlen] _].
    pose proof (inv_old _ _ _ Hi2) as Hold. pose proof (inv_len _ _ _ Hi2).
    split; [by apply take_old|]. split; [intros n; by apply reify_old|].
    destruct (rename m resume_data); cbn in *; [done|lia].
  - destruct Hloop as [Hi2 Hlen].
    pose proof (inv_old _ _ _ Hi2) as Hold. pose proof (inv_len _ _ _ Hi2).
    split; [by apply take_old|]. intros n; by apply reify_old.
Qed.

Lemma apply_ai_edits_input_unchanged_witness :
  match apply_ai_edits sample_resume [summary_edit; skills_edit; last_entry_edit]
          (State sample_heap []) with
  | Ok editable_resume s' =>
      take (length sample_heap) (heap s') = sample_heap /\
      (forall n, reify n (heap s') sample_resume = reify n sample_heap sample_resume) /\
      fresh_from (length sample_heap) editable_resume
  | Exc _ s' =>
      take (length sample_heap) (heap s') = sample_heap /\
      (forall n, reify n (heap s') sample_resume = reify n sample_heap sample_resume)
  | Stuck => False
  end.
Proof.
  apply (apply_ai_edits_input_unchanged sample_heap [] sample_resume
           [summary_edit; skills_edit; last_entry_edit]); reflexivity.
Defined.

(** *** Reading the copy *)

Lemma assoc_rename m k kvs :
  Py.assoc k (map (fun kv => (fst kv, rename m (snd kv))) kvs) =
  rename m <$> Py.assoc k kvs.
Proof.
  induction kvs as [|[k' v] kvs IH]; [done|]. cbn [map Py.assoc fst snd].
  by destruct (String.eqb k' k).
Qed.

Lemma val_eq_rename m v a : val_eq (rename m v) a = val_eq v a.
Proof. destruct v as [b|l]; [done|]. cbn. by destruct (m !! l). Qed.

Lemma existsb_rename m xs a :
  existsb (fun x => val_eq x a) (map (rename m) xs) = existsb (fun x => val_eq x a) xs.
Proof. induction xs as [|x xs IH]; [done|]. cbn. by rewrite val_eq_rename, IH. Qed.

Lemma first_index_rename m xs a :
  first_index (map (rename m) xs) a = first_index xs a.
Proof. induction xs as [|x xs IH]; [done|]. cbn. by rewrite val_eq_rename, IH. Qed.

Lemma assoc_dict_set k v kvs k' :
  Py.assoc k' (dict_set k v kvs) = if String.eqb k k' then Some v else Py.assoc k' kvs.
Proof.
  induction kvs as [|[k0 v0] kvs IH]; cbn [dict_set Py.assoc].
  - done.
  - destruct (String.eqb k0 k) eqn:E0; cbn [Py.assoc].
    + apply String.eqb_eq in E0 as ->. by destruct (String.eqb k k').
    + rewrite IH. destruct (String.eqb k0 k') eqn:E1; [|done].
      apply String.eqb_eq in E1 as ->. by rewrite String.eqb_sym, E0.
Qed.

Section copy.
Variables (h h1 : list obj) (m : gmap loc loc).
Hypothesis Hwf : heap_wf h = true.
Hypothesis Hinv : inv h m h1.
Hypothesis Hcopied : forall l y, m !! l = Some y -> copied h m h1 l y.

Lemma copy_lookup l o :
  covered m (VRef l) -> h !! l = Some o ->
  exists y, rename m (VRef l) = VRef y /\ h1 !! y = Some (rename_obj m o) /\ obj_covered m o.
Proof.
  intros [y Hy] Hl. exists y. cbn. rewrite Hy. split; [done|].
  destruct (Hcopied _ _ Hy) as (o' & Ho' & Hc & Hy'). by simplify_eq.
Qed.

Lemma covered_assoc k kvs x :
  Forall (fun kv => covered m (snd kv)) kvs -> Py.assoc k kvs = Some x -> covered m x.
Proof.
  induction 1 as [|[k' v] kvs Hv _ IH]; [done|]. cbn [Py.assoc].
  destruct (String.eqb k' k); [by intros [= <-]|done].
Qed.

(** A field of a copied dict is the copy of the field. *)
Lemma copy_field v k x :
  covered m v -> field h v k = Some x ->
  field h1 (rename m v) k = Some (rename m x) /\ covered m x.
Proof.
  destruct v as [a|l]; [done|]. intros Hc. unfold field at 1.
  destruct (h !! l) as [[xs|kvs]|] eqn:Hl; try done. intros Hk.
  destruct (copy_lookup _ _ Hc Hl) as (y & -> & Hy & Hcov). cbn.
  rewrite Hy. cbn. rewrite assoc_rename, Hk. split; [done|].
  by eapply covered_assoc.
Qed.

Lemma copy_elements v xs :
  covered m v -> elements h v = Some xs ->
  elements h1 (rename m v) = Some (map (rename m) xs) /\ Forall (covered m) xs.
Proof.
  destruct v as [a|l]; [done|]. intros Hc. unfold elements at 1.
  destruct (h !! l) as [[ys|kvs]|] eqn:Hl; try done. intros [= ->].
  destruct (copy_lookup _ _ Hc Hl) as (y & -> & Hy & Hcov). cbn.
  by rewrite Hy.
Qed.

Lemma copy_current_summary v x :
  covered m v -> current_summary h v = Some x ->
  current_summary h1 (rename m v) = Some (rename m x).
Proof.
  destruct v as [a|l]; [done|]. intros Hc. unfold current_summary at 1.
  destruct (h !! l) as [[xs|kvs]|] eqn:Hl; try done. intros [= <-].
  destruct (copy_lookup _ _ Hc Hl) as (y & -> & Hy & Hcov). cbn.
  rewrite Hy. cbn. rewrite assoc_rename. by destruct (Py.assoc "summary" kvs).
Qed.


End copy.

(** The copy stands for the tree the input stands for, at every depth. *)
Lemma reify_copy_eq (h h1 : list obj) (m : gmap loc loc) :
  (forall l y, m !! l = Some y -> copied h m h1 l y) ->
  forall n v, covered m v -> reify n h1 (rename m v) = reify n h v.
Proof.
  intros Hcopied. induction n as [|n IH]; intros v Hc; destruct v as [a|l]; try done.
  - destruct Hc as [y Hy]. cbn [rename]. by rewrite Hy.
  - destruct Hc as [y Hy]. cbn [rename]. rewrite Hy.
    destruct (Hcopied _ _ Hy) as (o & Ho & Hcov & Hy'). cbn [reify]. rewrite Ho, Hy'.
    destruct o as [xs|kvs]; cbn [rename_obj]; f_equal.
    + cbn in Hcov. clear Ho Hy'. induction Hcov as [|x xs Hx _ IHxs]; [done|].
      cbn. rewrite IH by done. by rewrite IHxs.
    + cbn in Hcov. clear Ho Hy'. induction Hcov as [|[k x] kvs Hx _ IHkvs]; [done|].
      cbn. rewrite IH by done. by rewrite IHkvs.
Qed.

(** *** Single operations on a known store *)

Lemma get_field h c v k dflt x :
  current_summary h v = Some x -> k = "summary" -> dflt = VAtom (SStr "") ->
  get v k dflt (State h c) = Ok x (State h c).
Proof.
  intros Hs -> ->. destruct v as [a|l]; [done|]. unfold current_summary in Hs.
  destruct (h !! l) as [[xs|kvs]|] eqn:Hl; try done. injection Hs as <-.
  unfold get. erewrite mbind_ok; [|by apply read_ok]. done.
Qed.

Lemma edit_get_some e k a s : Py.assoc k e = Some a -> edit_get e k s = Ok a s.
Proof. unfold edit_get. by intros ->. Qed.

Lemma edit_get_none e k s :
  Py.assoc k e = None -> edit_get e k s = Exc (KeyError (SStr k)) s.
Proof. unfold edit_get. by intros ->. Qed.

Lemma current_summary_dict h v x :
  current_summary h v = Some x ->
  exists l kvs, v = VRef l /\ h !! l = Some (ODict kvs) /\
    x = match Py.assoc "summary" kvs with Some y => y | None => VAtom (SStr "") end.
Proof.
  destruct v as [a|l]; [done|]. unfold current_summary.
  destruct (h !! l) as [[xs|kvs]|] eqn:Hl; try done. intros [= <-]. eauto.
Qed.

(** One summary edit on a known store. *)
Lemma apply_edit_summary h c l kvs e cur o s :
  h !! l = Some (ODict kvs) ->
  current_summary h (VRef l) = Some (VAtom (SStr cur)) ->
  Py.assoc "section" e = Some (SStr "summary") ->
  Py.assoc "original_text" e = Some (SStr o) ->
  Py.assoc "suggested_text" e = Some s ->
  apply_edit (VRef l) e (State h c) =
  if String.eqb cur o
  then Ok () (State (<[l := ODict (dict_set "summary" (VAtom s) kvs)]> h)
                (c ++ [UpdatedSummary]))
  else Ok () (State h c).
Proof.
  intros Hl Hcur Hsec Horig Hsug. unfold apply_edit.
  erewrite mbind_ok; [|by apply edit_get_some]. cbn [scalar_eq String.eqb Ascii.eqb Bool.eqb].
  erewrite mbind_ok; [|by eapply get_field].
  erewrite mbind_ok; [|by apply edit_get_some]. cbn [val_eq scalar_eq].
  destruct (String.eqb cur o); [|done].
  erewrite mbind_ok; [|by apply edit_get_some].
  unfold setitem_key. erewrite mbind_ok; [|erewrite mbind_ok; [|by apply read_ok]; reflexivity].
  reflexivity.
Qed.

(** C1. A summary edit on a profile whose summary is a string: when the
    summary equals [original_text], character for character, the summary
    of the result is [suggested_text]; when it differs, the summary of
    the result is the summary of the input, and the result as a whole
    stands for the same tree as the input. *)
Theorem apply_ai_edits_summary (h : list obj) (c : list notice) (resume_data : val)
    (edit : edit) (summary original_text : string) (suggested_text : scalar) :
  heap_wf h = true ->
  val_ok (length h) resume_data = true ->
  current_summary h resume_data = Some (VAtom (SStr summary)) ->
  Py.assoc "section" edit = Some (SStr "summary") ->
  Py.assoc "original_text" edit = Some (SStr original_text) ->
  Py.assoc "suggested_text" edit = Some suggested_text ->
  exists editable_resume s',
    apply_ai_edits resume_data [edit] (State h c) = Ok editable_resume s' /\
    (summary = original_text ->
       field (heap s') editable_resume "summary" = Some (VAtom suggested_text)) /\
    (summary <> original_text ->
       current_summary (heap s') editable_resume = Some (VAtom (SStr summary)) /\
       forall n, reify n (heap s') editable_resume = reify n h resume_data).
Proof.
  intros Hwf Hroot Hcur Hsec Horig Hsug.
  destruct (deepcopy_top h c resume_data Hwf Hroot) as (m & h1 & Hcopy & Hi & Hcov & Hcopied).
  pose proof (copy_current_summary h h1 m Hcopied _ _ Hcov Hcur) as Hcur1. cbn [rename] in Hcur1.
  destruct (current_summary_dict _ _ _ Hcur1) as (l & kvs & Hv & Hl & _).
  unfold apply_ai_edits. cbn [heap]. erewrite mbind_ok; [|exact Hcopy]. cbn [fst].
  rewrite Hv in *. cbn [apply_edits]. unfold mbind at 1 2, try_except.
  rewrite (apply_edit_summary h1 c l kvs edit summary original_text suggested_text) by done.
  destruct (String.eqb summary original_text) eqn:E.
  - eexists _, _. split; [reflexivity|]. split.
    + intros _. cbn [heap field]. rewrite list_lookup_insert_eq by (by eapply lookup_lt_Some).
      by rewrite assoc_dict_set.
    + intros Hne. by apply String.eqb_eq in E.
  - eexists _, _. split; [reflexivity|]. split.
    + intros ->. by rewrite String.eqb_refl in E.
    + intros _. split; [done|]. intros n. rewrite <- Hv.
      by apply (reify_copy_eq h h1 m).
Qed.

Lemma apply_ai_edits_summary_witness :
  exists editable_resume s',
    apply_ai_edits sample_resume [summary_edit] (State sample_heap []) =
      Ok editable_resume s' /\
    ("Old summary"%string = "Old summary"%string ->
       field (heap s') editable_resume "summary" = Some (VAtom (SStr "New summary"))) /\
    ("Old summary"%string <> "Old summary"%string ->
       current_summary (heap s') editable_resume = Some (VAtom (SStr "Old summary")) /\
       forall n, reify n (heap s') editable_resume = reify n sample_heap sample_resume).
Proof.
  apply (apply_ai_edits_summary sample_heap [] sample_resume summary_edit
           "Old summary" "Old summary" (SStr "New summary")); reflexivity.
Defined.

(** The same edit on a profile whose summary is another text: the edit
    is skipped. *)
Example stale_summary_edit_skipped :
  exists editable_resume s',
    apply_ai_edits sample_resume [stale_edit] (State sample_heap []) =
      Ok editable_resume s' /\
    field (heap s') editable_resume "summary" = Some (VAtom (SStr "Old summary")) /\
    console s' = [].
Proof. vm_compute. eexists _, _. split; [reflexivity|]. split; reflexivity. Qed.

Lemma field_ref h v k x : field h v k = Some x ->
  exists l kvs, v = VRef l /\ h !! l = Some (ODict kvs) /\ Py.assoc k kvs = Some x.
Proof.
  destruct v as [a|l]; [done|]. unfold field.
  destruct (h !! l) as [[xs|kvs]|] eqn:Hl; try done. eauto.
Qed.

Lemma elements_ref h v xs : elements h v = Some xs ->
  exists l, v = VRef l /\ h !! l = Some (OList xs).
Proof.
  destruct v as [a|l]; [done|]. unfold elements.
  destruct (h !! l) as [[ys|kvs]|] eqn:Hl; try done. intros [= ->]. eauto.
Qed.

Lemma subscript_field h c v k x :
  field h v k = Some x -> subscript v (SStr k) (State h c) = Ok x (State h c).
Proof.
  intros (l & kvs & -> & Hl & Hk)%field_ref. unfold subscript.
  erewrite mbind_ok; [|by apply read_ok]. cbv beta iota. by rewrite Hk.
Qed.

Lemma subscript_no_field h c l kvs k :
  h !! l = Some (ODict kvs) -> Py.assoc k kvs = None ->
  subscript (VRef l) (SStr k) (State h c) = Exc (KeyError (SStr k)) (State h c).
Proof.
  intros Hl Hk. unfold subscript.
  erewrite mbind_ok; [|by apply read_ok]. cbv beta iota. by rewrite Hk.
Qed.

Lemma subscript_elements h c v xs k j x :
  elements h v = Some xs -> sequence_index (length xs) k = Ret j -> xs !! j = Some x ->
  subscript v k (State h c) = Ok x (State h c).
Proof.
  intros (l & -> & Hl)%elements_ref Hj Hx. unfold subscript.
  erewrite mbind_ok; [|by apply read_ok]. cbv beta iota. rewrite Hj.
  unfold lift, mbind, ret. by rewrite Hx.
Qed.

Lemma contains_elements h c v xs a :
  elements h v = Some xs ->
  contains v a (State h c) = Ok (existsb (fun x => val_eq x a) xs) (State h c).
Proof.
  intros (l & -> & Hl)%elements_ref. unfold contains.
  by erewrite mbind_ok; [|by apply read_ok].
Qed.

Lemma replace_first_elements h c l xs a i x :
  h !! l = Some (OList xs) -> first_index xs a = Some i ->
  replace_first (VRef l) a x (State h c) =
  Ok () (State (<[l := OList (<[i := x]> xs)]> h) c).
Proof.
  intros Hl Hi. unfold replace_first.
  erewrite mbind_ok; [|by apply read_ok]. cbv beta iota. by rewrite Hi.
Qed.

Lemma first_index_Some xs a i :
  first_index xs a = Some i ->
  exists b, xs !! i = Some (VAtom b) /\ scalar_eq b a = true.
Proof.
  revert i. induction xs as [|x xs IH]; intros i; [done|]. cbn [first_index].
  destruct (val_eq x a) eqn:E.
  - intros [= <-]. destruct x as [b|l]; [|done]. by exists b.
  - destruct (first_index xs a) as [j|]; [|done]. intros [= <-]. by apply IH.
Qed.

Lemma existsb_first_index xs a :
  existsb (fun x => val_eq x a) xs =
  match first_index xs a with Some _ => true | None => false end.
Proof.
  induction xs as [|x xs IH]; [done|]. cbn [existsb first_index].
  destruct (val_eq x a); [done|]. rewrite IH. by destruct (first_index xs a).
Qed.

(** One experience edit that finds its text, on a known store. *)
Lemma apply_edit_experience h c r e experience entries k j entry la accs i o s z :
  field h r "experience" = Some experience ->
  elements h experience = Some entries ->
  sequence_index (length entries) k = Ret j ->
  entries !! j = Some entry ->
  field h entry "accomplishments" = Some (VRef la) ->
  h !! la = Some (OList accs) ->
  first_index accs o = Some i ->
  as_index k = Some z ->
  Py.assoc "section" e = Some (SStr "experience") ->
  Py.assoc "entry_index" e = Some k ->
  Py.assoc "original_text" e = Some o ->
  Py.assoc "suggested_text" e = Some s ->
  apply_edit r e (State h c) =
  Ok () (State (<[la := OList (<[i := VAtom s]> accs)]> h)
           (c ++ [UpdatedAccomplishment (z + 1)])).
Proof.
  intros Hexp Hents Hj Hent Hacc Hla Hi Hz Hsec Hidx Horig Hsug. unfold apply_edit.
  erewrite mbind_ok; [|by apply edit_get_some]. cbn [scalar_eq String.eqb Ascii.eqb Bool.eqb].
  erewrite mbind_ok; [|by apply subscript_field].
  erewrite mbind_ok; [|by apply edit_get_some].
  erewrite mbind_ok; [|by eapply subscript_elements].
  erewrite mbind_ok; [|by apply subscript_field].
  erewrite mbind_ok; [|by apply edit_get_some].
  erewrite mbind_ok; [|apply contains_elements; cbn; by rewrite Hla].
  rewrite existsb_first_index, Hi.
  erewrite mbind_ok; [|by apply edit_get_some].
  erewrite mbind_ok; [|by apply edit_get_some].
  erewrite mbind_ok; [|by eapply replace_first_elements].
  erewrite mbind_ok; [|by apply edit_get_some].
  unfold plus_one. rewrite Hz. reflexivity.
Qed.

Lemma sequence_index_last n : sequence_index (S n) (SInt (-1)) = Ret n.
Proof.
  unfold sequence_index. cbn [as_index].
  replace (-1 <? 0)%Z with true by done.
  replace (0 <=? -1 + Z.of_nat (S n))%Z with true by (symmetry; apply Z.leb_le; lia).
  replace (-1 + Z.of_nat (S n) <? Z.of_nat (S n))%Z with true by (symmetry; apply Z.ltb_lt; lia).
  cbn [andb]. f_equal. lia.
Qed.

(** C9. An experience edit with [entry_index] -1 whose [original_text]
    is, first at position [i], among the accomplishments of the last
    entry: the call returns, and in the result the accomplishments of the
    last entry have [suggested_text] at position [i]. *)
Theorem apply_ai_edits_negative_index (h : list obj) (c : list notice)
    (resume_data experience entry accomplishments : val) (entries accs : list val)
    (edit : edit) (original_text suggested_text : scalar) (i : nat) :
  heap_wf h = true ->
  val_ok (length h) resume_data = true ->
  field h resume_data "experience" = Some experience ->
  elements h experience = Some (entries ++ [entry]) ->
  field h entry "accomplishments" = Some accomplishments ->
  elements h accomplishments = Some accs ->
  first_index accs original_text = Some i ->
  Py.assoc "section" edit = Some (SStr "experience") ->
  Py.assoc "entry_index" edit = Some (SInt (-1)) ->
  Py.assoc "original_text" edit = Some original_text ->
  Py.assoc "suggested_text" edit = Some suggested_text ->
  exists editable_resume s' experience' entries' entry' accomplishments' accs',
    apply_ai_edits resume_data [edit] (State h c) = Ok editable_resume s' /\
    field (heap s') editable_resume "experience" = Some experience' /\
    elements (heap s') experience' = Some (entries' ++ [entry']) /\
    length entries' = length entries /\
    field (heap s') entry' "accomplishments" = Some accomplishments' /\
    elements (heap s') accomplishments' = Some accs' /\
    length accs' = length accs /\
    accs' !! i = Some (VAtom suggested_text).
Proof.
  intros Hwf Hroot Hexp Hents Hacc Haccs Hi Hsec Hidx Horig Hsug.
  destruct (deepcopy_top h c resume_data Hwf Hroot) as (m & h1 & Hcopy & Hinv & Hcov & Hcopied).
  destruct (copy_field h h1 m Hcopied _ _ _ Hcov Hexp) as [Hexp1 Hcov1].
  destruct (copy_elements h h1 m Hcopied _ _ Hcov1 Hents) as [Hents1 Hcov2].
  rewrite map_app in Hents1. cbn [map] in Hents1.
  apply Forall_app in Hcov2 as [_ Hcov3]. apply Forall_cons in Hcov3 as [Hcov3 _].
  destruct (copy_field h h1 m Hcopied _ _ _ Hcov3 Hacc) as [Hacc1 Hcov4].
  destruct (copy_elements h h1 m Hcopied _ _ Hcov4 Haccs) as [Haccs1 _].
  destruct (elements_ref _ _ _ Haccs1) as (la & Hla & Hla1).
  rewrite Hla in Hacc1.
  pose proof (first_index_rename m accs original_text) as Hi1. rewrite Hi in Hi1.
  unfold apply_ai_edits. cbn [heap]. erewrite mbind_ok; [|exact Hcopy]. cbn [fst].
  cbn [apply_edits]. unfold mbind at 1 2, try_except.
  erewrite (apply_edit_experience h1 c _ edit _ _ (SInt (-1)) (length entries)); try done.
  2:{ rewrite length_app, length_map. cbn [length]. rewrite Nat.add_1_r.
      apply sequence_index_last. }
  2:{ apply list_lookup_middle. by rewrite length_map. }
  cbn [heap].
  destruct (first_index_Some _ _ _ Hi1) as (b & Hb & _).
  assert (Hlt : i < length (map (rename m) accs)) by (by eapply lookup_lt_Some).
  destruct (field_ref _ _ _ _ Hexp1) as (lr & kr & Hr & Hlr & Hkr).
  destruct (elements_ref _ _ _ Hents1) as (le & He & Hle).
  destruct (field_ref _ _ _ _ Hacc1) as (ld & kd & Hd & Hld & Hkd).
  set (h2 := <[la := OList (<[i := VAtom suggested_text]> (map (rename m) accs))]> h1).
  assert (Hlr2 : h2 !! lr = Some (ODict kr)).
  { unfold h2. rewrite list_lookup_insert_ne; [done|]. intros ->. congruence. }
  assert (Hld2 : h2 !! ld = Some (ODict kd)).
  { unfold h2. rewrite list_lookup_insert_ne; [done|]. intros ->. congruence. }
  assert (Hla2 : h2 !! la = Some (OList (<[i := VAtom suggested_text]> (map (rename m) accs)))).
  { unfold h2. rewrite list_lookup_insert_eq; [done|]. by eapply lookup_lt_Some. }
  assert (Hle2 : exists entries', h2 !! le = Some (OList (entries' ++ [rename m entry])) /\
                   length entries' = length entries).
  { destruct (decide (le = la)) as [->|Hne].
    - rewrite Hla2. rewrite Hle in Hla1. injection Hla1 as Heq. rewrite <- Heq in *.
      assert (i <> length (map (rename m) entries)).
      { intros ->. rewrite list_lookup_middle in Hb by done.
        rewrite Hd in Hb. discriminate. }
      rewrite length_app in Hlt. cbn [length] in Hlt.
      exists (<[i := VAtom suggested_text]> (map (rename m) entries)).
      rewrite insert_app_l by lia. split; [done|].
      by rewrite length_insert, length_map.
    - exists (map (rename m) entries). unfold h2.
      rewrite list_lookup_insert_ne by done. split; [done|]. by rewrite length_map. }
  destruct Hle2 as (entries' & Hle2 & Hlen).
  eexists _, _, (VRef le), entries', (rename m entry), (VRef la), _.
  split; [reflexivity|]. cbn [heap]. fold h2.
  split; [rewrite Hr; cbn; by rewrite Hlr2, Hkr, He|].
  split; [cbn; by rewrite Hle2|]. split; [done|].
  split; [rewrite Hd; cbn; by rewrite Hld2|].
  split; [cbn; by rewrite Hla2|].
  split; [by rewrite length_insert, length_map|].
  by apply list_lookup_insert_eq.
Qed.

Lemma apply_ai_edits_negative_index_witness :
  exists editable_resume s' experience' entries' entry' accomplishments' accs',
    apply_ai_edits sample_resume [last_entry_edit] (State sample_heap []) =
      Ok editable_resume s' /\
    field (heap s') editable_resume "experience" = Some experience' /\
    elements (heap s') experience' = Some (entries' ++ [entry']) /\
    length entries' = length (@nil val) /\
    field (heap s') entry' "accomplishments" = Some accomplishments' /\
    elements (heap s') accomplishments' = Some accs' /\
    length accs' = length [VAtom (SStr "Built X"); VAtom (SStr "Led Y")] /\
    accs' !! 1 = Some (VAtom (SStr "Led a team of five")).
Proof.
  apply (apply_ai_edits_negative_index sample_heap [] sample_resume
           (VRef 1) (VRef 2) (VRef 3) [] [VAtom (SStr "Built X"); VAtom (SStr "Led Y")]
           last_entry_edit (SStr "Led Y") (SStr "Led a team of five") 1); reflexivity.
Defined.

Lemma sequence_index_lt n k j : sequence_index n k = Ret j -> j < n.
Proof.
  unfold sequence_index. destruct (as_index k) as [i|]; [|done].
  destruct (_ && _) eqn:E; [|done]. intros [= <-].
  apply andb_prop in E as [H1%Z.leb_le H2%Z.ltb_lt]. lia.
Qed.

Lemma sequence_index_typed n k z :
  as_index k = Some z ->
  (exists j, sequence_index n k = Ret j) \/ sequence_index n k = Raise IndexError.
Proof.
  unfold sequence_index. intros ->. destruct (_ && _); eauto.
Qed.

Lemma sequence_index_out_of_range n k z :
  as_index k = Some z -> out_of_range n z = true -> sequence_index n k = Raise IndexError.
Proof.
  unfold sequence_index, out_of_range. intros -> H.
  destruct (_ && _) eqn:E; [|done]. exfalso.
  apply andb_prop in E as [H1%Z.leb_le H2%Z.ltb_lt].
  apply orb_prop in H as [H%Z.ltb_lt|H%Z.leb_le]; destruct (z <? 0)%Z eqn:Ez; lia.
Qed.

Lemma try_except_ok {A} (m handler : M A) s a s' :
  m s = Ok a s' -> try_except m handler s = Ok a s'.
Proof. unfold try_except. by intros ->. Qed.

Lemma print_could_not_apply e h c :
  markup_safe e = true ->
  print (CouldNotApply e) (State h c) = Ok () (State h (c ++ [CouldNotApply e])).
Proof. unfold print. cbn [printable]. by intros ->. Qed.

Lemma try_except_key_error (m : M unit) e s k h' c' :
  markup_safe e = true ->
  m s = Exc (KeyError k) (State h' c') ->
  try_except m (print (CouldNotApply e)) s =
  Ok () (State h' (c' ++ [CouldNotApply e])).
Proof. unfold try_except. intros He ->. by apply print_could_not_apply. Qed.

Lemma try_except_index_error (m : M unit) e s h' c' :
  markup_safe e = true ->
  m s = Exc IndexError (State h' c') ->
  try_except m (print (CouldNotApply e)) s =
  Ok () (State h' (c' ++ [CouldNotApply e])).
Proof. unfold try_except. intros He ->. by apply print_could_not_apply. Qed.

Lemma mbind_exc {A B} (m : M A) (k : A -> M B) s e s' :
  m s = Exc e s' -> mbind m k s = Exc e s'.
Proof. unfold mbind. by intros ->. Qed.

Lemma profile_shape_dict h r :
  profile_shape h r = true -> exists l kvs, r = VRef l /\ h !! l = Some (ODict kvs).
Proof.
  destruct r as [a|l]; [done|]. unfold profile_shape.
  destruct (h !! l) as [[xs|kvs]|] eqn:Hl; try done. intros _. by eexists _, _.
Qed.

Lemma profile_shape_current_summary h r :
  profile_shape h r = true -> exists x, current_summary h r = Some x.
Proof.
  intros (l & kvs & -> & Hl)%profile_shape_dict. unfold current_summary.
  rewrite Hl. eauto.
Qed.

Lemma quiet_try_except h (m : M unit) e s :
  markup_safe e = true ->
  quiet h (m s) ->
  exists c', try_except m (print (CouldNotApply e)) s = Ok () (State h c').
Proof.
  intros He. unfold quiet, try_except.
  destruct (m s) as [[] [h' c']|[] [h' c']|]; try done;
    cbn [heap]; intros ->; rewrite ?print_could_not_apply by done; eauto.
Qed.

Ltac quiet_raise lem :=
  erewrite mbind_exc; [|by eapply lem]; done.

(** An edit that matches nothing, or has no suggested text, changes
    nothing and raises at most what the [try] statement catches. *)
Lemma apply_edit_quiet h c r e :
  profile_shape h r = true -> index_typed e = true ->
  matches h r e = false \/ Py.assoc "suggested_text" e = None ->
  quiet h (apply_edit r e (State h c)).
Proof.
  intros Hshape Htyped Hskip. unfold apply_edit, matches, index_typed in *.
  destruct (Py.assoc "section" e) as [section|] eqn:Hsec;
    [|quiet_raise edit_get_none].
  erewrite (mbind_ok (edit_get e "section")); [|by apply edit_get_some].
  destruct (scalar_eq section (SStr "summary")).
  { destruct (profile_shape_current_summary _ _ Hshape) as [x Hx]. rewrite Hx in Hskip.
    erewrite (mbind_ok (get _ _ _)); [|by eapply get_field].
    destruct (Py.assoc "original_text" e) as [o|] eqn:Horig;
      [|quiet_raise edit_get_none].
    erewrite (mbind_ok (edit_get e "original_text")); [|by apply edit_get_some].
    destruct (val_eq x o); [|done].
    destruct Hskip as [?|Hsug]; [done|]. quiet_raise edit_get_none. }
  destruct (scalar_eq section (SStr "experience")); [|done].
  destruct (profile_shape_dict _ _ Hshape) as (l & kvs & -> & Hl).
  unfold profile_shape in Hshape. rewrite Hl in Hshape.
  destruct (Py.assoc "experience" kvs) as [ex|] eqn:Hex;
    [|quiet_raise subscript_no_field].
  erewrite (mbind_ok (subscript _ _)); [|apply subscript_field; cbn; by rewrite Hl].
  destruct (Py.assoc "entry_index" e) as [k|] eqn:Hidx;
    [|quiet_raise edit_get_none].
  erewrite (mbind_ok (edit_get e "entry_index")); [|by apply edit_get_some].
  apply bool_decide_eq_true in Htyped as [z Hz].
  destruct (elements h ex) as [entries|] eqn:Hents; [|done].
  destruct (elements_ref _ _ _ Hents) as (le & -> & Hle).
  destruct (sequence_index_typed (length entries) k z Hz) as [[j Hj]|Hj].
  2:{ erewrite mbind_exc; [|unfold subscript; erewrite mbind_ok; [|by apply read_ok];
                              cbv beta iota; by rewrite Hj]. done. }
  destruct (lookup_lt_is_Some_2 entries j (sequence_index_lt _ _ _ Hj)) as [entry Hentry].
  erewrite (mbind_ok (subscript _ _)); [|by eapply subscript_elements].
  apply forallb_Forall_true in Hshape.
  pose proof (Forall_lookup_1 _ _ _ _ Hshape Hentry) as Hok. cbn beta in Hok.
  destruct entry as [a|ld]; [done|]. unfold entry_ok in Hok.
  destruct (h !! ld) as [[xs|kd]|] eqn:Hld; try done.
  destruct (Py.assoc "accomplishments" kd) as [va|] eqn:Hva;
    [|quiet_raise subscript_no_field].
  erewrite (mbind_ok (subscript _ _)); [|apply subscript_field; cbn; by rewrite Hld].
  unfold accomplishments_ok in Hok.
  destruct (elements h va) as [accs|] eqn:Haccs; [|done].
  destruct (Py.assoc "original_text" e) as [o|] eqn:Horig;
    [|quiet_raise edit_get_none].
  erewrite (mbind_ok (edit_get e "original_text")); [|by apply edit_get_some].
  erewrite (mbind_ok (contains _ _)); [|by apply contains_elements].
  assert (Htarget : targeted_accomplishments h (VRef l) k = Some accs).
  { unfold targeted_accomplishments, field, elements in *.
    rewrite Hl, Hex. simpl. rewrite Hle. simpl. rewrite Hj, Hentry. simpl.
    by rewrite Hld, Hva. }
  rewrite Htarget in Hskip.
  destruct (existsb _ accs); [|done].
  destruct Hskip as [?|Hsug]; [done|]. quiet_raise edit_get_none.
Qed.

(** *** What the loop can change *)

Lemma obj_texts_changed_refl o : obj_texts_changed o o.
Proof.
  destruct o as [xs|kvs]; cbn; [|done].
  apply Forall2_same_length_lookup_2; [done|]. intros i x y Hx Hy. left. congruence.
Qed.

Lemma text_changed_trans x y z : text_changed x y -> text_changed y z -> text_changed x z.
Proof. intros [->|[? ?]] [->|[? ?]]; unfold text_changed; auto. Qed.

Lemma obj_texts_changed_trans o1 o2 o3 :
  obj_texts_changed o1 o2 -> obj_texts_changed o2 o3 -> obj_texts_changed o1 o3.
Proof.
  destruct o1 as [xs|kvs], o2 as [ys|kvs2], o3 as [zs|kvs3]; cbn; try done.
  - intros H1 H2. revert zs H2. induction H1 as [|x y xs ys Hxy _ IH]; intros zs H2.
    + by inversion H2.
    + inversion H2 as [|? z ? zs' Hyz Hzs]; subst. constructor; [|by apply IH].
      by eapply text_changed_trans.
  - intros H1 H2 k Hk. by rewrite H2, H1.
Qed.

Lemma texts_changed_refl h : texts_changed h h.
Proof. split; [done|]. intros l o Hl. exists o. split; [done|apply obj_texts_changed_refl]. Qed.

Lemma texts_changed_trans h1 h2 h3 :
  texts_changed h1 h2 -> texts_changed h2 h3 -> texts_changed h1 h3.
Proof.
  intros [Hl1 H1] [Hl2 H2]. split; [congruence|]. intros l o Ho.
  destruct (H1 _ _ Ho) as (o2 & Ho2 & Hc1). destruct (H2 _ _ Ho2) as (o3 & Ho3 & Hc2).
  exists o3. split; [done|]. by eapply obj_texts_changed_trans.
Qed.

Lemma texts_changed_write h l o o' :
  h !! l = Some o -> obj_texts_changed o o' -> texts_changed h (<[l := o']> h).
Proof.
  intros Hl Hc. split; [by rewrite length_insert|]. intros k ok Hk.
  destruct (decide (k = l)) as [->|Hne].
  - exists o'. rewrite list_lookup_insert_eq by (by eapply lookup_lt_Some).
    split; [done|]. congruence.
  - exists ok. rewrite list_lookup_insert_ne by done.
    split; [done|apply obj_texts_changed_refl].
Qed.

Lemma evolves_bind {A B : Type} (m : M A) (k : A -> M B) :
  evolves m -> (forall a, evolves (k a)) -> evolves (mbind m k).
Proof.
  intros Hm Hk h c. specialize (Hm h c). unfold mbind.
  destruct (m (State h c)) as [a [h' c']|e s'|]; [|done|done].
  specialize (Hk a h' c'). destruct (k a _) as [b s2|e s2|]; [| |done];
    by eapply texts_changed_trans.
Qed.

Lemma reads_evolves {A : Type} (m : M A) : reads m -> evolves m.
Proof.
  intros Hm h c. specialize (Hm h c).
  destruct (m (State h c)); try done; rewrite Hm; apply texts_changed_refl.
Qed.

Lemma reads_edit_get e k : reads (edit_get e k).
Proof. intros h c. unfold edit_get. by destruct (Py.assoc k e). Qed.

Lemma reads_print n : reads (print n).
Proof. intros h c. unfold print. by destruct (printable n). Qed.

Lemma reads_plus_one k : reads (plus_one k).
Proof. intros h c. unfold plus_one. by destruct (as_index k). Qed.

Lemma reads_get v k d : reads (get v k d).
Proof.
  intros h c. destruct v as [a|l]; [done|]. unfold get, mbind, read. cbn.
  by destruct (h !! l) as [[]|].
Qed.

Lemma reads_subscript v k : reads (subscript v k).
Proof.
  intros h c. destruct v as [a|l]; unfold subscript.
  - destruct a as [| | |s]; try done. unfold mbind.
    destruct (sequence_index _ k); cbn; [|done]. by destruct (_ !! a).
  - unfold mbind, read. cbn. destruct (h !! l) as [[xs|kvs]|]; [| |done].
    + destruct (sequence_index _ k) as [i|]; cbn; [|done]. by destruct (xs !! i).
    + destruct k as [| | |key]; try done. by destruct (Py.assoc key kvs).
Qed.

Lemma reads_contains v a : reads (contains v a).
Proof.
  intros h c. destruct v as [b|l]; unfold contains.
  - destruct b as [| | |s]; try done. by destruct a.
  - unfold mbind, read. cbn. destruct (h !! l) as [[xs|kvs]|]; [done| |done].
    by destruct a.
Qed.

Lemma evolves_setitem_summary v x : evolves (setitem_key v "summary" x).
Proof.
  intros h c. destruct v as [b|l]; [apply texts_changed_refl|].
  unfold setitem_key, mbind, read. cbn.
  destruct (h !! l) as [[xs|kvs]|] eqn:Hl; [apply texts_changed_refl| |done]. cbn.
  eapply texts_changed_write; [done|]. cbn. intros k Hk.
  rewrite assoc_dict_set. destruct (String.eqb "summary" k) eqn:E; [|done].
  apply String.eqb_eq in E. congruence.
Qed.

Lemma evolves_replace_first v a s : evolves (replace_first v a (VAtom s)).
Proof.
  intros h c. destruct v as [b|l]; unfold replace_first.
  - destruct b as [| | |t]; try apply texts_changed_refl.
    destruct a; try apply texts_changed_refl.
    destruct (Str.contains _ t); apply texts_changed_refl.
  - unfold mbind, read. cbn.
    destruct (h !! l) as [[xs|kvs]|] eqn:Hl; [|apply texts_changed_refl|done].
    destruct (first_index xs a) as [i|] eqn:Hi; [|apply texts_changed_refl]. cbn.
    eapply texts_changed_write; [done|]. cbn.
    destruct (first_index_Some _ _ _ Hi) as (b & Hb & _).
    apply Forall2_same_length_lookup_2; [by rewrite length_insert|].
    intros j x y Hx Hy. destruct (decide (j = i)) as [->|Hne].
    + rewrite list_lookup_insert_eq in Hy by (by eapply lookup_lt_Some).
      right. by simplify_eq.
    + rewrite list_lookup_insert_ne in Hy by done. left. congruence.
Qed.

Ltac evolves_step :=
  first
    [ apply evolves_bind; [apply reads_evolves, reads_edit_get|intros ?]
    | apply evolves_bind; [apply reads_evolves, reads_get|intros ?]
    | apply evolves_bind; [apply reads_evolves, reads_subscript|intros ?]
    | apply evolves_bind; [apply reads_evolves, reads_contains|intros ?]
    | apply evolves_bind; [apply reads_evolves, reads_plus_one|intros ?]
    | apply evolves_bind; [apply evolves_setitem_summary|intros ?]
    | apply evolves_bind; [apply evolves_replace_first|intros ?]
    | apply reads_evolves, reads_print
    | intros ? ?; apply texts_changed_refl
    | match goal with |- evolves (if ?b then _ else _) => destruct b end ].

Lemma evolves_apply_edit r e : evolves (apply_edit r e).
Proof. unfold apply_edit. repeat evolves_step. Qed.

Lemma evolves_try_except (m handler : M unit) :
  evolves m -> reads handler -> evolves (try_except m handler).
Proof.
  intros Hm Hh h c. specialize (Hm h c). unfold try_except.
  destruct (m (State h c)) as [a s'|e [h' c']|]; [done| |done].
  destruct e; try done; specialize (Hh h' c'); destruct (handler _); try done;
    cbn in *; by subst.
Qed.

Lemma evolves_apply_edits r es : evolves (apply_edits r es).
Proof.
  induction es as [|e es IH]; [intros h c; apply texts_changed_refl|].
  cbn [apply_edits]. apply evolves_bind; [|by intros _].
  apply evolves_try_except; [apply evolves_apply_edit|apply reads_print].
Qed.

(** *** The shape of the profile survives the loop *)

Section stable.
Variables h h' : list obj.
Hypothesis Hch : texts_changed h h'.

Lemma changed_dict l kvs :
  h !! l = Some (ODict kvs) ->
  exists kvs', h' !! l = Some (ODict kvs') /\
    forall k, k <> "summary" -> Py.assoc k kvs' = Py.assoc k kvs.
Proof.
  intros Hl. destruct (proj2 Hch _ _ Hl) as ([xs|kvs'] & Hl' & Hc); [done|]. eauto.
Qed.

Lemma changed_list l xs :
  h !! l = Some (OList xs) ->
  exists xs', h' !! l = Some (OList xs') /\ Forall2 text_changed xs xs'.
Proof.
  intros Hl. destruct (proj2 Hch _ _ Hl) as ([xs'|kvs'] & Hl' & Hc); [|done]. eauto.
Qed.

Lemma changed_accomplishments_ok v :
  accomplishments_ok h v = true -> accomplishments_ok h' v = true.
Proof.
  unfold accomplishments_ok. destruct (elements h v) as [accs|] eqn:He; [|done].
  destruct (elements_ref _ _ _ He) as (l & -> & Hl).
  destruct (changed_list _ _ Hl) as (accs' & Hl' & Hc). cbn. rewrite Hl'.
  intros Hok%forallb_Forall_true. apply forallb_forall. intros y Hy%list_elem_of_In.
  apply list_elem_of_lookup in Hy as [i Hy].
  destruct (Forall2_lookup_r _ _ _ _ _ Hc Hy) as (x & Hx & [->|[_ ?]]); [|done].
  by apply (Forall_lookup_1 _ _ _ _ Hok Hx).
Qed.

Lemma changed_entry_ok v : entry_ok h v = true -> entry_ok h' v = true.
Proof.
  destruct v as [a|l]; [done|]. unfold entry_ok.
  destruct (h !! l) as [[xs|kvs]|] eqn:Hl; try done.
  destruct (changed_dict _ _ Hl) as (kvs' & -> & Hk). rewrite Hk by done.
  destruct (Py.assoc "accomplishments" kvs); [|done]. apply changed_accomplishments_ok.
Qed.

Lemma changed_profile_shape r : profile_shape h r = true -> profile_shape h' r = true.
Proof.
  destruct r as [a|l]; [done|]. unfold profile_shape.
  destruct (h !! l) as [[xs|kvs]|] eqn:Hl; try done.
  destruct (changed_dict _ _ Hl) as (kvs' & -> & Hk). rewrite Hk by done.
  destruct (Py.assoc "experience" kvs) as [ex|]; [|done].
  destruct (elements h ex) as [entries|] eqn:He; [|done].
  destruct (elements_ref _ _ _ He) as (le & -> & Hle).
  destruct (changed_list _ _ Hle) as (entries' & Hle' & Hc). cbn. rewrite Hle'.
  intros Hok%forallb_Forall_true. apply forallb_forall. intros y Hy%list_elem_of_In.
  apply list_elem_of_lookup in Hy as [i Hy].
  destruct (Forall2_lookup_r _ _ _ _ _ Hc Hy) as (x & Hx & Hxy).
  pose proof (Forall_lookup_1 _ _ _ _ Hok Hx) as Hxok. cbn beta in Hxok.
  destruct Hxy as [->|[Hatom _]]; [by apply changed_entry_ok|].
  by destruct x.
Qed.

Lemma changed_experience_length r :
  profile_shape h r = true -> experience_length h' r = experience_length h r.
Proof.
  destruct r as [a|l]; [done|]. unfold profile_shape, experience_length, field.
  destruct (h !! l) as [[xs|kvs]|] eqn:Hl; try done.
  destruct (changed_dict _ _ Hl) as (kvs' & -> & Hk). rewrite Hk by done.
  destruct (Py.assoc "experience" kvs) as [ex|]; [|done].
  destruct (elements h ex) as [entries|] eqn:He; [|done].
  destruct (elements_ref _ _ _ He) as (le & -> & Hle).
  destruct (changed_list _ _ Hle) as (entries' & Hle' & Hc). cbn. rewrite Hle'.
  intros _. symmetry. by eapply Forall2_length.
Qed.

End stable.

(** *** The shape of the copy *)

Section copy_shape.
Variables (h h1 : list obj) (m : gmap loc loc).
Hypothesis Hcopied : forall l y, m !! l = Some y -> copied h m h1 l y.

Lemma copy_field_eq v k :
  covered m v -> field h1 (rename m v) k = rename m <$> field h v k.
Proof.
  destruct v as [a|l]; [done|]. intros [y Hy]. cbn [rename]. rewrite Hy.
  destruct (Hcopied _ _ Hy) as (o & Ho & _ & Hy'). cbn [field]. rewrite Ho, Hy'.
  destruct o as [xs|kvs]; [done|]. cbn. apply assoc_rename.
Qed.

Lemma copy_elements_eq v :
  covered m v -> elements h1 (rename m v) = map (rename m) <$> elements h v.
Proof.
  destruct v as [a|l]; [done|]. intros [y Hy]. cbn [rename]. rewrite Hy.
  destruct (Hcopied _ _ Hy) as (o & Ho & _ & Hy'). cbn [elements]. rewrite Ho, Hy'.
  by destruct o.
Qed.

Lemma copy_current_summary_eq v :
  covered m v -> current_summary h1 (rename m v) = rename m <$> current_summary h v.
Proof.
  destruct v as [a|l]; [done|]. intros [y Hy]. cbn [rename]. rewrite Hy.
  destruct (Hcopied _ _ Hy) as (o & Ho & _ & Hy'). cbn [current_summary]. rewrite Ho, Hy'.
  destruct o as [xs|kvs]; [done|]. cbn. rewrite assoc_rename.
  by destruct (Py.assoc "summary" kvs).
Qed.

Lemma covered_field v k x : covered m v -> field h v k = Some x -> covered m x.
Proof. intros Hc Hf. by destruct (copy_field h h1 m Hcopied v k x Hc Hf). Qed.

Lemma covered_elements v xs :
  covered m v -> elements h v = Some xs -> Forall (covered m) xs.
Proof. intros Hc He. by destruct (copy_elements h h1 m Hcopied v xs Hc He). Qed.

Lemma is_atom_rename v : is_atom (rename m v) = is_atom v.
Proof. destruct v as [a|l]; [done|]. cbn. by destruct (m !! l). Qed.

Lemma copy_accomplishments_ok v :
  covered m v -> accomplishments_ok h1 (rename m v) = accomplishments_ok h v.
Proof.
  intros Hc. unfold accomplishments_ok. rewrite copy_elements_eq by done.
  destruct (elements h v) as [accs|]; [|done]. cbn.
  induction accs as [|x accs IH]; [done|]. cbn. by rewrite is_atom_rename, IH.
Qed.

Lemma copy_entry_ok v : covered m v -> entry_ok h1 (rename m v) = entry_ok h v.
Proof.
  destruct v as [a|l]; [done|]. intros Hc. destruct (Hc) as [y Hy]. cbn [rename]. rewrite Hy.
  destruct (Hcopied _ _ Hy) as (o & Ho & Hcov & Hy'). cbn [entry_ok]. rewrite Ho, Hy'.
  destruct o as [xs|kvs]; [done|]. cbn [rename_obj]. rewrite assoc_rename.
  destruct (Py.assoc "accomplishments" kvs) as [va|] eqn:Hva; [|done]. cbn.
  apply copy_accomplishments_ok. cbn in Hcov. by eapply covered_assoc.
Qed.

Lemma copy_profile_shape v :
  covered m v -> profile_shape h1 (rename m v) = profile_shape h v.
Proof.
  destruct v as [a|l]; [done|]. intros Hc. destruct (Hc) as [y Hy]. cbn [rename]. rewrite Hy.
  destruct (Hcopied _ _ Hy) as (o & Ho & Hcov & Hy'). cbn [profile_shape]. rewrite Ho, Hy'.
  destruct o as [xs|kvs]; [done|]. cbn [rename_obj]. rewrite assoc_rename.
  destruct (Py.assoc "experience" kvs) as [ex|] eqn:Hex; [|done]. cbn.
  assert (Hcex : covered m ex) by (cbn in Hcov; by eapply covered_assoc).
  rewrite copy_elements_eq by done.
  destruct (elements h ex) as [entries|] eqn:He; [|done]. cbn.
  pose proof (covered_elements _ _ Hcex He) as Hce. clear He.
  induction Hce as [|x entries Hx _ IH]; [done|]. cbn.
  rewrite copy_entry_ok by done. by rewrite IH.
Qed.

Lemma copy_experience_length v :
  covered m v -> experience_length h1 (rename m v) = experience_length h v.
Proof.
  intros Hc. unfold experience_length. rewrite copy_field_eq by done.
  destruct (field h v "experience") as [ex|] eqn:Hex; [|done]. cbn.
  rewrite copy_elements_eq by (by eapply covered_field).
  destruct (elements h ex); [|done]. cbn. apply length_map.
Qed.

Lemma copy_targeted_accomplishments v k :
  covered m v ->
  targeted_accomplishments h1 (rename m v) k =
  map (rename m) <$> targeted_accomplishments h v k.
Proof.
  intros Hc. unfold targeted_accomplishments. rewrite copy_field_eq by done.
  destruct (field h v "experience") as [ex|] eqn:Hex; [|done]. simpl.
  assert (Hcex : covered m ex) by (by eapply covered_field).
  rewrite copy_elements_eq by done.
  destruct (elements h ex) as [entries|] eqn:He; [|done]. simpl.
  rewrite length_map. destruct (sequence_index _ k) as [j|]; [|done].
  rewrite list_lookup_fmap.
  destruct (entries !! j) as [entry|] eqn:Hj; [|done]. simpl.
  assert (Hce : covered m entry).
  { eapply Forall_lookup_1; [|exact Hj]. by eapply covered_elements. }
  rewrite copy_field_eq by done.
  destruct (field h entry "accomplishments") as [va|] eqn:Hva; [|done]. simpl.
  apply copy_elements_eq. by eapply covered_field.
Qed.

Lemma copy_matches v e :
  covered m v -> matches h1 (rename m v) e = matches h v e.
Proof.
  intros Hc. unfold matches.
  destruct (Py.assoc "section" e) as [section|]; [|done].
  destruct (Py.assoc "original_text" e) as [o|]; [|done].
  rewrite copy_current_summary_eq by done.
  destruct (scalar_eq section (SStr "summary")).
  { destruct (current_summary h v); [|done]. cbn. apply val_eq_rename. }
  destruct (scalar_eq section (SStr "experience")); [|done].
  destruct (Py.assoc "entry_index" e) as [k|]; [|done].
  rewrite copy_targeted_accomplishments by done.
  destruct (targeted_accomplishments h v k); [|done]. cbn. apply existsb_rename.
Qed.

End copy_shape.

(** *** The console *)

Lemma blind_bind {A B : Type} (m : M A) (k : A -> M B) :
  blind m -> (forall a, blind (k a)) -> blind (mbind m k).
Proof.
  intros Hm Hk h c c'. specialize (Hm h c c'). unfold mbind.
  destruct (m (State h c)) as [a [h1 c1]|e [h1 c1]|],
           (m (State h c')) as [a' [h2 c2]|e' [h2 c2]|]; cbn in Hm |- *;
    simplify_eq; try done.
  apply Hk.
Qed.

Lemma blind_try_except (m handler : M unit) :
  blind m -> blind handler -> blind (try_except m handler).
Proof.
  intros Hm Hh h c c'. specialize (Hm h c c'). unfold try_except.
  destruct (m (State h c)) as [a [h1 c1]|e [h1 c1]|],
           (m (State h c')) as [a' [h2 c2]|e' [h2 c2]|]; cbn in Hm |- *;
    simplify_eq; try done.
  destruct e'; try done; apply Hh.
Qed.

Lemma blind_edit_get e k : blind (edit_get e k).
Proof. intros h c c'. unfold edit_get. by destruct (Py.assoc k e). Qed.

Lemma blind_print n : blind (print n).
Proof. intros h c c'. unfold print. by destruct (printable n). Qed.

Lemma blind_plus_one k : blind (plus_one k).
Proof. intros h c c'. unfold plus_one. by destruct (as_index k). Qed.

Lemma blind_get v k d : blind (get v k d).
Proof.
  intros h c c'. destruct v as [a|l]; [done|]. unfold get, mbind, read. cbn.
  by destruct (h !! l) as [[]|].
Qed.

Lemma blind_subscript v k : blind (subscript v k).
Proof.
  intros h c c'. destruct v as [a|l]; unfold subscript.
  - destruct a as [| | |s]; try done. unfold mbind.
    destruct (sequence_index _ k); cbn; [|done]. by destruct (_ !! a).
  - unfold mbind, read. cbn. destruct (h !! l) as [[xs|kvs]|]; [| |done].
    + destruct (sequence_index _ k) as [i|]; cbn; [|done]. by destruct (xs !! i).
    + destruct k as [| | |key]; try done. by destruct (Py.assoc key kvs).
Qed.

Lemma blind_contains v a : blind (contains v a).
Proof.
  intros h c c'. destruct v as [b|l]; unfold contains.
  - destruct b as [| | |s]; try done. by destruct a.
  - unfold mbind, read. cbn. destruct (h !! l) as [[xs|kvs]|]; [done| |done].
    by destruct a.
Qed.

Lemma blind_setitem_key v k x : blind (setitem_key v k x).
Proof.
  intros h c c'. destruct v as [b|l]; [done|]. unfold setitem_key, mbind, read. cbn.
  by destruct (h !! l) as [[]|].
Qed.

Lemma blind_replace_first v a x : blind (replace_first v a x).
Proof.
  intros h c c'. destruct v as [b|l]; unfold replace_first.
  - destruct b as [| | |t]; try done. destruct a; try done. by destruct (Str.contains _ t).
  - unfold mbind, read. cbn. destruct (h !! l) as [[xs|kvs]|]; [|done|done].
    by destruct (first_index xs a).
Qed.

Ltac blind_step :=
  first
    [ apply blind_bind; [apply blind_edit_get|intros ?]
    | apply blind_bind; [apply blind_get|intros ?]
    | apply blind_bind; [apply blind_subscript|intros ?]
    | apply blind_bind; [apply blind_contains|intros ?]
    | apply blind_bind; [apply blind_plus_one|intros ?]
    | apply blind_bind; [apply blind_setitem_key|intros ?]
    | apply blind_bind; [apply blind_replace_first|intros ?]
    | apply blind_print
    | by intros ? ? ?
    | match goal with |- blind (if ?b then _ else _) => destruct b end ].

Lemma blind_apply_edit r e : blind (apply_edit r e).
Proof. unfold apply_edit. repeat blind_step. Qed.

Lemma blind_apply_edits r es : blind (apply_edits r es).
Proof.
  induction es as [|e es IH]; [by intros h c c'|].
  cbn [apply_edits]. apply blind_bind; [|by intros _].
  apply blind_try_except; [apply blind_apply_edit|apply blind_print].
Qed.

Lemma apply_edits_app r es1 es2 s :
  apply_edits r (es1 ++ es2) s =
  mbind (apply_edits r es1) (fun _ => apply_edits r es2) s.
Proof.
  revert s. induction es1 as [|e es1 IH]; intros s; [done|].
  cbn [app apply_edits]. unfold mbind.
  destruct (try_except _ _ s) as [[] s'|x s'|]; [|done|done]. by rewrite IH.
Qed.

Lemma scalar_eq_str a s : scalar_eq a (SStr s) = true -> a = SStr s.
Proof. destruct a as [| | |t]; try done. by intros ->%String.eqb_eq. Qed.

(** A malformed edit has a typed index and matches nothing, or has no
    suggested text. *)
Lemma malformed_skipped h r e :
  malformed h r e = true ->
  index_typed e = true /\
  (matches h r e = false \/ Py.assoc "suggested_text" e = None).
Proof.
  unfold malformed, index_typed, matches, missing.
  destruct (Py.assoc "section" e) as [section|]; [|by auto].
  destruct (scalar_eq section (SStr "summary")) eqn:Hsum.
  { apply scalar_eq_str in Hsum as ->. cbn [scalar_eq String.eqb Ascii.eqb].
    intros [H%bool_decide_eq_true|H%bool_decide_eq_true]%orb_prop.
    - rewrite H. split; [by destruct (Py.assoc "entry_index" e)|by left].
    - split; [by destruct (Py.assoc "entry_index" e)|by right]. }
  destruct (scalar_eq section (SStr "experience")).
  2:{ intros _. split; [by destruct (Py.assoc "entry_index" e)|].
      left. by destruct (Py.assoc "original_text" e). }
  destruct (Py.assoc "entry_index" e) as [k|].
  2:{ intros _. split; [done|]. left. by destruct (Py.assoc "original_text" e). }
  destruct (as_index k) as [i|] eqn:Hk; [|done].
  intros H. split; [by apply bool_decide_eq_true|].
  apply orb_prop in H as [H|H%bool_decide_eq_true]; [|by right].
  left. destruct (Py.assoc "original_text" e) as [o|]; [|done].
  apply orb_prop in H as [H|H%bool_decide_eq_true]; [|done].
  enough (targeted_accomplishments h r k = None) as -> by done.
  unfold targeted_accomplishments, experience_length in *.
  destruct (field h r "experience") as [ex|]; [|done]. simpl.
  destruct (elements h ex) as [entries|]; [|done]. simpl.
  by rewrite (sequence_index_out_of_range _ _ _ Hk H).
Qed.

(** Edits that match nothing leave the store as it is. *)
Lemma apply_edits_quiet r es : forall h c,
  profile_shape h r = true ->
  Forall (fun e => index_typed e = true /\ markup_safe e = true /\
                   (matches h r e = false \/ Py.assoc "suggested_text" e = None)) es ->
  exists c', apply_edits r es (State h c) = Ok () (State h c').
Proof.
  induction es as [|e es IH]; intros h c Hshape Hes; [by eexists|].
  apply Forall_cons in Hes as [(Htyped & Hsafe & Hskip) Hes].
  destruct (quiet_try_except h _ e _ Hsafe (apply_edit_quiet h c r e Hshape Htyped Hskip))
    as [c' Hrun].
  cbn [apply_edits]. unfold mbind. rewrite Hrun. by apply IH.
Qed.

Lemma malformed_changed h h' r e :
  texts_changed h h' -> profile_shape h r = true ->
  malformed h' r e = malformed h r e.
Proof.
  intros Hch Hshape. unfold malformed.
  by rewrite (changed_experience_length h h' Hch r Hshape).
Qed.

(** The loop with a malformed edit in it does what the loop without
    that edit does. *)
Lemma apply_edits_skip r e es2 : forall es1 h c,
  markup_safe e = true ->
  profile_shape h r = true -> malformed h r e = true ->
  observe (apply_edits r (es1 ++ e :: es2) (State h c)) =
  observe (apply_edits r (es1 ++ es2) (State h c)).
Proof.
  induction es1 as [|e1 es1 IH]; intros h c Hsafe Hshape Hmal.
  - destruct (malformed_skipped _ _ _ Hmal) as [Htyped Hskip].
    destruct (quiet_try_except h _ e _ Hsafe (apply_edit_quiet h c r e Hshape Htyped Hskip))
      as [c' Hrun].
    cbn [app apply_edits]. unfold mbind. rewrite Hrun. apply blind_apply_edits.
  - cbn [app apply_edits]. unfold mbind.
    pose proof (evolves_try_except _ _ (evolves_apply_edit r e1)
                  (reads_print (CouldNotApply e1)) h c) as Hch.
    destruct (try_except _ _ (State h c)) as [[] [h' c']|x s'|]; [|done|done].
    cbn [heap] in Hch. apply IH; [done| |].
    + by eapply changed_profile_shape.
    + by rewrite (malformed_changed h h').
Qed.

Lemma malformed_copy h h1 m r e :
  (forall l y, m !! l = Some y -> copied h m h1 l y) -> covered m r ->
  malformed h1 (rename m r) e = malformed h r e.
Proof.
  intros Hcopied Hc. unfold malformed. by rewrite (copy_experience_length h h1 m).
Qed.

Lemma apply_ai_edits_run h c r es m h1 :
  deepcopy (S (length h)) r ∅ (State h c) = Ok (rename m r, m) (State h1 c) ->
  apply_ai_edits r es (State h c) =
  mbind (apply_edits (rename m r) es) (fun _ => ret (rename m r)) (State h1 c).
Proof.
  intros Hrun. unfold apply_ai_edits. cbn [heap]. unfold mbind at 1. by rewrite Hrun.
Qed.

(** C4. On a profile of the data model, an edit with another section, an
    integer index out of range or a missing key, whose text the console
    can render: alone, the call returns a profile that stands for the
    same tree as the input; among other edits, the call ends as it ends
    without that edit, with the same result or the same exception and
    the same store. *)
Theorem apply_ai_edits_skips_malformed (h : list obj) (c : list notice)
    (resume_data : val) (e : edit) (before after : list edit) :
  heap_wf h = true -> val_ok (length h) resume_data = true ->
  profile_shape h resume_data = true ->
  malformed h resume_data e = true ->
  markup_safe e = true ->
  (exists editable_resume s',
     apply_ai_edits resume_data [e] (State h c) = Ok editable_resume s' /\
     forall n, reify n (heap s') editable_resume = reify n h resume_data) /\
  observe (apply_ai_edits resume_data (before ++ e :: after) (State h c)) =
  observe (apply_ai_edits resume_data (before ++ after) (State h c)).
Proof.
  intros Hwf Hroot Hshape Hmal Hsafe.
  destruct (deepcopy_top h c resume_data Hwf Hroot) as (m & h1 & Hrun & Hinv & Hcov & Hcopied).
  assert (Hshape1 : profile_shape h1 (rename m resume_data) = true)
    by (by rewrite (copy_profile_shape h h1 m)).
  assert (Hmal1 : malformed h1 (rename m resume_data) e = true)
    by (by rewrite (malformed_copy h h1 m)).
  split.
  - destruct (malformed_skipped _ _ _ Hmal1) as [Htyped Hskip].
    destruct (apply_edits_quiet (rename m resume_data) [e] h1 c Hshape1) as [c' Hloop].
    { by apply Forall_singleton. }
    exists (rename m resume_data), (State h1 c').
    rewrite (apply_ai_edits_run _ _ _ _ _ _ Hrun). unfold mbind. rewrite Hloop.
    split; [done|]. intros n. by apply reify_copy_eq.
  - rewrite !(apply_ai_edits_run _ _ _ _ _ _ Hrun). unfold mbind.
    pose proof (apply_edits_skip (rename m resume_data) e after before h1 c Hsafe Hshape1 Hmal1)
      as Hobs.
    destruct (apply_edits _ (before ++ e :: after) _) as [[] [h2 c2]|x [h2 c2]|],
             (apply_edits _ (before ++ after) _) as [[] [h3 c3]|x' [h3 c3]|];
      cbn in Hobs |- *; by simplify_eq.
Qed.

Lemma apply_ai_edits_skips_malformed_witness :
  (exists editable_resume s',
     apply_ai_edits sample_resume [skills_edit] (State sample_heap []) =
       Ok editable_resume s' /\
     forall n, reify n (heap s') editable_resume = reify n sample_heap sample_resume) /\
  observe (apply_ai_edits sample_resume ([summary_edit] ++ skills_edit :: [last_entry_edit])
             (State sample_heap [])) =
  observe (apply_ai_edits sample_resume ([summary_edit] ++ [last_entry_edit])
             (State sample_heap [])).
Proof.
  apply (apply_ai_edits_skips_malformed sample_heap [] sample_resume skills_edit
           [summary_edit] [last_entry_edit]); reflexivity.
Defined.

(** An edit that lacks [original_text] and [suggested_text] and gives
    its index as a text is not skipped: looking up the entry raises
    [TypeError] before a key is missed, the [try] statement does not
    catch it, and the call returns no profile. *)
Lemma apply_ai_edits_missing_key_raises :
  missing keyless_edit "original_text" = true /\
  missing keyless_edit "suggested_text" = true /\
  markup_safe keyless_edit = true /\
  exists h',
    apply_ai_edits sample_resume [keyless_edit] (State sample_heap []) =
    Exc TypeError (State h' []).
Proof. do 3 (split; [reflexivity|]). vm_compute. by eexists. Qed.

(** C10. On a profile of the data model, edits none of which matches the
    summary or an accomplishment of the entry it names (the empty list
    among them), each with an integer index where it has one and a text
    the console can render: the call returns a profile that stands for
    the same tree as the input, at every depth. *)
Theorem apply_ai_edits_no_match (h : list obj) (c : list notice)
    (resume_data : val) (edits : list edit) :
  heap_wf h = true -> val_ok (length h) resume_data = true ->
  profile_shape h resume_data = true ->
  Forall (fun e => index_typed e = true /\ markup_safe e = true /\
                   matches h resume_data e = false) edits ->
  exists editable_resume s',
    apply_ai_edits resume_data edits (State h c) = Ok editable_resume s' /\
    forall n, reify n (heap s') editable_resume = reify n h resume_data.
Proof.
  intros Hwf Hroot Hshape Hes.
  destruct (deepcopy_top h c resume_data Hwf Hroot) as (m & h1 & Hrun & Hinv & Hcov & Hcopied).
  destruct (apply_edits_quiet (rename m resume_data) edits h1 c) as [c' Hloop].
  { by rewrite (copy_profile_shape h h1 m). }
  { eapply Forall_impl; [exact Hes|]. intros e (Htyped & Hsafe & Hno).
    split; [done|]. split; [done|]. left. by rewrite (copy_matches h h1 m). }
  exists (rename m resume_data), (State h1 c').
  rewrite (apply_ai_edits_run _ _ _ _ _ _ Hrun). unfold mbind. rewrite Hloop.
  split; [done|]. intros n. by apply reify_copy_eq.
Qed.

Lemma apply_ai_edits_no_match_witness :
  exists editable_resume s',
    apply_ai_edits sample_resume [stale_edit; unknown_accomplishment_edit]
      (State sample_heap []) = Ok editable_resume s' /\
    forall n, reify n (heap s') editable_resume = reify n sample_heap sample_resume.
Proof.
  apply (apply_ai_edits_no_match sample_heap [] sample_resume
           [stale_edit; unknown_accomplishment_edit]); try reflexivity.
  repeat constructor.
Defined.

(** An edit that matches nothing and gives its index as a text: the
    call raises [TypeError] and returns no profile. *)
Lemma apply_ai_edits_no_match_raises :
  matches sample_heap sample_resume unmatched_text_index_edit = false /\
  markup_safe unmatched_text_index_edit = true /\
  exists h',
    apply_ai_edits sample_resume [unmatched_text_index_edit] (State sample_heap []) =
    Exc TypeError (State h' []).
Proof. do 2 (split; [reflexivity|]). vm_compute. by eexists. Qed.

Lemma apply_edit_other_section r e section s :
  Py.assoc "section" e = Some section ->
  scalar_eq section (SStr "summary") = false ->
  scalar_eq section (SStr "experience") = false ->
  apply_edit r e s = Ok () s.
Proof.
  intros Hsec H1 H2. unfold apply_edit.
  erewrite mbind_ok; [|by apply edit_get_some]. by rewrite H1, H2.
Qed.

Lemma apply_edits_congr r e es2 :
  (forall s, try_except (apply_edit r e) (print (CouldNotApply e)) s = Ok () s) ->
  forall es1 s, apply_edits r (es1 ++ e :: es2) s = apply_edits r (es1 ++ es2) s.
Proof.
  intros He. induction es1 as [|e1 es1 IH]; intros s.
  - cbn [app apply_edits]. unfold mbind. by rewrite He.
  - cbn [app apply_edits]. unfold mbind.
    destruct (try_except _ _ s) as [[] s'|x s'|]; [|done|done]. apply IH.
Qed.

(** X16.  An edit whose section is neither [summary] nor [experience] is
    passed over in silence: with it anywhere among the edits, the call
    ends as without it, with the same result, the same store and the
    same lines on the console. *)
Theorem apply_ai_edits_unknown_section (resume_data : val) (e : edit) (section : scalar)
    (before after : list edit) (s : state) :
  Py.assoc "section" e = Some section ->
  scalar_eq section (SStr "summary") = false ->
  scalar_eq section (SStr "experience") = false ->
  apply_ai_edits resume_data (before ++ e :: after) s =
  apply_ai_edits resume_data (before ++ after) s.
Proof.
  intros Hsec H1 H2. unfold apply_ai_edits, mbind.
  destruct (deepcopy _ _ _ s) as [[v m] s1|x s1|]; [|done|done]. cbn [fst].
  rewrite apply_edits_congr; [done|].
  intros s2. unfold try_except. by rewrite (apply_edit_other_section _ _ _ _ Hsec H1 H2).
Qed.

Lemma apply_ai_edits_unknown_section_witness :
  apply_ai_edits sample_resume ([summary_edit] ++ skills_edit :: [last_entry_edit])
    (State sample_heap []) =
  apply_ai_edits sample_resume ([summary_edit] ++ [last_entry_edit]) (State sample_heap []).
Proof.
  apply (apply_ai_edits_unknown_section sample_resume skills_edit (SStr "skills")
           [summary_edit] [last_entry_edit]); reflexivity.
Defined.

Lemma subscript_index_error h c v xs k e :
  elements h v = Some xs -> sequence_index (length xs) k = Raise e ->
  subscript v k (State h c) = Exc e (State h c).
Proof.
  intros (l & -> & Hl)%elements_ref Hj. unfold subscript.
  erewrite mbind_ok; [|by apply read_ok]. cbv beta iota. by rewrite Hj.
Qed.

(** An experience edit whose index names no entry, on a known store. *)
Lemma apply_edit_bad_index h c r e experience entries k x :
  field h r "experience" = Some experience ->
  elements h experience = Some entries ->
  Py.assoc "section" e = Some (SStr "experience") ->
  Py.assoc "entry_index" e = Some k ->
  sequence_index (length entries) k = Raise x ->
  apply_edit r e (State h c) = Exc x (State h c).
Proof.
  intros Hexp Hents Hsec Hidx Hj. unfold apply_edit.
  erewrite mbind_ok; [|by apply edit_get_some]. cbn [scalar_eq String.eqb Ascii.eqb Bool.eqb].
  erewrite mbind_ok; [|by apply subscript_field].
  erewrite mbind_ok; [|by apply edit_get_some].
  erewrite mbind_exc; [done|]. by eapply subscript_index_error.
Qed.

(** X17.  An experience edit whose integer index is out of range for the
    experience list, and whose text holds no closing tag of the console's
    markup, is reported once on the console and changes nothing: the call
    returns a profile that stands for the same tree as the input. *)
Theorem apply_ai_edits_index_out_of_range (h : list obj) (c : list notice)
    (resume_data experience : val) (entries : list val) (e : edit) (k : scalar) (z : Z) :
  heap_wf h = true ->
  val_ok (length h) resume_data = true ->
  field h resume_data "experience" = Some experience ->
  elements h experience = Some entries ->
  Py.assoc "section" e = Some (SStr "experience") ->
  Py.assoc "entry_index" e = Some k ->
  as_index k = Some z ->
  out_of_range (length entries) z = true ->
  markup_safe e = true ->
  exists editable_resume h',
    apply_ai_edits resume_data [e] (State h c) =
      Ok editable_resume (State h' (c ++ [CouldNotApply e])) /\
    forall n, reify n h' editable_resume = reify n h resume_data.
Proof.
  intros Hwf Hroot Hexp Hents Hsec Hidx Hk Hout Hsafe.
  destruct (deepcopy_top h c resume_data Hwf Hroot) as (m & h1 & Hcopy & Hinv & Hcov & Hcopied).
  destruct (copy_field h h1 m Hcopied _ _ _ Hcov Hexp) as [Hexp1 Hcov1].
  destruct (copy_elements h h1 m Hcopied _ _ Hcov1 Hents) as [Hents1 _].
  exists (rename m resume_data), h1.
  rewrite (apply_ai_edits_run _ _ _ _ _ _ Hcopy). cbn [apply_edits].
  unfold mbind, try_except.
  rewrite (apply_edit_bad_index h1 c _ e _ _ k IndexError Hexp1 Hents1 Hsec Hidx).
  2:{ rewrite length_map. by apply (sequence_index_out_of_range _ _ z). }
  rewrite print_could_not_apply by done.
  split; [done|]. intros n. by apply (reify_copy_eq h h1 m).
Qed.

Lemma apply_ai_edits_index_out_of_range_witness :
  exists editable_resume h',
    apply_ai_edits sample_resume [out_of_range_edit] (State sample_heap []) =
      Ok editable_resume (State h' ([] ++ [CouldNotApply out_of_range_edit])) /\
    forall n, reify n h' editable_resume = reify n sample_heap sample_resume.
Proof.
  apply (apply_ai_edits_index_out_of_range sample_heap [] sample_resume (VRef 1) [VRef 2]
           out_of_range_edit (SInt 3) 3); reflexivity.
Defined.

(** X18.  An experience edit whose index is no integer (a text, or
    [None]) ends the call with [TypeError], which the [try] statement
    does not catch: no profile is returned and the edits after it are not
    looked at. *)
Theorem apply_ai_edits_index_not_integer (h : list obj) (c : list notice)
    (resume_data experience : val) (entries : list val) (e : edit) (k : scalar)
    (after : list edit) :
  heap_wf h = true ->
  val_ok (length h) resume_data = true ->
  field h resume_data "experience" = Some experience ->
  elements h experience = Some entries ->
  Py.assoc "section" e = Some (SStr "experience") ->
  Py.assoc "entry_index" e = Some k ->
  as_index k = None ->
  exists h',
    apply_ai_edits resume_data (e :: after) (State h c) = Exc TypeError (State h' c) /\
    take (length h) h' = h.
Proof.
  intros Hwf Hroot Hexp Hents Hsec Hidx Hk.
  destruct (deepcopy_top h c resume_data Hwf Hroot) as (m & h1 & Hcopy & Hinv & Hcov & Hcopied).
  destruct (copy_field h h1 m Hcopied _ _ _ Hcov Hexp) as [Hexp1 Hcov1].
  destruct (copy_elements h h1 m Hcopied _ _ Hcov1 Hents) as [Hents1 _].
  exists h1.
  rewrite (apply_ai_edits_run _ _ _ _ _ _ Hcopy). cbn [apply_edits].
  unfold mbind, try_except.
  rewrite (apply_edit_bad_index h1 c _ e _ _ k TypeError Hexp1 Hents1 Hsec Hidx).
  2:{ unfold sequence_index. by rewrite Hk. }
  split; [done|]. apply take_old; [apply (inv_len _ _ _ Hinv)|apply (inv_old _ _ _ Hinv)].
Qed.

Lemma apply_ai_edits_index_not_integer_witness :
  exists h',
    apply_ai_edits sample_resume (text_index_edit :: [summary_edit]) (State sample_heap []) =
      Exc TypeError (State h' []) /\
    take (length sample_heap) h' = sample_heap.
Proof.
  apply (apply_ai_edits_index_not_integer sample_heap [] sample_resume (VRef 1) [VRef 2]
           text_index_edit (SStr "0") [summary_edit]); reflexivity.
Defined.

Lemma targeted_path h r k accs :
  targeted_accomplishments h r k = Some accs ->
  exists experience entries j entry accomplishments,
    field h r "experience" = Some experience /\
    elements h experience = Some entries /\
    sequence_index (length entries) k = Ret j /\
    entries !! j = Some entry /\
    field h entry "accomplishments" = Some accomplishments /\
    elements h accomplishments = Some accs.
Proof.
  unfold targeted_accomplishments.
  destruct (field h r "experience") as [ex|] eqn:Hex; [|done]. simpl.
  destruct (elements h ex) as [entries|] eqn:Hents; [|done]. simpl.
  destruct (sequence_index _ k) as [j|] eqn:Hk; [|done].
  destruct (entries !! j) as [entry|] eqn:Hj; [|done]. simpl.
  destruct (field h entry "accomplishments") as [a|] eqn:Ha; [|done]. simpl.
  intros He. by eexists ex, entries, j, entry, a.
Qed.

Lemma targeted_of_path h r k experience entries j entry accomplishments accs :
  field h r "experience" = Some experience ->
  elements h experience = Some entries ->
  sequence_index (length entries) k = Ret j ->
  entries !! j = Some entry ->
  field h entry "accomplishments" = Some accomplishments ->
  elements h accomplishments = Some accs ->
  targeted_accomplishments h r k = Some accs.
Proof.
  intros Hex Hents Hj Hentry Ha Haccs. unfold targeted_accomplishments.
  rewrite Hex. simpl. rewrite Hents. simpl. rewrite Hj, Hentry. simpl.
  rewrite Ha. simpl. done.
Qed.

Lemma targeted_atoms h r k accs :
  profile_shape h r = true -> targeted_accomplishments h r k = Some accs ->
  forallb is_atom accs = true.
Proof.
  intros Hshape (ex & entries & j & entry & a & Hex & Hents & Hj & Hentry & Ha & Haccs)%targeted_path.
  destruct (field_ref _ _ _ _ Hex) as (l & kvs & -> & Hl & Hk).
  unfold profile_shape in Hshape. rewrite Hl, Hk, Hents in Hshape.
  apply forallb_Forall_true in Hshape.
  pose proof (Forall_lookup_1 _ _ _ _ Hshape Hentry) as Hok. cbn beta in Hok.
  destruct (field_ref _ _ _ _ Ha) as (ld & kd & -> & Hld & Hkd).
  unfold entry_ok in Hok. rewrite Hld, Hkd in Hok.
  unfold accomplishments_ok in Hok. by rewrite Haccs in Hok.
Qed.

Lemma rename_atoms m (xs : list val) :
  forallb is_atom xs = true -> map (rename m) xs = xs.
Proof.
  induction xs as [|x xs IH]; [done|]. cbn. intros [Hx Hxs]%andb_prop.
  rewrite (IH Hxs). by destruct x.
Qed.

Lemma field_insert_list h la xs ys v k :
  h !! la = Some (OList xs) ->
  field (<[la := OList ys]> h) v k = field h v k.
Proof.
  intros Hla. destruct v as [a|l]; [done|]. unfold field.
  destruct (decide (l = la)) as [->|Hne].
  - rewrite list_lookup_insert_eq by (by eapply lookup_lt_Some). by rewrite Hla.
  - by rewrite list_lookup_insert_ne.
Qed.

Lemma elements_insert_list h la xs ys l :
  h !! la = Some (OList xs) ->
  elements (<[la := OList ys]> h) (VRef l) =
  if decide (l = la) then Some ys else elements h (VRef l).
Proof.
  intros Hla. unfold elements. destruct (decide (l = la)) as [->|Hne].
  - by rewrite list_lookup_insert_eq by (by eapply lookup_lt_Some).
  - by rewrite list_lookup_insert_ne.
Qed.

(** One experience edit that finds its text in the entry it names, on
    a known store: the first accomplishment equal to the text is
    replaced. *)
Lemma apply_edit_targeted h c r e k accs o s i :
  profile_shape h r = true ->
  targeted_accomplishments h r k = Some accs ->
  first_index accs o = Some i ->
  Py.assoc "section" e = Some (SStr "experience") ->
  Py.assoc "entry_index" e = Some k ->
  Py.assoc "original_text" e = Some o ->
  Py.assoc "suggested_text" e = Some s ->
  exists z h',
    as_index k = Some z /\
    apply_edit r e (State h c) = Ok () (State h' (c ++ [UpdatedAccomplishment (z + 1)])) /\
    targeted_accomplishments h' r k = Some (<[i := VAtom s]> accs).
Proof.
  intros Hshape Ht Hi Hsec Hidx Horig Hsug.
  pose proof (targeted_atoms _ _ _ _ Hshape Ht) as Hatoms.
  destruct (targeted_path _ _ _ _ Ht)
    as (ex & entries & j & entry & a & Hex & Hents & Hj & Hentry & Ha & Haccs).
  assert (Hz : exists z, as_index k = Some z).
  { unfold sequence_index in Hj. destruct (as_index k); [eauto|done]. }
  destruct Hz as [z Hz].
  destruct (elements_ref _ _ _ Haccs) as (la & -> & Hla).
  destruct (elements_ref _ _ _ Hents) as (le & -> & Hle).
  destruct (field_ref _ _ _ _ Ha) as (ld & kd & -> & Hld & Hkd).
  exists z, (<[la := OList (<[i := VAtom s]> accs)]> h). split; [done|]. split.
  - by eapply (apply_edit_experience h c r e (VRef le) entries k j (VRef ld) la accs i o s z).
  - assert (Hne : le <> la).
    { intros ->. rewrite Hle in Hla. injection Hla as ->.
      apply forallb_Forall_true in Hatoms.
      by pose proof (Forall_lookup_1 _ _ _ _ Hatoms Hentry). }
    apply (targeted_of_path _ _ _ (VRef le) entries j (VRef ld) (VRef la)).
    + by rewrite (field_insert_list _ _ _ _ _ _ Hla).
    + by rewrite (elements_insert_list _ _ _ _ _ Hla), decide_False.
    + done.
    + done.
    + by rewrite (field_insert_list _ _ _ _ _ _ Hla).
    + by rewrite (elements_insert_list _ _ _ _ _ Hla), decide_True.
Qed.

(** X19.  An experience edit whose index names an entry of the profile,
    from the front or (negative) from the end, and whose [original_text]
    equals one of that entry's accomplishments: in the profile returned,
    the first accomplishment equal to it holds [suggested_text] and the
    entry's other accomplishments are as they were; the console reports
    the job as the index plus one. *)
Theorem apply_ai_edits_experience (h : list obj) (c : list notice) (resume_data : val)
    (e : edit) (k original_text suggested_text : scalar) (accs : list val) (i : nat) :
  heap_wf h = true ->
  val_ok (length h) resume_data = true ->
  profile_shape h resume_data = true ->
  targeted_accomplishments h resume_data k = Some accs ->
  first_index accs original_text = Some i ->
  Py.assoc "section" e = Some (SStr "experience") ->
  Py.assoc "entry_index" e = Some k ->
  Py.assoc "original_text" e = Some original_text ->
  Py.assoc "suggested_text" e = Some suggested_text ->
  exists editable_resume h' z,
    as_index k = Some z /\
    apply_ai_edits resume_data [e] (State h c) =
      Ok editable_resume (State h' (c ++ [UpdatedAccomplishment (z + 1)])) /\
    targeted_accomplishments h' editable_resume k =
      Some (<[i := VAtom suggested_text]> accs).
Proof.
  intros Hwf Hroot Hshape Ht Hi Hsec Hidx Horig Hsug.
  destruct (deepcopy_top h c resume_data Hwf Hroot) as (m & h1 & Hcopy & Hinv & Hcov & Hcopied).
  pose proof (copy_targeted_accomplishments h h1 m Hcopied resume_data k Hcov) as Ht1.
  rewrite Ht in Ht1. cbn in Ht1.
  rewrite (rename_atoms m accs (targeted_atoms _ _ _ _ Hshape Ht)) in Ht1.
  assert (Hshape1 : profile_shape h1 (rename m resume_data) = true)
    by (by rewrite (copy_profile_shape h h1 m)).
  destruct (apply_edit_targeted h1 c _ e k accs original_text suggested_text i
              Hshape1 Ht1 Hi Hsec Hidx Horig Hsug) as (z & h2 & Hz & Hrun & Ht2).
  exists (rename m resume_data), h2, z. split; [done|]. split; [|done].
  rewrite (apply_ai_edits_run _ _ _ _ _ _ Hcopy). cbn [apply_edits].
  unfold mbind, try_except. by rewrite Hrun.
Qed.

Lemma apply_ai_edits_experience_witness :
  exists editable_resume h' z,
    as_index (SInt 0) = Some z /\
    apply_ai_edits sample_resume [first_entry_edit] (State sample_heap []) =
      Ok editable_resume (State h' ([] ++ [UpdatedAccomplishment (z + 1)])) /\
    targeted_accomplishments h' editable_resume (SInt 0) =
      Some (<[0 := VAtom (SStr "Built X in a week")]>
              [VAtom (SStr "Built X"); VAtom (SStr "Led Y")]).
Proof.
  apply (apply_ai_edits_experience sample_heap [] sample_resume first_entry_edit
           (SInt 0) (SStr "Built X") (SStr "Built X in a week")
           [VAtom (SStr "Built X"); VAtom (SStr "Led Y")] 0); reflexivity.
Defined.

End ApplierFacts.

(** ** Reading lines from the terminal *)

Module PromptFacts.
Import Prompt.

Lemma read_until_blank_spec (pending : list string) :
  forall lines written,
    match read_until_blank lines pending written with
    | Answered ls t' =>
        exists new,
          ls = lines ++ new /\
          pending = new ++ EmptyString :: Prompt.pending t' /\
          Forall (fun l => l <> EmptyString) new /\
          Prompt.written t' = written ++ replicate (S (length new)) InputPrompt
    | EOFError t' =>
        Forall (fun l => l <> EmptyString) pending /\
        Prompt.pending t' = [] /\
        Prompt.written t' = written ++ replicate (S (length pending)) InputPrompt
    | Unrendered _ => False
    end.
Proof.
  induction pending as [|line rest IH]; intros lines written; cbn [read_until_blank].
  - by repeat split.
  - destruct (String.eqb line EmptyString) eqn:E.
    + apply String.eqb_eq in E as ->. exists []. rewrite app_nil_r. by repeat split.
    + apply String.eqb_neq in E. specialize (IH (lines ++ [line]) (written ++ [InputPrompt])).
      destruct (read_until_blank _ rest _) as [ls t'|t'|t'].
      * destruct IH as (new & -> & -> & Hnew & Hw). exists (line :: new).
        rewrite <- app_assoc. repeat split; [by constructor|].
        rewrite Hw, <- app_assoc. done.
      * destruct IH as (Hrest & Hp & Hw). repeat split; [by constructor|done|].
        rewrite Hw, <- app_assoc. done.
      * done.
Qed.

(** X20.  For a prompt that holds no closing tag of the console's
    markup, [get_multiline_input] returns the lines typed before the
    first blank line, in order and none of them blank, and leaves what
    follows the blank line unread; it has written its heading and one
    input prompt per line read, the blank one among them.  When the
    input ends before a blank line, the call ends with [EOFError] and
    the lines read are lost. *)
Theorem get_multiline_input_lines (prompt : string) (t : terminal) :
  Str.markup_free prompt = true ->
  match get_multiline_input prompt t with
  | Answered lines t' =>
      pending t = lines ++ EmptyString :: pending t' /\
      Forall (fun l => l <> EmptyString) lines /\
      written t' =
        written t ++ Heading prompt :: replicate (S (length lines)) InputPrompt
  | EOFError t' =>
      Forall (fun l => l <> EmptyString) (pending t) /\ pending t' = []
  | Unrendered _ => False
  end.
Proof.
  intros Hprompt. unfold get_multiline_input. rewrite Hprompt.
  pose proof (read_until_blank_spec (pending t) []
                (written t ++ [Heading prompt])) as H.
  destruct (read_until_blank _ _ _) as [ls t'|t'|t'].
  - destruct H as (new & -> & Hp & Hnew & Hw). cbn [app].
    split; [done|]. split; [done|]. by rewrite Hw, <- app_assoc.
  - by destruct H as (Hp & Hnil & _).
  - done.
Qed.

Lemma get_multiline_input_lines_witness :
  match get_multiline_input "Enter your accomplishments for this role."
          (Terminal ["Built X"; "Led Y"; ""; "y"] []) with
  | Answered lines t' =>
      pending (Terminal ["Built X"; "Led Y"; ""; "y"] []) =
        lines ++ EmptyString :: pending t' /\
      Forall (fun l => l <> EmptyString) lines /\
      written t' =
        written (Terminal ["Built X"; "Led Y"; ""; "y"] []) ++
        Heading "Enter your accomplishments for this role." ::
        replicate (S (length lines)) InputPrompt
  | EOFError t' =>
      Forall (fun l => l <> EmptyString) (pending (Terminal ["Built X"; "Led Y"; ""; "y"] [])) /\
      pending t' = []
  | Unrendered _ => False
  end.
Proof.
  apply (get_multiline_input_lines "Enter your accomplishments for this role."
           (Terminal ["Built X"; "Led Y"; ""; "y"] [])).
  reflexivity.
Defined.

(** Two accomplishments, a blank line, and the answer to the next question. *)
Example accomplishments_typed :
  get_multiline_input "Enter your accomplishments for this role."
    (Terminal ["Built X"; "Led Y"; ""; "y"] []) =
  Answered ["Built X"; "Led Y"]
    (Terminal ["y"]
       [Heading "Enter your accomplishments for this role.";
        InputPrompt; InputPrompt; InputPrompt]).
Proof. reflexivity. Qed.

End PromptFacts.

(** ** Word documents *)

Module DocxFacts.
Import Py Docx.

Lemma bullet_nonempty (s : string) : String.eqb (bullet +:+ s) EmptyString = false.
Proof. reflexivity. Qed.

Lemma insert_accomplishments (accs : list string) : forall pre post,
  for_each (map JStr accs) (Body pre post) insert_accomplishment =
  Ret (Body (pre ++ map (fun a => [Run (bullet +:+ a) false]) accs) post).
Proof.
  induction accs as [|a accs IH]; intros pre post.
  - cbn. by rewrite app_nil_r.
  - cbn [map for_each]. unfold insert_accomplishment at 1. cbn [format_value JStr bind].
    unfold insert_paragraph_before. rewrite bullet_nonempty. cbn [snd preceding following bind].
    rewrite IH. by rewrite <- app_assoc.
Qed.

Lemma title_nonempty (a b c : string) :
  String.eqb (a +:+ ", " +:+ b +:+ " (" +:+ c +:+ ")") EmptyString = false.
Proof. destruct a; reflexivity. Qed.

Lemma insert_entry_row (entry : json) (row : experience_row) (pre post : list paragraph) :
  experience_fields entry row ->
  insert_entry (Body pre post) entry =
  Ret (Body (pre ++ rev (entry_paragraphs row)) post).
Proof.
  intros (Ht & Hc & Hd & Ha). unfold insert_entry. rewrite Ha. cbn [bind iter].
  unfold insert_paragraph_before at 1. cbn [String.eqb snd preceding following].
  rewrite <- map_rev, insert_accomplishments. cbn [bind].
  rewrite Ht, Hc, Hd. cbn [bind format_value JStr].
  unfold insert_paragraph_before. rewrite title_nonempty. cbn [preceding following].
  unfold embolden_first_run. cbn [preceding following].
  rewrite list_lookup_middle by done.
  cbn [run_text]. f_equal. f_equal.
  rewrite insert_app_r_alt by done. rewrite Nat.sub_diag. cbn [insert list_insert].
  unfold entry_paragraphs. cbn [rev]. rewrite rev_app_distr, map_rev. cbn [rev app].
  by rewrite <- !app_assoc.
Qed.

Lemma insert_entries (entries : list json) (rows : list experience_row) :
  Forall2 experience_fields entries rows ->
  forall pre post,
    for_each entries (Body pre post) insert_entry =
    Ret (Body (pre ++ flat_map (fun row => rev (entry_paragraphs row)) rows) post).
Proof.
  induction 1 as [|e r es rs He _ IH]; intros pre post.
  - cbn. by rewrite app_nil_r.
  - cbn [for_each flat_map]. rewrite (insert_entry_row _ _ _ _ He). cbn [bind].
    rewrite IH. by rewrite <- app_assoc.
Qed.

Lemma Forall2_rev_rev {A B : Type} (P : A -> B -> Prop) (xs : list A) (ys : list B) :
  Forall2 P xs ys -> Forall2 P (rev xs) (rev ys).
Proof.
  induction 1 as [|x y xs ys Hxy _ IH]; [constructor|]. cbn [rev].
  apply Forall2_app; [done|]. by constructor.
Qed.

Lemma flat_map_rev {A B : Type} (f : A -> list B) (xs : list A) :
  flat_map (fun x => rev (f x)) (rev xs) = rev (flat_map f xs).
Proof.
  induction xs as [|x xs IH]; [done|]. cbn [rev flat_map].
  rewrite flat_map_app, IH. cbn [flat_map]. by rewrite app_nil_r, rev_app_distr.
Qed.

(** X21.  [populate_docx_experience] puts the entries before the
    placeholder paragraph upside down: every paragraph is inserted
    directly before the placeholder, so after the ones inserted earlier,
    and the loops run from the last entry and the last accomplishment.
    The document reads, where the placeholder was: the last entry first,
    and of each entry a blank paragraph, the accomplishments from last to
    first, then the title line in bold.  That is the reverse of the
    paragraphs in reading order. *)
Theorem populate_docx_experience_reversed (pre post : list paragraph)
    (entries : list json) (rows : list experience_row) :
  Forall2 experience_fields entries rows ->
  populate_docx_experience (Body pre post) (JList entries) =
  Ret (pre ++ rev (flat_map entry_paragraphs rows) ++ post).
Proof.
  intros H. unfold populate_docx_experience. cbn [iter bind].
  rewrite (insert_entries (rev entries) (rev rows)).
  - cbn [bind preceding following]. by rewrite flat_map_rev, <- app_assoc.
  - by apply Forall2_rev_rev.
Qed.

Lemma populate_docx_experience_reversed_witness :
  populate_docx_experience (Body [[Run "EXPERIENCE" true]] [[Run "EDUCATION" true]])
    (JList [JDict [("title", JStr "Engineer"); ("company", JStr "Acme");
                   ("accomplishments", JList (map JStr ["Built X"; "Led Y"]))];
            JDict [("title", JStr "Intern"); ("dates", JStr "2019")]]) =
  Ret ([[Run "EXPERIENCE" true]] ++
       rev (flat_map entry_paragraphs
              [ExperienceRow "Engineer" "Acme" "" ["Built X"; "Led Y"];
               ExperienceRow "Intern" "" "2019" []]) ++
       [[Run "EDUCATION" true]]).
Proof.
  apply (populate_docx_experience_reversed [[Run "EXPERIENCE" true]] [[Run "EDUCATION" true]]
           [JDict [("title", JStr "Engineer"); ("company", JStr "Acme");
                   ("accomplishments", JList (map JStr ["Built X"; "Led Y"]))];
            JDict [("title", JStr "Intern"); ("dates", JStr "2019")]]
           [ExperienceRow "Engineer" "Acme" "" ["Built X"; "Led Y"];
            ExperienceRow "Intern" "" "2019" []]).
  repeat constructor.
Defined.

(** Two jobs in a document: the second job comes out first, and each
    title line below its accomplishments. *)
Example experience_upside_down :
  populate_docx_experience (Body [] [])
    (JList [JDict [("title", JStr "Engineer"); ("company", JStr "Acme");
                   ("accomplishments", JList (map JStr ["Built X"; "Led Y"]))];
            JDict [("title", JStr "Intern"); ("dates", JStr "2019")]]) =
  Ret [ [];
        [Run "Intern,  (2019)" true];
        [];
        [Run (bullet +:+ "Led Y") false];
        [Run (bullet +:+ "Built X") false];
        [Run "Engineer, Acme ()" true] ].
Proof. reflexivity. Qed.

End DocxFacts.
